(** * rgbd_tum: the RGB-D example driver of ORB_SLAM2

    A shallow embedding of [Examples/RGB-D/rgbd_tum.cc]: the worker
    function [ProcessImages] (association loading, frame loop) as a
    small-step machine, and [main] as the sequence of statements of the
    main thread, run together under an interleaving semantics with
    spawn and join. *)

From stdpp Require Import base list relations strings.
From Stdlib Require Import Ascii ZArith Lia.

Local Open Scope string_scope.
Local Open Scope list_scope.

(** ** What the program takes from its libraries

    [double] and the text-to-double conversion of [operator>>] belong to
    the C++ runtime, [cv::Mat] and its [empty()] to OpenCV.  The driver
    only stores, compares for emptiness and passes these on, so they are
    parameters of the development. *)

Class External := {
  (** the type [double] *)
  double : Type;
  (** the value written by a failed numeric extraction (C++11) *)
  double_zero : double;
  (** [num_get]: applied to the unread characters, the first of which is
      not white space; gives the converted value, if any, and the
      characters left unread.  A numeral that is out of the range of
      [double] is not told apart from the characters that are no
      numeral. *)
  num_get : string -> option double * string;
  (** [cv::Mat] *)
  Mat : Type;
  (** [cv::Mat::empty] *)
  Mat_empty : Mat -> bool
}.

(** ** Streams: [ifstream] and [stringstream] *)

Record istream := mk_istream {
  rdbuf : string;      (* characters not read yet *)
  eofbit : bool;
  failbit : bool;
  badbit : bool;
  ioerr : bool         (* the source fails where the characters end *)
}.

Definition good (f : istream) : bool :=
  negb (eofbit f) && negb (failbit f) && negb (badbit f).

Definition eof (f : istream) : bool := eofbit f.

(** [setstate (failbit)] *)
Definition set_failbit (f : istream) : istream :=
  mk_istream (rdbuf f) (eofbit f) true (badbit f) (ioerr f).

(** The stream after a read that has come to where the characters end:
    the end of the file, with [eofbit]; or, on a source that fails, a
    read error, with [badbit] and without [eofbit].  [nothing]: the read
    has extracted no character, which sets [failbit]. *)
Definition at_end (f : istream) (nothing : bool) : istream :=
  if ioerr f then mk_istream "" false nothing true true
  else mk_istream "" true nothing false false.

Definition is_empty (s : string) : bool :=
  match s with EmptyString => true | String _ _ => false end.

(** [isspace] in the "C" locale: space, and \t \n \v \f \r. *)
Definition isspace (c : ascii) : bool :=
  let n := nat_of_ascii c in
  Nat.eqb n 32 || (Nat.leb 9 n && Nat.leb n 13).

Definition is_newline (c : ascii) : bool := Nat.eqb (nat_of_ascii c) 10.

(** [ifstream::open].  A name that cannot be opened leaves the stream
    with [failbit] set (and [eofbit] clear).  A directory can be opened,
    as a file can: the stream is good, and the first read from it fails. *)
Definition ifstream_open (fs : string -> option string)
    (dirs : string -> bool) (name : string) : istream :=
  match fs name with
  | Some content => mk_istream content false false false false
  | None =>
      if dirs name then mk_istream "" false false false true
      else mk_istream "" false true false false
  end.

(** Characters up to the next newline, the characters after it, and
    whether the end of the buffer was reached before a newline. *)
Fixpoint read_line (b : string) : string * string * bool :=
  match b with
  | EmptyString => ("", "", true)
  | String c r =>
      if is_newline c then ("", r, false)
      else let '(l, r', e) := read_line r in (String c l, r', e)
  end.

(** [std::getline (f, s)].  On a stream that is not good the sentry fails:
    [failbit] is set and [s] is left as it was. *)
Definition getline (f : istream) (s : string) : istream * string :=
  if good f then
    let '(l, r, e) := read_line (rdbuf f) in
    if e then (at_end f (is_empty l), l)
    else (mk_istream r false false false (ioerr f), l)
  else (set_failbit f, s).

Fixpoint skipws (b : string) : string :=
  match b with
  | EmptyString => ""
  | String c r => if isspace c then skipws r else b
  end.

(** The sentry of a formatted extraction: skips white space; fails, with
    [failbit], when nothing else is left. *)
Definition sentry (f : istream) : istream * bool :=
  if good f then
    match skipws (rdbuf f) with
    | EmptyString => (at_end f true, false)
    | b => (mk_istream b false false false (ioerr f), true)
    end
  else (set_failbit f, false).

(** The stream after an extraction that has taken characters and left
    [r] unread. *)
Definition after_read (f : istream) (r : string) (fail : bool) : istream :=
  if is_empty r then at_end f fail
  else mk_istream r false fail false (ioerr f).

Fixpoint read_word (b : string) : string * string :=
  match b with
  | EmptyString => ("", "")
  | String c r =>
      if isspace c then ("", b)
      else let '(w, r') := read_word r in (String c w, r')
  end.

(** [f >> s] for a [std::string]. *)
Definition extract_string (f : istream) (s : string) : istream * string :=
  let '(f1, ok) := sentry f in
  if ok then
    let '(w, r) := read_word (rdbuf f1) in
    (after_read f1 r false, w)
  else (f1, s).

(** [f >> t] for a [double]. *)
Definition extract_double `{External} (f : istream) (t : double)
  : istream * double :=
  let '(f1, ok) := sentry f in
  if ok then
    match num_get (rdbuf f1) with
    | (Some v, r) => (after_read f1 r false, v)
    | (None, r) => (after_read f1 r true, double_zero)
    end
  else (f1, t).

(** ** One line of the association file

    [stringstream ss; ss << s; double t; string sRGB, sD;
     ss >> t >> sRGB >> t >> sD;]
    [t0] is what the uninitialised [t] holds.  Both numeric extractions
    write the same variable [t]. *)
Definition parse_line `{External} (t0 : double) (s : string)
  : double * string * string :=
  let ss := mk_istream s false false false false in
  let '(ss, t) := extract_double ss t0 in
  let '(ss, sRGB) := extract_string ss "" in
  let '(ss, t) := extract_double ss t in
  let '(ss, sD) := extract_string ss "" in
  (t, sRGB, sD).

(** The fields of a line and what separates them. *)
Fixpoint all_chars (P : ascii -> bool) (s : string) : bool :=
  match s with
  | EmptyString => true
  | String c r => P c && all_chars P r
  end.

(** A run of white space, not empty. *)
Definition blanks (s : string) : bool :=
  negb (is_empty s) && all_chars isspace s.

(** A field: not empty, no white space in it. *)
Definition token (s : string) : bool :=
  negb (is_empty s) && all_chars (fun c => negb (isspace c)) s.

(** ** Integer conversions *)

(** [size_t] to [int]: reduction modulo 2^32 into the signed range. *)
Definition to_int (z : Z) : Z :=
  let m := (z mod 2 ^ 32)%Z in
  if (m <? 2 ^ 31)%Z then m else (m - 2 ^ 32)%Z.

(** [int] to [char] (signed, eight bits). *)
Definition to_char (z : Z) : Z :=
  let m := (z mod 256)%Z in
  if (m <? 128)%Z then m else (m - 256)%Z.

(** ** Events and the environment *)

Section Driver.
Context `{Ext : External}.

(** What the two threads do that is visible outside them. *)
Inductive event :=
  | ECerr (msg : string)
  | EConstruct (vocabulary settings : string)
  | ESpawn (association sequence : string)
  | ERunViewerCall
  | ERunViewerRet
  | EJoin
  | EShutdown
  | ESaveTrajectoryTUM (file : string)
  | ESaveKeyFrameTrajectoryTUM (file : string)
  | EReturn (code : Z)
  | EOpen (file : string)
  | EImread (file : string)
  | ETrackCall (imRGB imD : Mat) (tframe : double)
  | ETrackRet
  | EWaitKey (key : Z).

Record world := mk_world {
  (** the text that is read from a name, when the name can be opened
      and read to its end *)
  files : string -> option string;
  (** of the other names, those that can be opened although nothing can
      be read from them: the directories; the rest cannot be opened *)
  directory : string -> bool;
  (** [cv::imread (path, IMREAD_UNCHANGED)] *)
  imread : string -> Mat;
  (** the value of the n-th call of [cv::waitKey (1)], counted from 0 *)
  waitKey : nat -> Z;
  (** what the uninitialised [double t] holds in the n-th execution of
      its declaration, counted from 0 *)
  uninit_double : nat -> double
}.

(** ** [ProcessImages] as a machine

    Program points: before [open] (line 21), at the head of the reading
    loop (27), at the checks (45), at the head of the frame loop with the
    value of [ni] (59), after the function has returned, and the state of
    a vector read out of its bounds. *)
Inductive pc :=
  | PEntry
  | PLoad
  | PCheck
  | PFrame (ni : Z)
  | PReturn
  | PFault.

Record wstate := mk_wstate {
  w_pc : pc;
  fAssociation : istream;
  vstrImageFilenamesRGB : list string;
  vstrImageFilenamesD : list string;
  vTimestamps : list double;
  nImages : Z;
  w_polls : nat        (* calls of [waitKey] made so far *)
}.

Definition at_pc (p : pc) (st : wstate) : wstate :=
  mk_wstate p (fAssociation st) (vstrImageFilenamesRGB st)
    (vstrImageFilenamesD st) (vTimestamps st) (nImages st) (w_polls st).

Definition ProcessImages_entry : wstate :=
  mk_wstate PEntry (mk_istream "" false false false false) [] [] [] 0 0.

(** [v[i]] for an [int] index. *)
Definition at_index {A} (v : list A) (i : Z) : option A :=
  if (0 <=? i)%Z then v !! Z.to_nat i else None.

Definition msg_no_images : string := "No images found in provided path.".
Definition msg_mismatch : string :=
  "Number of RGB and depth images do not match.".
Definition msg_failed_load (path : string) : string :=
  "Failed to load image at: " +:+ path.

(** One step of [ProcessImages]: one evaluation of a loop condition with
    the body it selects, or the straight-line code between two loops.  The
    events are those of the step, in order. *)
Definition wstep (W : world) (strAssociationFilename strSequencePath : string)
    (st : wstate) : list event * wstate :=
  match w_pc st with
  | PEntry =>
      ([EOpen strAssociationFilename],
       mk_wstate PLoad
         (ifstream_open (files W) (directory W) strAssociationFilename)
         [] [] [] 0 0)
  | PLoad =>
      if eof (fAssociation st) then ([], at_pc PCheck st)
      else
        let '(f, s) := getline (fAssociation st) "" in
        if is_empty s then
          ([], mk_wstate PLoad f (vstrImageFilenamesRGB st)
                 (vstrImageFilenamesD st) (vTimestamps st) (nImages st)
                 (w_polls st))
        else
          let '(t, sRGB, sD) :=
            parse_line (uninit_double W (length (vTimestamps st))) s in
          ([], mk_wstate PLoad f
                 (vstrImageFilenamesRGB st ++ [strSequencePath +:+ "/" +:+ sRGB])
                 (vstrImageFilenamesD st ++ [strSequencePath +:+ "/" +:+ sD])
                 (vTimestamps st ++ [t]) (nImages st) (w_polls st))
  | PCheck =>
      let n := to_int (Z.of_nat (length (vstrImageFilenamesRGB st))) in
      match vstrImageFilenamesRGB st with
      | [] => ([ECerr msg_no_images], at_pc PReturn st)
      | _ :: _ =>
          if negb (Nat.eqb (length (vstrImageFilenamesD st))
                           (length (vstrImageFilenamesRGB st)))
          then ([ECerr msg_mismatch], at_pc PReturn st)
          else ([], mk_wstate (PFrame 0) (fAssociation st)
                      (vstrImageFilenamesRGB st) (vstrImageFilenamesD st)
                      (vTimestamps st) n (w_polls st))
      end
  | PFrame ni =>
      if (ni <? nImages st)%Z then
        match at_index (vstrImageFilenamesRGB st) ni,
              at_index (vstrImageFilenamesD st) ni,
              at_index (vTimestamps st) ni with
        | Some pRGB, Some pD, Some tframe =>
            let imRGB := imread W pRGB in
            let imD := imread W pD in
            if Mat_empty imRGB then
              ([EImread pRGB; EImread pD; ECerr (msg_failed_load pRGB)],
               at_pc PReturn st)
            else
              let key := waitKey W (w_polls st) in
              let c := to_char key in
              ([EImread pRGB; EImread pD; ETrackCall imRGB imD tframe;
                ETrackRet; EWaitKey key],
               mk_wstate (if (c =? 27)%Z then PReturn else PFrame (ni + 1))
                 (fAssociation st) (vstrImageFilenamesRGB st)
                 (vstrImageFilenamesD st) (vTimestamps st) (nImages st)
                 (S (w_polls st)))
        | _, _, _ => ([], at_pc PFault st)
        end
      else ([], at_pc PReturn st)
  | PReturn => ([], st)
  | PFault => ([], st)
  end.

Definition returned (st : wstate) : bool :=
  match w_pc st with PReturn => true | _ => false end.

Definition halted (st : wstate) : bool :=
  match w_pc st with PReturn | PFault => true | _ => false end.

(** [n] steps from [st]: the events, and the state reached. *)
Fixpoint wsteps (W : world) (a s : string) (n : nat) (st : wstate)
  : list event * wstate :=
  match n with
  | O => ([], st)
  | S n' =>
      if halted st then ([], st)
      else
        let '(ev, st') := wstep W a s st in
        let '(evs, st'') := wsteps W a s n' st' in
        (ev ++ evs, st'')
  end.

(** [ProcessImages] with a bound on the number of steps: the events of the
    call when it returns within the bound. *)
Definition ProcessImages (W : world) (fuel : nat)
    (strAssociationFilename strSequencePath : string) : option (list event) :=
  let '(evs, st) :=
    wsteps W strAssociationFilename strSequencePath fuel ProcessImages_entry in
  if returned st then Some evs else None.


(** ** Reading the properties off a trace *)

(** The loader in the words of the specification: the lines of the file
    are its maximal runs of characters other than newline ... *)
Fixpoint split_lines (b : string) : list string :=
  match b with
  | EmptyString => [""]
  | String c r =>
      if is_newline c then "" :: split_lines r
      else
        match split_lines r with
        | l :: ls => String c l :: ls
        | [] => [String c ""]
        end
  end.

Definition vectors : Type := list string * list string * list double.

Definition descriptors (st : wstate) : vectors :=
  (vstrImageFilenamesRGB st, vstrImageFilenamesD st, vTimestamps st).

(** ... and every line that is not empty appends one descriptor. *)
Definition add_line (W : world) (strSequencePath : string) (v : vectors)
    (s : string) : vectors :=
  if is_empty s then v
  else
    let '(vRGB, vD, vT) := v in
    let '(t, sRGB, sD) := parse_line (uninit_double W (length vT)) s in
    (vRGB ++ [strSequencePath +:+ "/" +:+ sRGB],
     vD ++ [strSequencePath +:+ "/" +:+ sD],
     vT ++ [t]).

Definition load_lines (W : world) (strSequencePath : string)
    (ls : list string) (v : vectors) : vectors :=
  fold_left (add_line W strSequencePath) ls v.

Definition nonempty_lines (b : string) : list string :=
  filter (fun l => is_empty l = false) (split_lines b).

(** The events of one frame that is read, tracked and polled. *)
Definition frame_events (W : world) (poll : nat) (pRGB pD : string)
    (tframe : double) : list event :=
  [EImread pRGB; EImread pD;
   ETrackCall (imread W pRGB) (imread W pD) tframe; ETrackRet;
   EWaitKey (waitKey W poll)].

(** The events of ingesting every descriptor once, in order. *)
Fixpoint ingest_all (W : world) (poll : nat) (rs ds : list string)
    (ts : list double) : list event :=
  match rs, ds, ts with
  | r :: rs', d :: ds', t :: ts' =>
      frame_events W poll r d t ++ ingest_all W (S poll) rs' ds' ts'
  | _, _, _ => []
  end.

Definition is_track (e : event) : bool :=
  match e with ETrackCall _ _ _ | ETrackRet => true | _ => false end.

Definition is_call (e : event) : bool :=
  match e with ETrackCall _ _ _ => true | _ => false end.

Definition is_poll (e : event) : bool :=
  match e with EWaitKey _ => true | _ => false end.

(** The calls of [TrackRGBD] with their returns, for every descriptor
    once, in order. *)
Fixpoint expected_calls (W : world) (rs ds : list string) (ts : list double)
  : list event :=
  match rs, ds, ts with
  | r :: rs', d :: ds', t :: ts' =>
      ETrackCall (imread W r) (imread W d) t :: ETrackRet
        :: expected_calls W rs' ds' ts'
  | _, _, _ => []
  end.

(** The abort key: [(char) cv::waitKey (1) == 27]. *)
Definition is_abort (key : Z) : bool := (to_char key =? 27)%Z.

(** An observer of the polling discipline: a call of [TrackRGBD], its
    return, one poll; nothing after a poll that saw the abort key. *)
Inductive poll_state := Idle | InCall | AfterRet | Aborted.

Definition poll_next (q : poll_state) (e : event) : option poll_state :=
  match q, e with
  | Idle, ETrackCall _ _ _ => Some InCall
  | Idle, ETrackRet => None
  | Idle, EWaitKey _ => None
  | Idle, _ => Some Idle
  | InCall, ETrackRet => Some AfterRet
  | AfterRet, EWaitKey key => Some (if is_abort key then Aborted else Idle)
  | _, _ => None
  end.

Fixpoint polled_from (q : poll_state) (evs : list event) : bool :=
  match evs with
  | [] => match q with Idle | Aborted => true | _ => false end
  | e :: r =>
      match poll_next q e with
      | Some q' => polled_from q' r
      | None => false
      end
  end.

(** ** [main] and the two threads *)

Definition usage : string :=
  "Usage: ./rgbd_tum path_to_vocabulary path_to_settings path_to_sequence path_to_association".

(** [argv[i]] *)
Definition arg (argv : list string) (i : nat) : string :=
  default "" (argv !! i).

(** The statements of [main] that a run with these arguments executes, in
    order.  [ESpawn] is the construction of [processingThread], which
    starts [ProcessImages (&SLAM, argv[4], argv[3])]; [EJoin] is
    [processingThread.join ()]. *)
Definition main (argc : Z) (argv : list string) : list event :=
  if negb (argc =? 5)%Z then [ECerr usage; EReturn 1]
  else
    [EConstruct (arg argv 1) (arg argv 2);
     ESpawn (arg argv 4) (arg argv 3);
     ERunViewerCall; ERunViewerRet;
     EJoin;
     EShutdown;
     ESaveTrajectoryTUM "CameraTrajectory.txt";
     ESaveKeyFrameTrajectoryTUM "KeyFrameTrajectory.txt";
     EReturn 0].

Inductive tid := Main | Worker.

(** [std::thread]: not started, or running [ProcessImages] with its two
    string arguments; [pending] are the events of the current step that
    have not happened yet. *)
Inductive thread :=
  | NotStarted
  | Started (a s : string) (pending : list event) (st : wstate).

Record sys := mk_sys {
  main_rest : list event;         (* statements [main] has still to run *)
  processingThread : thread;
  trace : list (tid * event)      (* what has happened, oldest first *)
}.

Definition sys_init (argc : Z) (argv : list string) : sys :=
  mk_sys (main argc argv) NotStarted [].

(** A step of the main thread.  Spawning starts the worker; joining waits
    until [ProcessImages] has returned. *)
Definition main_step (s : sys) : option sys :=
  match main_rest s with
  | [] => None
  | ESpawn a q :: rest =>
      match processingThread s with
      | NotStarted =>
          Some (mk_sys rest (Started a q [] ProcessImages_entry)
                  (trace s ++ [(Main, ESpawn a q)]))
      | Started _ _ _ _ => None
      end
  | EJoin :: rest =>
      match processingThread s with
      | Started a q [] st =>
          if returned st
          then Some (mk_sys rest (Started a q [] st) (trace s ++ [(Main, EJoin)]))
          else None
      | _ => None
      end
  | e :: rest => Some (mk_sys rest (processingThread s) (trace s ++ [(Main, e)]))
  end.

(** A step of the worker thread: the next event of the current step of
    [ProcessImages], or its next step. *)
Definition worker_step (W : world) (s : sys) : option sys :=
  match processingThread s with
  | NotStarted => None
  | Started a q (e :: p) st =>
      Some (mk_sys (main_rest s) (Started a q p st) (trace s ++ [(Worker, e)]))
  | Started a q [] st =>
      if halted st then None
      else
        let '(ev, st') := wstep W a q st in
        Some (mk_sys (main_rest s) (Started a q ev st') (trace s))
  end.

Definition step (W : world) (s s' : sys) : Prop :=
  main_step s = Some s' \/ worker_step W s = Some s'.

(** The states of the runs of the program. *)
Definition reachable (W : world) (argc : Z) (argv : list string) (s : sys)
  : Prop :=
  rtc (step W) (sys_init argc argv) s.

(** The process has ended with this exit code. *)
Definition exited (s : sys) (code : Z) : Prop :=
  main_rest s = [] /\ (Main, EReturn code) ∈ trace s.

(** A scheduler that lets the main thread run whenever it can. *)
Fixpoint schedule (W : world) (n : nat) (s : sys) : sys :=
  match n with
  | O => s
  | S n' =>
      match main_step s with
      | Some s' => schedule W n' s'
      | None =>
          match worker_step W s with
          | Some s' => schedule W n' s'
          | None => s
          end
      end
  end.

(** ** Reading the properties off the trace of a run *)

Definition tid_eqb (x y : tid) : bool :=
  match x, y with
  | Main, Main | Worker, Worker => true
  | _, _ => false
  end.

(** The events of one thread, in order. *)
Definition events_of (t : tid) (tr : list (tid * event)) : list event :=
  List.map snd (List.filter (fun x => tid_eqb x.1 t) tr).

(** How often an event of some kind has happened, in whichever thread. *)
Definition occurrences (kind : event -> bool) (tr : list (tid * event)) : nat :=
  length (List.filter (fun x => kind x.2) tr).

Definition is_shutdown (e : event) : bool :=
  match e with EShutdown => true | _ => false end.

Definition is_save_trajectory (e : event) : bool :=
  match e with ESaveTrajectoryTUM _ => true | _ => false end.

Definition is_save_keyframes (e : event) : bool :=
  match e with ESaveKeyFrameTrajectoryTUM _ => true | _ => false end.

(** The events [ProcessImages] can produce. *)
Definition is_worker_event (e : event) : bool :=
  match e with
  | EOpen _ | ECerr _ | EImread _ | ETrackCall _ _ _ | ETrackRet
  | EWaitKey _ => true
  | _ => false
  end.

(** What holds in every state of every run: the main thread is somewhere
    in [main]; the worker is not started as long as [main] has not spawned
    it, and once started is where some number of steps of
    [ProcessImages] lead; [join] has only returned on a worker that has
    returned; the worker has acted only after being spawned and never
    after being joined. *)
Definition sys_inv (W : world) (argc : Z) (argv : list string) (s : sys)
  : Prop :=
  events_of Main (trace s) ++ main_rest s = main argc argv
  /\ match processingThread s with
     | NotStarted =>
         events_of Worker (trace s) = []
         /\ forall a q, ESpawn a q ∉ events_of Main (trace s)
     | Started a q p st =>
         ESpawn a q ∈ events_of Main (trace s)
         /\ exists n, wsteps W a q n ProcessImages_entry
                       = (events_of Worker (trace s) ++ p, st)
     end
  /\ (EJoin ∈ events_of Main (trace s) ->
        exists a q st, processingThread s = Started a q [] st
                       /\ returned st = true)
  /\ (forall t1 e t2, trace s = t1 ++ (Worker, e) :: t2 ->
        exists a q, (Main, ESpawn a q) ∈ t1)
  /\ (forall t1 t2 e, trace s = t1 ++ (Main, EJoin) :: t2 ->
        (Worker, e) ∉ t2).

(** The statements of [main] that do not wait for or start the worker. *)
Definition plain (e : event) : bool :=
  match e with ESpawn _ _ | EJoin => false | _ => true end.

(** ** What the proofs keep track of *)

(** The three vectors grow together; in the frame loop [ni] is not
    negative and [nImages] is the converted size. *)
Definition vectors_ok st : Prop :=
  length (vstrImageFilenamesRGB st) = length (vstrImageFilenamesD st)
  /\ length (vstrImageFilenamesD st) = length (vTimestamps st)
  /\ match w_pc st with
     | PFrame ni =>
         (0 <= ni)%Z
         /\ nImages st = to_int (Z.of_nat (length (vstrImageFilenamesRGB st)))
     | PFault => False
     | _ => True
     end.

(** The reading loop on a stream that failed to open, or that fails at
    its first read: [eof ()] stays false and [getline] reads nothing, so
    every step leaves the loop where it is. *)
Definition stuck_reading st : Prop :=
  w_pc st = PLoad
  /\ (eofbit (fAssociation st) = false
      /\ rdbuf (fAssociation st) = ""
      /\ (good (fAssociation st) = false \/ ioerr (fAssociation st) = true))
  /\ descriptors st = ([], [], []).

(** The trace of the run in which the worker does all its work while the
    viewer runs. *)
Definition full_trace (argv : list string) (evs : list event)
  : list (tid * event) :=
  [(Main, EConstruct (arg argv 1) (arg argv 2));
   (Main, ESpawn (arg argv 4) (arg argv 3));
   (Main, ERunViewerCall)]
  ++ List.map (pair Worker) evs
  ++ [(Main, ERunViewerRet); (Main, EJoin); (Main, EShutdown);
      (Main, ESaveTrajectoryTUM "CameraTrajectory.txt");
      (Main, ESaveKeyFrameTrajectoryTUM "KeyFrameTrajectory.txt");
      (Main, EReturn 0)].

End Driver.

Arguments event {Ext}.
Arguments world {Ext}.
Arguments wstate {Ext}.
Arguments thread {Ext}.
Arguments sys {Ext}.

(** ** A concrete environment for the examples

    Decimal literals stand for [double]s (a mantissa and a number of
    fractional digits), pixel lists for images. *)
Module Sample.

Definition digit_of (c : ascii) : option Z :=
  let n := nat_of_ascii c in
  if Nat.leb 48 n && Nat.leb n 57 then Some (Z.of_nat (n - 48)) else None.

Fixpoint read_digits (b : string) (acc : Z) (cnt : nat) : Z * nat * string :=
  match b with
  | EmptyString => (acc, cnt, "")
  | String c r =>
      match digit_of c with
      | Some d => read_digits r (10 * acc + d)%Z (S cnt)
      | None => (acc, cnt, b)
      end
  end.

Definition decimal_get (b : string) : option (Z * nat) * string :=
  let '(ip, n1, r1) := read_digits b 0%Z 0 in
  match r1 with
  | String "."%char r2 =>
      let '(m, n2, r3) := read_digits r2 ip 0 in
      if Nat.eqb (n1 + n2) 0 then (None, r3) else (Some (m, n2), r3)
  | _ => if Nat.eqb n1 0 then (None, r1) else (Some (ip, 0), r1)
  end.

#[export] Instance sample_external : External := {|
  double := Z * nat;
  double_zero := (0%Z, 0);
  num_get := decimal_get;
  Mat := list Z;
  Mat_empty := fun m => match m with [] => true | _ => false end
|}.

Definition nl : string := String (ascii_of_nat 10) "".

(** One file system for text and images: the manifest under
    [assoc.txt], the directory [/seq], and images decoding to one pixel
    unless listed as [broken]. *)
Definition sample_world (manifest : option string) (broken : list string)
    (keys : nat -> Z) : world :=
  mk_world
    (fun name => if String.eqb name "assoc.txt" then manifest else None)
    (fun name => String.eqb name "/seq")
    (fun path => if existsb (String.eqb path) broken then [] else [255%Z])
    keys
    (fun _ => (0%Z, 0)).

Definition no_key : nat -> Z := fun _ => (-1)%Z.

Definition argv5 : list string :=
  ["./rgbd_tum"; "ORBvoc.txt"; "TUM1.yaml"; "/seq"; "assoc.txt"].

Definition two_frames : string :=
  "1.0 rgb/1.png 1.0 depth/1.png" +:+ nl +:+
  "2.0 rgb/2.png 2.0 depth/2.png" +:+ nl.

End Sample.

(** ** Concrete runs *)

Module Runs.
Import Sample.

(** Two frames, every image decoding, no key pressed. *)
Definition W_two : world := sample_world (Some two_frames) [] no_key.

(** Three frames, the abort key at the second poll. *)
Definition three_frames : string :=
  two_frames +:+ "3.0 rgb/3.png 3.0 depth/3.png" +:+ nl.

Definition esc_at_second : nat -> Z :=
  fun n => if Nat.eqb n 1 then 27%Z else (-1)%Z.

Definition W_abort : world := sample_world (Some three_frames) [] esc_at_second.

(** A manifest without lines. *)
Definition W_empty : world := sample_world (Some "") [] no_key.

(** No manifest under the name given. *)
Definition W_missing : world := sample_world None [] no_key.

(** One line whose two timestamps differ. *)
Definition line_two_stamps : string := "1.0 rgb/1.png 2.0 depth/1.png".

Definition W_stamps : world :=
  sample_world (Some (line_two_stamps +:+ nl)) [] no_key.

(** One line of two fields; the sequence directory is not an image. *)
Definition line_two_fields : string := "1.0 rgb/1.png".

Definition W_short : world :=
  sample_world (Some (line_two_fields +:+ nl)) ["/seq/"] no_key.

(** Two frames, the depth image of the first not decoding. *)
Definition W_depth : world :=
  sample_world (Some two_frames) ["/seq/depth/1.png"] no_key.

(** [n] steps of [ProcessImages ("assoc.txt", "/seq")]. *)
Definition run (W : world) (n : nat) : list event * wstate :=
  wsteps W "assoc.txt" "/seq" n ProcessImages_entry.

(** The run of the whole program under the scheduler. *)
Definition program (W : world) (argc : Z) (argv : list string) (n : nat) : sys :=
  schedule W n (sys_init argc argv).

(** [n] lines, all the same. *)
Fixpoint repeat_lines (n : nat) (line : string) : string :=
  match n with
  | O => ""
  | S k => line +:+ nl +:+ repeat_lines k line
  end.

(** As many frames as [int] cannot count. *)
Definition many : nat := Z.to_nat (2 ^ 31).

Definition line_one : string := "1.0 rgb/1.png 1.0 depth/1.png".

Definition W_many : world :=
  sample_world (Some (repeat_lines many line_one)) [] no_key.

End Runs.

(** ** Manifests line by line *)

Section Manifests.
Context `{Ext : External}.

(** A path below the sequence directory. *)
Definition under_root (root path : string) : Prop :=
  exists x, path = root +:+ "/" +:+ x.

(** The text of a file from its lines, each ended by a newline. *)
Fixpoint unlines (ls : list string) : string :=
  match ls with
  | [] => ""
  | l :: ls' => l +:+ Sample.nl +:+ unlines ls'
  end.

(** A line as the association files of the TUM sequences have them: a
    timestamp, the colour path, a timestamp, the depth path, with white
    space between them; [c] and [d] are the two paths and [v] the value
    of the second timestamp. *)
Definition four_fields (line c d : string) (v : double) : Prop :=
  exists tok1 b1 b2 tok2 b3 v1,
    line = tok1 +:+ b1 +:+ c +:+ b2 +:+ tok2 +:+ b3 +:+ d
    /\ all_chars (fun x => negb (is_newline x)) line = true
    /\ token tok1 = true /\ blanks b1 = true /\ token c = true
    /\ blanks b2 = true /\ token tok2 = true /\ blanks b3 = true
    /\ token d = true
    /\ num_get (tok1 +:+ b1 +:+ c +:+ b2 +:+ tok2 +:+ b3 +:+ d)
         = (Some v1, b1 +:+ c +:+ b2 +:+ tok2 +:+ b3 +:+ d)
    /\ num_get (tok2 +:+ b3 +:+ d) = (Some v, b3 +:+ d).

Record frame_line := mk_frame_line {
  fl_text : string;
  fl_rgb : string;
  fl_depth : string;
  fl_time : double
}.

Definition well_formed (f : frame_line) : Prop :=
  four_fields (fl_text f) (fl_rgb f) (fl_depth f) (fl_time f).

(** What [ProcessImages] does on a manifest of such lines when nothing
    stops it: it opens the file and, for each line in turn, reads the two
    images, tracks them and polls the key. *)
Definition whole_run (W : world) (a seq : string) (fs : list frame_line)
  : list event :=
  EOpen a
    :: ingest_all W 0 (List.map (fun f => seq +:+ "/" +:+ fl_rgb f) fs)
         (List.map (fun f => seq +:+ "/" +:+ fl_depth f) fs)
         (List.map fl_time fs).

(** [ProcessImages] has not reached the frame loop. *)
Definition before_frames (st : wstate) : bool :=
  match w_pc st with PEntry | PLoad | PCheck => true | _ => false end.

End Manifests.

Arguments frame_line {Ext}.

(** ** More concrete runs *)

Module Cases.
Import Sample Runs.

(** The two lines of [two_frames], field by field. *)
Definition frames_two : list frame_line :=
  [mk_frame_line "1.0 rgb/1.png 1.0 depth/1.png" "rgb/1.png" "depth/1.png"
     (10%Z, 1);
   mk_frame_line "2.0 rgb/2.png 2.0 depth/2.png" "rgb/2.png" "depth/2.png"
     (20%Z, 1)].

(** The same two lines with empty lines before and between them, the
    last one without its newline. *)
Definition gappy_frames : string :=
  nl +:+ "1.0 rgb/1.png 1.0 depth/1.png" +:+ nl +:+ nl +:+
  "2.0 rgb/2.png 2.0 depth/2.png".

(** Two manifests side by side. *)
Definition W_pair : world :=
  mk_world
    (fun name =>
       if String.eqb name "a.txt" then Some two_frames
       else if String.eqb name "b.txt" then Some gappy_frames else None)
    (fun name => String.eqb name "/seq")
    (fun _ => [255%Z])
    no_key
    (fun _ => (0%Z, 0)).

(** A manifest of one line of two spaces. *)
Definition W_blank : world := sample_world (Some ("  " +:+ nl)) [] no_key.

(** A manifest that begins with a comment, as the association files made
    by the tools of the TUM benchmark may. *)
Definition comment_line : string := "# timestamp filename".

Definition W_text : world := sample_world (Some (comment_line +:+ nl)) [] no_key.

(** Three frames, the colour image of the second not decoding. *)
Definition W_colour : world :=
  sample_world (Some three_frames) ["/seq/rgb/2.png"] no_key.

(** A key whose low byte is 27 and that is not 27. *)
Definition W_high : world := sample_world (Some two_frames) [] (fun _ => 283%Z).

End Cases.

(** * Properties *)

Section Properties.
Context `{Ext : External}.

Implicit Types (W : world) (st : wstate) (evs : list event).

(** ** Integer conversions *)

Lemma to_int_small (z : Z) : (0 <= z < 2 ^ 31)%Z -> to_int z = z.
Proof.
  intros Hz. unfold to_int.
  rewrite Z.mod_small by lia.
  destruct (Z.ltb_spec z (2 ^ 31)); lia.
Qed.

Lemma to_int_le (z : Z) : (0 <= z)%Z -> (to_int z <= z)%Z.
Proof.
  intros Hz. unfold to_int.
  assert (z mod 2 ^ 32 <= z)%Z by (apply Z.mod_le; lia).
  destruct (Z.ltb_spec (z mod 2 ^ 32) (2 ^ 31)); lia.
Qed.

Lemma at_index_is_Some {A} (v : list A) (i : Z) :
  (0 <= i < Z.of_nat (length v))%Z -> is_Some (at_index v i).
Proof.
  intros Hi. unfold at_index.
  destruct (Z.leb_spec 0 i); [| lia].
  apply lookup_lt_is_Some. lia.
Qed.

(** ** The vectors of [ProcessImages] *)

Lemma vectors_ok_entry : vectors_ok ProcessImages_entry.
Proof. repeat split. Qed.

Lemma frame_in_bounds st ni :
  vectors_ok st -> w_pc st = PFrame ni -> (ni < nImages st)%Z ->
  (0 <= ni < Z.of_nat (length (vstrImageFilenamesRGB st)))%Z.
Proof.
  intros (_ & _ & Hpc) Hni Hlt. rewrite Hni in Hpc. destruct Hpc as [H0 Hn].
  pose proof (to_int_le (Z.of_nat (length (vstrImageFilenamesRGB st)))).
  lia.
Qed.

Lemma msg_failed_load_ne path : msg_failed_load path <> msg_mismatch.
Proof. discriminate. Qed.

(** Closes [e ∉ [e1; ...; en]] when [e] differs from each [ei] by a
    constructor or a literal. *)
Ltac absent :=
  let H := fresh "Hin" in
  intros H;
  repeat (apply elem_of_cons in H as [H|H]; [discriminate |]);
  by apply elem_of_nil in H.

Lemma wstep_vectors_ok W a s st ev st' :
  vectors_ok st -> wstep W a s st = (ev, st') ->
  vectors_ok st' /\ ECerr msg_mismatch ∉ ev.
Proof.
  intros Hok Hstep. pose proof Hok as (HRD & HDT & Hpc).
  unfold wstep in Hstep. destruct (w_pc st) as [| | |ni| |] eqn:Epc.
  - inversion Hstep; subst. split; [repeat split | absent].
  - destruct (eof (fAssociation st)).
    { inversion Hstep; subst. split; [by repeat split | absent]. }
    destruct (getline (fAssociation st) "") as [f l].
    destruct (is_empty l).
    { inversion Hstep; subst. split; [by repeat split | absent]. }
    destruct (parse_line _ l) as [[t sRGB] sD].
    inversion Hstep; subst. split; [| absent].
    repeat split; simpl; rewrite !length_app; simpl; lia.
  - destruct (vstrImageFilenamesRGB st) as [|r rs] eqn:ER.
    { inversion Hstep; subst. split; [repeat split; simpl; congruence |].
      absent. }
    rewrite <- HRD in Hstep. rewrite Nat.eqb_refl in Hstep. simpl in Hstep.
    inversion Hstep; subst. split; [| absent].
    repeat split; simpl in *; try done; lia.
  - destruct (Z.ltb_spec ni (nImages st)) as [Hlt|Hge].
    + assert (Hb : (0 <= ni < Z.of_nat (length (vstrImageFilenamesRGB st)))%Z)
        by (eapply frame_in_bounds; eauto).
      destruct (at_index_is_Some (vstrImageFilenamesRGB st) ni) as [pR ER];
        [lia |].
      destruct (at_index_is_Some (vstrImageFilenamesD st) ni) as [pD ED];
        [lia |].
      destruct (at_index_is_Some (vTimestamps st) ni) as [tf ET]; [lia |].
      rewrite ER, ED, ET in Hstep.
      destruct (Mat_empty (imread W pR)).
      * inversion Hstep; subst. split; [by repeat split |].
        absent.
      * inversion Hstep; subst. split.
        -- repeat split; simpl; try done.
           destruct (to_char _ =? 27)%Z; [done |]. split; [lia | tauto].
        -- absent.
    + inversion Hstep; subst. split; [by repeat split | absent].
  - inversion Hstep; subst. split; [done | absent].
  - by destruct Hpc.
Qed.

Lemma wsteps_vectors_ok W a s n st evs st' :
  vectors_ok st -> wsteps W a s n st = (evs, st') ->
  vectors_ok st' /\ ECerr msg_mismatch ∉ evs.
Proof.
  revert st evs st'. induction n as [|n IH]; intros st evs st' Hok Hrun; simpl in Hrun.
  { inversion Hrun; subst. split; [done | absent]. }
  destruct (halted st).
  { inversion Hrun; subst. split; [done | absent]. }
  destruct (wstep W a s st) as [ev st1] eqn:E1.
  destruct (wsteps W a s n st1) as [evs2 st2] eqn:E2.
  inversion Hrun; subst.
  destruct (wstep_vectors_ok _ _ _ _ _ _ Hok E1) as [Hok1 Hn1].
  destruct (IH _ _ _ Hok1 E2) as [Hok2 Hn2].
  split; [done |]. rewrite elem_of_app. tauto.
Qed.

(** ** Steps of the machine *)

Lemma wsteps_halted W a s n st : halted st = true -> wsteps W a s n st = ([], st).
Proof. intros H. destruct n; simpl; [done |]. by rewrite H. Qed.

Lemma wsteps_S W a s n st ev st1 :
  halted st = false -> wstep W a s st = (ev, st1) ->
  wsteps W a s (S n) st =
    (ev ++ (wsteps W a s n st1).1, (wsteps W a s n st1).2).
Proof.
  intros Hh Hs. simpl. rewrite Hh, Hs.
  by destruct (wsteps W a s n st1).
Qed.

(** The events of one step, by cases on the program point. *)
Lemma wstep_events W a s st ev st' :
  wstep W a s st = (ev, st') ->
  ev = [] \/ ev = [EOpen a] \/ (exists m, ev = [ECerr m])
  \/ (exists r d m, ev = [EImread r; EImread d; ECerr m])
  \/ (exists r d im1 im2 t key,
        ev = [EImread r; EImread d; ETrackCall im1 im2 t; ETrackRet; EWaitKey key]
        /\ w_pc st' = if is_abort key then PReturn else w_pc st').
Proof.
  unfold wstep. intros Hstep.
  destruct (w_pc st) as [| | |ni| |].
  - inversion Hstep; auto.
  - destruct (eof _); [inversion Hstep; auto |].
    destruct (getline _ _) as [f l]. destruct (is_empty l); [inversion Hstep; auto |].
    destruct (parse_line _ l) as [[t sRGB] sD]. inversion Hstep; auto.
  - destruct (vstrImageFilenamesRGB st); [inversion Hstep; eauto |].
    destruct (negb _); inversion Hstep; eauto.
  - destruct (ni <? nImages st)%Z; [| inversion Hstep; auto].
    destruct (at_index (vstrImageFilenamesRGB st) ni) as [r|]; [| inversion Hstep; auto].
    destruct (at_index (vstrImageFilenamesD st) ni) as [d|]; [| inversion Hstep; auto].
    destruct (at_index (vTimestamps st) ni) as [t|]; [| inversion Hstep; auto].
    destruct (Mat_empty _).
    + inversion Hstep. right. right. right. left. eauto.
    + inversion Hstep. do 4 right. do 6 eexists. split; [reflexivity |].
      simpl. unfold is_abort. by destruct (to_char _ =? 27)%Z.
  - inversion Hstep; auto.
  - inversion Hstep; auto.
Qed.

(** ** Polling *)

Lemma wsteps_polled W a s n st evs st' :
  wsteps W a s n st = (evs, st') -> polled_from Idle evs = true.
Proof.
  revert st evs st'. induction n as [|n IH]; intros st evs st' Hrun.
  { simpl in Hrun. by inversion Hrun. }
  destruct (halted st) eqn:Hh.
  { rewrite wsteps_halted in Hrun by done. by inversion Hrun. }
  destruct (wstep W a s st) as [ev st1] eqn:E1.
  rewrite (wsteps_S _ _ _ _ _ _ _ Hh E1) in Hrun.
  destruct (wsteps W a s n st1) as [evs2 st2] eqn:E2. simpl in Hrun.
  inversion Hrun; subst. pose proof (IH _ _ _ E2) as Hp.
  destruct (wstep_events _ _ _ _ _ _ E1)
    as [->|[->|[[m ->]|[(r & d & m & ->)|(r & d & i1 & i2 & t & key & -> & Hpc)]]]];
    simpl; try done.
  destruct (is_abort key); [| done].
  rewrite wsteps_halted in E2 by (unfold halted; by rewrite Hpc).
  by inversion E2.
Qed.

Lemma polled_count evs : forall q,
  polled_from q evs = true ->
  length (List.filter is_poll evs) =
    length (List.filter is_call evs)
    + match q with InCall | AfterRet => 1 | _ => 0 end.
Proof.
  induction evs as [|e evs IH]; intros q Hp; simpl in Hp.
  { by destruct q. }
  destruct (poll_next q e) as [q'|] eqn:En; [| done].
  specialize (IH q' Hp).
  destruct q, e; simpl in En; try done; inversion En; subst; simpl;
    try (destruct (is_abort _)); simpl in IH; lia.
Qed.

Lemma polled_aborted_nil evs : polled_from Aborted evs = true -> evs = [].
Proof. by destruct evs. Qed.

Lemma polled_abort_last q e1 key e2 :
  polled_from q (e1 ++ EWaitKey key :: e2) = true ->
  is_abort key = true -> e2 = [].
Proof.
  revert q. induction e1 as [|x e1 IH]; intros q Hp Hk; simpl in Hp.
  - destruct q; simpl in Hp; try done. rewrite Hk in Hp.
    by apply polled_aborted_nil.
  - destruct (poll_next q x) as [q'|]; [| done]. by apply (IH q').
Qed.

Lemma polled_ret_then_poll q e1 e2 :
  polled_from q (e1 ++ ETrackRet :: e2) = true ->
  exists key e3, e2 = EWaitKey key :: e3.
Proof.
  revert q. induction e1 as [|x e1 IH]; intros q Hp; simpl in Hp.
  - destruct q; simpl in Hp; try done.
    destruct e2 as [|y e3]; [done |]. simpl in Hp.
    destruct y; try done. eauto.
  - destruct (poll_next q x) as [q'|]; [| done]. by apply (IH q').
Qed.

Lemma polled_poll_after_call q e1 key e2 :
  polled_from q (e1 ++ EWaitKey key :: e2) = true ->
  (q = AfterRet /\ e1 = [])
  \/ (q = InCall /\ e1 = [ETrackRet])
  \/ (exists e0 im1 im2 t, e1 = e0 ++ [ETrackCall im1 im2 t; ETrackRet]).
Proof.
  revert q. induction e1 as [|x e1 IH]; intros q Hp; simpl in Hp.
  - destruct q; simpl in Hp; try done. by left.
  - destruct (poll_next q x) as [q'|] eqn:En; [| done].
    destruct (IH q' Hp) as [[-> ->]|[[-> ->]|(e0 & i1 & i2 & t & ->)]].
    + right. left. destruct q, x; simpl in En; try done.
      by destruct (is_abort _).
    + right. right. destruct q, x; simpl in En; try done.
      * by exists [], imRGB, imD, tframe.
      * by destruct (is_abort _).
    + right. right. by exists (x :: e0), i1, i2, t.
Qed.

(** ** The reading loop *)

Lemma split_lines_not_nil b : split_lines b <> [].
Proof.
  destruct b as [|c b]; simpl; [done |].
  destruct (is_newline c); [done |]. by destruct (split_lines b).
Qed.

Lemma read_line_split b l r e :
  read_line b = (l, r, e) ->
  (e = true /\ r = "" /\ split_lines b = [l])
  \/ (e = false /\ split_lines b = l :: split_lines r).
Proof.
  revert l r e. induction b as [|c b IH]; intros l r e Hr; simpl in Hr.
  { inversion Hr. by left. }
  simpl. destruct (is_newline c).
  { inversion Hr. by right. }
  destruct (read_line b) as [[l' r'] e'] eqn:Eb. inversion Hr; subst.
  destruct (IH _ _ _ eq_refl) as [(-> & -> & ->)|(-> & ->)]; [by left | by right].
Qed.

Lemma wstep_load W a s st b :
  w_pc st = PLoad -> fAssociation st = mk_istream b false false false false ->
  exists st1 l r e,
    read_line b = (l, r, e)
    /\ wstep W a s st = ([], st1)
    /\ w_pc st1 = PLoad
    /\ fAssociation st1 = mk_istream r e (e && is_empty l) false false
    /\ descriptors st1 = add_line W s (descriptors st) l
    /\ nImages st1 = nImages st /\ w_polls st1 = w_polls st.
Proof.
  intros Hpc Hf. unfold wstep. rewrite Hpc, Hf. simpl.
  unfold getline. simpl.
  destruct (read_line b) as [[l r] e] eqn:Eb.
  assert (Hs : (if e then (at_end (mk_istream b false false false false)
                             (is_empty l), l)
                else (mk_istream r false false false false, l))
               = (mk_istream r e (e && is_empty l) false false, l)).
  { destruct (read_line_split _ _ _ _ Eb) as [(-> & -> & _)|(-> & _)]; done. }
  rewrite Hs.
  unfold add_line, descriptors.
  destruct (is_empty l) eqn:El.
  { eexists _, l, r, e. rewrite El. by repeat split. }
  destruct (parse_line _ l) as [[t sRGB] sD] eqn:Ep.
  eexists _, l, r, e. rewrite El, Ep. by repeat split.
Qed.

(** From the head of the reading loop on an open file: one step per line,
    and one that leaves the loop. *)
Lemma load_loop W a s ls : forall b st,
  split_lines b = ls ->
  w_pc st = PLoad -> fAssociation st = mk_istream b false false false false ->
  exists st',
    wsteps W a s (S (length ls)) st = ([], st')
    /\ w_pc st' = PCheck
    /\ descriptors st' = load_lines W s ls (descriptors st)
    /\ w_polls st' = w_polls st.
Proof.
  induction ls as [|l0 ls IH]; intros b st Hls Hpc Hf.
  { by apply split_lines_not_nil in Hls. }
  destruct (wstep_load W a s st b Hpc Hf)
    as (st1 & l & r & e & Hr & Hstep & Hpc1 & Hf1 & Hd1 & _ & Hp1).
  assert (Hh : halted st = false) by (unfold halted; by rewrite Hpc).
  rewrite (wsteps_S _ _ _ _ _ _ _ Hh Hstep).
  destruct (read_line_split _ _ _ _ Hr) as [(-> & -> & Hs)|(-> & Hs)];
    rewrite Hs in Hls; inversion Hls; subst.
  - exists (at_pc PCheck st1). simpl.
    assert (Hh1 : halted st1 = false) by (unfold halted; by rewrite Hpc1).
    rewrite Hh1. unfold wstep. rewrite Hpc1, Hf1. simpl.
    repeat split; try done.
  - destruct (IH r st1 eq_refl Hpc1 Hf1) as (st' & Hrun & Hpc' & Hd' & Hp').
    exists st'. cbn [length]. rewrite Hrun. simpl. repeat split; try done.
    + by rewrite Hd', Hd1.
    + by rewrite Hp'.
Qed.

(** [ProcessImages] on a manifest that is read to its end reaches the checks
    with one descriptor for every line that is not empty, having done
    nothing but open the file. *)
Lemma loaded W a s b :
  files W a = Some b ->
  exists st',
    wsteps W a s (S (S (length (split_lines b)))) ProcessImages_entry
      = ([EOpen a], st')
    /\ w_pc st' = PCheck
    /\ descriptors st' = load_lines W s (split_lines b) ([], [], [])
    /\ w_polls st' = 0.
Proof.
  intros Hb.
  set (st0 := mk_wstate PLoad (mk_istream b false false false false)
                [] [] [] 0 0).
  destruct (load_loop W a s (split_lines b) b st0 eq_refl eq_refl eq_refl)
    as (st' & Hrun & Hpc & Hd & Hp).
  exists st'. split; [| done].
  rewrite (wsteps_S W a s _ ProcessImages_entry [EOpen a] st0);
    [by rewrite Hrun | done |].
  unfold wstep, ifstream_open. simpl. by rewrite Hb.
Qed.

Lemma load_lines_length W s ls : forall v,
  let v' := load_lines W s ls v in
  length v'.1.1 = length v.1.1 + length (filter (fun l => is_empty l = false) ls)
  /\ length v'.1.2 = length v.1.2 + length (filter (fun l => is_empty l = false) ls)
  /\ length v'.2 = length v.2 + length (filter (fun l => is_empty l = false) ls).
Proof.
  induction ls as [|l ls IH]; intros v; simpl.
  { rewrite !Nat.add_0_r. done. }
  specialize (IH (add_line W s v l)). simpl in IH.
  unfold load_lines in IH. destruct IH as (H1 & H2 & H3).
  unfold load_lines. rewrite H1, H2, H3. clear H1 H2 H3.
  unfold add_line. destruct v as [[vRGB vD] vT].
  destruct (is_empty l) eqn:El.
  - rewrite filter_cons_False by (rewrite El; done). done.
  - rewrite filter_cons_True by done.
    destruct (parse_line _ l) as [[t sRGB] sD]. simpl.
    rewrite !length_app. simpl. lia.
Qed.

(** ** The frame loop *)

Lemma wsteps_add W a s n1 : forall n2 st e1 st1 e2 st2,
  wsteps W a s n1 st = (e1, st1) -> wsteps W a s n2 st1 = (e2, st2) ->
  wsteps W a s (n1 + n2) st = (e1 ++ e2, st2).
Proof.
  induction n1 as [|n1 IH]; intros n2 st e1 st1 e2 st2 H1 H2.
  { simpl in H1. inversion H1; subst. done. }
  destruct (halted st) eqn:Hh.
  { rewrite wsteps_halted in H1 by done. inversion H1; subst.
    rewrite wsteps_halted in H2 by done. inversion H2; subst.
    by rewrite wsteps_halted. }
  destruct (wstep W a s st) as [ev st'] eqn:Es.
  rewrite (wsteps_S _ _ _ _ _ _ _ Hh Es) in H1.
  change (S n1 + n2) with (S (n1 + n2)).
  rewrite (wsteps_S _ _ _ _ _ _ _ Hh Es).
  destruct (wsteps W a s n1 st') as [e1' st1'] eqn:E1. simpl in H1.
  inversion H1; subst.
  rewrite (IH _ _ _ _ _ _ E1 H2). simpl. by rewrite app_assoc.
Qed.

Lemma at_index_nat {A} (v : list A) (i : nat) : at_index v (Z.of_nat i) = v !! i.
Proof.
  unfold at_index. destruct (Z.leb_spec 0 (Z.of_nat i)); [| lia].
  by rewrite Nat2Z.id.
Qed.

(** One turn of the frame loop on a frame whose colour image decodes. *)
Lemma wstep_frame W a s st i r d t :
  w_pc st = PFrame (Z.of_nat i) -> (Z.of_nat i < nImages st)%Z ->
  vstrImageFilenamesRGB st !! i = Some r ->
  vstrImageFilenamesD st !! i = Some d ->
  vTimestamps st !! i = Some t ->
  Mat_empty (imread W r) = false ->
  wstep W a s st =
    (frame_events W (w_polls st) r d t,
     mk_wstate
       (if is_abort (waitKey W (w_polls st)) then PReturn
        else PFrame (Z.of_nat (S i)))
       (fAssociation st) (vstrImageFilenamesRGB st) (vstrImageFilenamesD st)
       (vTimestamps st) (nImages st) (S (w_polls st))).
Proof.
  intros Hpc Hlt Hr Hd Ht Hm. unfold wstep. rewrite Hpc.
  destruct (Z.ltb_spec (Z.of_nat i) (nImages st)); [| lia].
  rewrite !at_index_nat, Hr, Hd, Ht, Hm.
  unfold frame_events, is_abort.
  replace (Z.of_nat (S i)) with (Z.of_nat i + 1)%Z by lia. done.
Qed.

(** When every colour image decodes and the abort key is never seen, the
    loop ingests the remaining descriptors one after the other and
    returns. *)
Lemma frame_loop_all W a s k : forall i st,
  w_pc st = PFrame (Z.of_nat i) ->
  nImages st = Z.of_nat (length (vstrImageFilenamesRGB st)) ->
  length (vstrImageFilenamesRGB st) = length (vstrImageFilenamesD st) ->
  length (vstrImageFilenamesD st) = length (vTimestamps st) ->
  i + k = length (vstrImageFilenamesRGB st) ->
  (forall p, p ∈ vstrImageFilenamesRGB st -> Mat_empty (imread W p) = false) ->
  (forall j, is_abort (waitKey W j) = false) ->
  exists st',
    wsteps W a s (S k) st =
      (ingest_all W (w_polls st) (drop i (vstrImageFilenamesRGB st))
         (drop i (vstrImageFilenamesD st)) (drop i (vTimestamps st)), st')
    /\ returned st' = true.
Proof.
  induction k as [|k IH]; intros i st Hpc Hn HRD HDT Hik Hdec Hkey.
  - exists (at_pc PReturn st).
    assert (Hh : halted st = false) by (unfold halted; by rewrite Hpc).
    rewrite (wsteps_S W a s 0 st [] (at_pc PReturn st) Hh).
    + rewrite drop_ge by lia. simpl. done.
    + unfold wstep. rewrite Hpc.
      destruct (Z.ltb_spec (Z.of_nat i) (nImages st)); [lia | done].
  - destruct (lookup_lt_is_Some_2 (vstrImageFilenamesRGB st) i) as [r Hr]; [lia |].
    destruct (lookup_lt_is_Some_2 (vstrImageFilenamesD st) i) as [d Hd]; [lia |].
    destruct (lookup_lt_is_Some_2 (vTimestamps st) i) as [t Ht]; [lia |].
    assert (Hh : halted st = false) by (unfold halted; by rewrite Hpc).
    assert (Hm : Mat_empty (imread W r) = false).
    { apply Hdec. by eapply list_elem_of_lookup_2. }
    pose proof (wstep_frame W a s st i r d t Hpc ltac:(lia) Hr Hd Ht Hm) as Hs.
    rewrite Hkey in Hs.
    rewrite (wsteps_S _ _ _ _ _ _ _ Hh Hs).
    match type of Hs with _ = (_, ?x) => set (st1 := x) in * end.
    destruct (IH (S i) st1) as (st' & Hrun & Hret); try done.
    { simpl. lia. }
    exists st'. rewrite Hrun. simpl.
    rewrite (drop_S _ _ _ Hr), (drop_S _ _ _ Hd), (drop_S _ _ _ Ht).
    simpl. done.
Qed.

Lemma ingest_all_calls W p rs : forall ds ts,
  List.filter is_track (ingest_all W p rs ds ts) = expected_calls W rs ds ts.
Proof.
  revert p. induction rs as [|r rs IH]; intros p ds ts; [done |].
  destruct ds as [|d ds]; [done |]. destruct ts as [|t ts]; [done |].
  simpl. by rewrite IH.
Qed.

Lemma ingest_all_count W p rs : forall ds ts,
  length rs = length ds -> length ds = length ts ->
  length (List.filter is_call (ingest_all W p rs ds ts)) = length rs.
Proof.
  revert p. induction rs as [|r rs IH]; intros p ds ts H1 H2; [done |].
  destruct ds as [|d ds]; [done |]. destruct ts as [|t ts]; [done |].
  simpl in *. rewrite IH; lia.
Qed.

(** Whatever the images and the keys, the frame loop comes to its end. *)
Lemma frame_loop_returns W a s m : forall st ni,
  vectors_ok st -> w_pc st = PFrame ni ->
  (nImages st - ni <= Z.of_nat m)%Z ->
  exists n evs st', wsteps W a s n st = (evs, st') /\ returned st' = true.
Proof.
  induction m as [|m IH]; intros st ni Hok Hpc Hm.
  - exists 1, [], (at_pc PReturn st).
    assert (Hh : halted st = false) by (unfold halted; by rewrite Hpc).
    rewrite (wsteps_S W a s 0 st [] (at_pc PReturn st) Hh); [done |].
    unfold wstep. rewrite Hpc.
    destruct (Z.ltb_spec ni (nImages st)); [lia | done].
  - assert (Hh : halted st = false) by (unfold halted; by rewrite Hpc).
    destruct (wstep W a s st) as [ev st1] eqn:Es.
    destruct (wstep_vectors_ok _ _ _ _ _ _ Hok Es) as [Hok1 _].
    assert (Hcases : returned st1 = true
              \/ (w_pc st1 = PFrame (ni + 1) /\ nImages st1 = nImages st)).
    { pose proof Hok1 as (_ & _ & Hpc1).
      unfold wstep in Es. rewrite Hpc in Es.
      destruct (ni <? nImages st)%Z; [| inversion Es; by left].
      destruct (at_index _ ni); [| inversion Es; subst; done].
      destruct (at_index _ ni); [| inversion Es; subst; done].
      destruct (at_index _ ni); [| inversion Es; subst; done].
      destruct (Mat_empty _); [inversion Es; by left |].
      inversion Es; subst. unfold returned. simpl.
      destruct (to_char _ =? 27)%Z; [by left | by right]. }
    destruct Hcases as [Hret|[Hpc1 Hn1]].
    + exists 1, ev, st1. rewrite (wsteps_S _ _ _ _ _ _ _ Hh Es). simpl.
      by rewrite app_nil_r.
    + destruct (IH st1 (ni + 1)%Z Hok1 Hpc1) as (n & evs & st' & Hrun & Hret);
        [lia |].
      exists (S n), (ev ++ evs), st'.
      rewrite (wsteps_S _ _ _ _ _ _ _ Hh Es), Hrun. done.
Qed.

(** [ProcessImages] returns when the manifest is read to its end. *)
Lemma ProcessImages_returns W a s b :
  files W a = Some b -> exists fuel evs, ProcessImages W fuel a s = Some evs.
Proof.
  intros Hb. destruct (loaded W a s b Hb) as (st1 & Hrun1 & Hpc1 & _ & _).
  destruct (wsteps_vectors_ok _ _ _ _ _ _ _ vectors_ok_entry Hrun1) as [Hok1 _].
  assert (Hh1 : halted st1 = false) by (unfold halted; by rewrite Hpc1).
  destruct (wstep W a s st1) as [ev st2] eqn:Es.
  destruct (wstep_vectors_ok _ _ _ _ _ _ Hok1 Es) as [Hok2 _].
  assert (Hstep1 : wsteps W a s 1 st1 = (ev, st2)).
  { rewrite (wsteps_S _ _ _ _ _ _ _ Hh1 Es). simpl. by rewrite app_nil_r. }
  assert (Hcases : returned st2 = true \/ w_pc st2 = PFrame 0).
  { unfold wstep in Es. rewrite Hpc1 in Es.
    destruct (vstrImageFilenamesRGB st1); [inversion Es; by left |].
    destruct (negb _); inversion Es; [by left | by right]. }
  assert (exists n evs st', wsteps W a s n st2 = (evs, st') /\ returned st' = true)
    as (n & evs & st' & Hrun & Hret).
  { destruct Hcases as [Hret|Hpc2].
    - exists 0, [], st2. done.
    - eapply (frame_loop_returns W a s (Z.to_nat (nImages st2))); [done | apply Hpc2 | lia]. }
  pose proof (wsteps_add _ _ _ _ _ _ _ _ _ _ Hrun1
                (wsteps_add _ _ _ _ _ _ _ _ _ _ Hstep1 Hrun)) as Hall.
  eexists _, _. unfold ProcessImages. rewrite Hall. by rewrite Hret.
Qed.

Lemma wstep_stuck W a s st :
  stuck_reading st ->
  exists st', wstep W a s st = ([], st') /\ stuck_reading st'.
Proof.
  intros (Hpc & (He & Hb & Hg) & Hd). unfold wstep, eof. rewrite Hpc, He.
  unfold getline. destruct (good (fAssociation st)) eqn:Eg.
  - destruct Hg as [Hg|Hio]; [done |].
    rewrite Hb. simpl. unfold at_end. rewrite Hio. simpl.
    eexists. split; [reflexivity |]. repeat split; simpl; auto.
  - simpl. eexists. split; [reflexivity |].
    repeat split; simpl; auto. left. unfold good. simpl.
    by rewrite andb_false_r.
Qed.

Lemma wsteps_stuck W a s n : forall st,
  stuck_reading st ->
  exists st', wsteps W a s n st = ([], st') /\ stuck_reading st'.
Proof.
  induction n as [|n IH]; intros st Hst; [by exists st |].
  destruct (wstep_stuck W a s st Hst) as (st1 & Hs & Hst1).
  destruct (IH st1 Hst1) as (st2 & Hrun & Hst2).
  exists st2. split; [| done].
  rewrite (wsteps_S W a s n st [] st1); [by rewrite Hrun | | done].
  destruct Hst as [Hpc _]. unfold halted. by rewrite Hpc.
Qed.

Lemma wsteps_unopened W a s n evs st :
  files W a = None ->
  wsteps W a s n ProcessImages_entry = (evs, st) ->
  (evs = [] /\ st = ProcessImages_entry)
  \/ (evs = [EOpen a] /\ stuck_reading st).
Proof.
  intros Hf Hrun. destruct n as [|n].
  { simpl in Hrun. inversion Hrun. by left. }
  right.
  set (st1 := mk_wstate PLoad
                (ifstream_open (files W) (directory W) a) [] [] [] 0 0).
  assert (Hst : stuck_reading st1).
  { unfold stuck_reading, st1, ifstream_open. rewrite Hf. simpl.
    destruct (directory W a); simpl; auto 10. }
  rewrite (wsteps_S W a s n ProcessImages_entry [EOpen a] st1) in Hrun
    by done.
  destruct (wsteps_stuck W a s n st1 Hst) as (st2 & Hrun2 & Hst2).
  rewrite Hrun2 in Hrun. simpl in Hrun. inversion Hrun; subst. done.
Qed.

(** [ProcessImages] does not return when the manifest cannot be opened,
    nor when it is a directory. *)
Lemma ProcessImages_diverges W a s fuel :
  files W a = None -> ProcessImages W fuel a s = None.
Proof.
  intros Hf. unfold ProcessImages.
  destruct (wsteps W a s fuel ProcessImages_entry) as [evs st] eqn:E.
  destruct (wsteps_unopened _ _ _ _ _ _ Hf E) as [[_ ->]|[_ (Hpc & _)]]; [done |].
  unfold returned. by rewrite Hpc.
Qed.

(** ** Runs of the two threads *)

Implicit Types (s : sys) (tr : list (tid * event)).

Lemma events_of_app t tr1 tr2 :
  events_of t (tr1 ++ tr2) = events_of t tr1 ++ events_of t tr2.
Proof. unfold events_of. by rewrite List.filter_app, List.map_app. Qed.

Lemma events_of_snoc_same t tr e :
  events_of t (tr ++ [(t, e)]) = events_of t tr ++ [e].
Proof. rewrite events_of_app. unfold events_of. simpl. by destruct t. Qed.

Lemma events_of_snoc_other t t' tr e :
  t <> t' -> events_of t (tr ++ [(t', e)]) = events_of t tr.
Proof.
  intros Hne. rewrite events_of_app. unfold events_of. simpl.
  destruct t, t'; simpl; try done; by rewrite app_nil_r.
Qed.

Lemma elem_of_events_of t tr e : e ∈ events_of t tr <-> (t, e) ∈ tr.
Proof.
  unfold events_of. rewrite list_elem_of_In, List.in_map_iff. split.
  - intros ([t' e'] & <- & Hin). apply List.filter_In in Hin as [Hin Ht].
    simpl in *. apply list_elem_of_In. by destruct t', t.
  - intros Hin. exists (t, e). split; [done |]. apply List.filter_In.
    split; [by apply list_elem_of_In |]. by destruct t.
Qed.

(** A list ending in [x] split around an element [y]. *)
Lemma snoc_split {A} (l : list A) x t1 y t2 :
  l ++ [x] = t1 ++ y :: t2 ->
  (t2 = [] /\ y = x /\ t1 = l)
  \/ (exists t2', t2 = t2' ++ [x] /\ l = t1 ++ y :: t2').
Proof.
  intros H. destruct (decide (t2 = [])) as [->|Hne].
  - left. apply app_inj_tail in H as [-> ->]. done.
  - right. destruct (exists_last Hne) as (t2' & z & ->).
    change (y :: t2' ++ [z]) with ((y :: t2') ++ [z]) in H.
    rewrite app_assoc in H. apply app_inj_tail in H as [-> ->].
    by exists t2'.
Qed.

(** What a step of the main thread does. *)
Lemma main_step_inv s s' :
  main_step s = Some s' ->
  exists e rest,
    main_rest s = e :: rest /\ main_rest s' = rest
    /\ trace s' = trace s ++ [(Main, e)]
    /\ ((exists a q, e = ESpawn a q /\ processingThread s = NotStarted
                     /\ processingThread s' = Started a q [] ProcessImages_entry)
        \/ (e = EJoin /\ processingThread s' = processingThread s
            /\ exists a q st, processingThread s = Started a q [] st
                              /\ returned st = true)
        \/ ((forall a q, e <> ESpawn a q) /\ e <> EJoin
            /\ processingThread s' = processingThread s)).
Proof.
  unfold main_step. intros H.
  destruct (main_rest s) as [|e rest] eqn:Em; [done |].
  exists e, rest. split; [done |].
  destruct e;
    try (inversion H; subst; simpl; repeat split; try done;
         right; right; by repeat split).
  - destruct (processingThread s) eqn:Et; [| done].
    inversion H; subst; simpl. repeat split; try done. left. eauto.
  - destruct (processingThread s) as [|a q [|? ?] st] eqn:Et; try done.
    destruct (returned st) eqn:Er; [| done].
    inversion H; subst; simpl. repeat split; try done. right. left. eauto 10.
Qed.

(** What a step of the worker thread does. *)
Lemma worker_step_inv W s s' :
  worker_step W s = Some s' ->
  main_rest s' = main_rest s
  /\ ((exists a q e p st,
         processingThread s = Started a q (e :: p) st
         /\ processingThread s' = Started a q p st
         /\ trace s' = trace s ++ [(Worker, e)])
      \/ (exists a q st ev st',
            processingThread s = Started a q [] st
            /\ halted st = false /\ wstep W a q st = (ev, st')
            /\ processingThread s' = Started a q ev st'
            /\ trace s' = trace s)).
Proof.
  unfold worker_step. intros H.
  destruct (processingThread s) as [|a q [|e p] st] eqn:Et; [done | |].
  - destruct (halted st) eqn:Hh; [done |].
    destruct (wstep W a q st) as [ev st'] eqn:Es.
    inversion H; subst; simpl. split; [done |]. right. eauto 10.
  - inversion H; subst; simpl. split; [done |]. left. eauto 10.
Qed.

Lemma returned_halted st : returned st = true -> halted st = true.
Proof. unfold returned, halted. by destruct (w_pc st). Qed.

Lemma sys_inv_init W argc argv : sys_inv W argc argv (sys_init argc argv).
Proof.
  unfold sys_inv, sys_init. simpl. repeat split; try done.
  - intros a q H. by apply elem_of_nil in H.
  - intros H. by apply elem_of_nil in H.
  - intros t1 e t2 H. by destruct t1.
  - intros t1 t2 e H. by destruct t1.
Qed.

Lemma sys_inv_main_step W argc argv s s' :
  sys_inv W argc argv s -> main_step s = Some s' -> sys_inv W argc argv s'.
Proof.
  intros (I1 & I2 & I3 & I4 & I5) Hstep.
  destruct (main_step_inv _ _ Hstep) as (e & rest & Hm & Hm' & Htr & Hcases).
  unfold sys_inv. rewrite Hm', Htr, events_of_snoc_same.
  rewrite events_of_snoc_other by done.
  rewrite Hm in I1.
  split; [by rewrite <- app_assoc |].
  split; [| split; [| split]].
  - destruct Hcases as [(a & q & -> & Ht & Ht')|[(-> & Ht' & _)|(Hplain & _ & Ht')]];
      rewrite Ht'.
    + rewrite Ht in I2. destruct I2 as [I2 _]. split.
      * apply elem_of_app. right. by apply list_elem_of_singleton.
      * exists 0. simpl. by rewrite I2.
    + destruct (processingThread s).
      * destruct I2 as [I2 Hns]. split; [done |]. intros a q Hin.
        apply elem_of_app in Hin as [Hin|Hin]; [by eapply Hns |].
        by apply list_elem_of_singleton in Hin.
      * destruct I2 as [Hs Hn]. split; [| done]. apply elem_of_app. by left.
    + destruct (processingThread s).
      * destruct I2 as [I2 Hns]. split; [done |]. intros a q Hin.
        apply elem_of_app in Hin as [Hin|Hin]; [by eapply Hns |].
        apply list_elem_of_singleton in Hin. by eapply Hplain.
      * destruct I2 as [Hs Hn]. split; [| done]. apply elem_of_app. by left.
  - intros Hj. apply elem_of_app in Hj as [Hj|Hj].
    + destruct (I3 Hj) as (a & q & st & Ht & Hr).
      destruct Hcases as [(a' & q' & -> & Ht0 & Ht')|[(-> & Ht' & _)|(_ & _ & Ht')]].
      * by rewrite Ht in Ht0.
      * rewrite Ht'. eauto.
      * rewrite Ht'. eauto.
    + apply list_elem_of_singleton in Hj. subst e.
      destruct Hcases as [(a' & q' & He & _)|[(_ & Ht' & Hst)|(_ & He & _)]];
        try done.
      by rewrite Ht'.
  - intros t1 e' t2 Hsplit.
    apply snoc_split in Hsplit as [(_ & He & _)|(t2' & -> & Hsplit)]; [done |].
    eauto.
  - intros t1 t2 e' Hsplit Hin.
    apply snoc_split in Hsplit as [(-> & _ & _)|(t2' & -> & Hsplit)].
    { by apply elem_of_nil in Hin. }
    apply elem_of_app in Hin as [Hin|Hin]; [by eapply I5 |].
    by apply list_elem_of_singleton in Hin.
Qed.

Lemma sys_inv_worker_step W argc argv s s' :
  sys_inv W argc argv s -> worker_step W s = Some s' -> sys_inv W argc argv s'.
Proof.
  intros (I1 & I2 & I3 & I4 & I5) Hstep.
  destruct (worker_step_inv _ _ _ Hstep) as (Hm & Hcases).
  assert (Hnojoin : EJoin ∉ events_of Main (trace s)).
  { intros Hj. destruct (I3 Hj) as (a & q & st & Ht & Hr).
    apply returned_halted in Hr.
    destruct Hcases as [(? & ? & ? & ? & ? & Ht' & _)
                       |(? & ? & ? & ? & ? & Ht' & Hh & _)];
      rewrite Ht in Ht'; inversion Ht'; subst; congruence. }
  unfold sys_inv. rewrite Hm.
  destruct Hcases as [(a & q & e & p & st & Ht & Ht' & Htr)
                     |(a & q & st & ev & st' & Ht & Hh & Hs & Ht' & Htr)];
    rewrite Ht', Htr; rewrite Ht in I2; destruct I2 as [Hsp [n Hn]].
  - rewrite events_of_snoc_same, events_of_snoc_other by done.
    split; [done |]. split; [| split; [| split]].
    + split; [done |]. exists n. by rewrite <- app_assoc.
    + intros Hj. by destruct Hnojoin.
    + intros t1 e' t2 Hsplit.
      apply snoc_split in Hsplit as [(_ & _ & ->)|(t2' & -> & Hsplit)]; [| eauto].
      exists a, q. by apply elem_of_events_of.
    + intros t1 t2 e' Hsplit Hin.
      apply snoc_split in Hsplit as [(-> & _ & _)|(t2' & -> & Hsplit)].
      { by apply elem_of_nil in Hin. }
      destruct Hnojoin. apply elem_of_events_of. rewrite Hsplit.
      apply elem_of_app. right. by left.
  - split; [done |]. split; [| split; [| split]]; try done.
    + split; [done |]. exists (n + 1).
      rewrite app_nil_r in Hn.
      eapply wsteps_add; [done |].
      rewrite (wsteps_S _ _ _ _ _ _ _ Hh Hs). simpl. by rewrite app_nil_r.
Qed.

Lemma reachable_inv W argc argv s :
  reachable W argc argv s -> sys_inv W argc argv s.
Proof.
  unfold reachable. revert s.
  apply (rtc_ind_r (sys_inv W argc argv)); [apply sys_inv_init |].
  intros y z _ [Hs|Hs] IH;
    [by eapply sys_inv_main_step | by eapply sys_inv_worker_step].
Qed.

(** ** Consequences for the worker *)

Lemma wsteps_worker_events W a q n : forall st evs st',
  wsteps W a q n st = (evs, st') -> Forall (fun e => is_worker_event e = true) evs.
Proof.
  induction n as [|n IH]; intros st evs st' Hrun.
  { simpl in Hrun. inversion Hrun. constructor. }
  destruct (halted st) eqn:Hh.
  { rewrite wsteps_halted in Hrun by done. inversion Hrun. constructor. }
  destruct (wstep W a q st) as [ev st1] eqn:Es.
  rewrite (wsteps_S _ _ _ _ _ _ _ Hh Es) in Hrun.
  destruct (wsteps W a q n st1) as [evs2 st2] eqn:E2. simpl in Hrun.
  inversion Hrun; subst. apply Forall_app. split; [| by eapply IH].
  destruct (wstep_events _ _ _ _ _ _ Es)
    as [->|[->|[[m ->]|[(r & d & m & ->)|(r & d & i1 & i2 & t & key & -> & _)]]]];
    repeat constructor.
Qed.

(** Once [ProcessImages] has halted after events [E], every number of
    steps gives a prefix of [E]. *)
Lemma wsteps_prefix W a q N E stN n evs st :
  wsteps W a q N ProcessImages_entry = (E, stN) -> halted stN = true ->
  wsteps W a q n ProcessImages_entry = (evs, st) ->
  exists rest, E = evs ++ rest.
Proof.
  intros HN Hh Hn. destruct (decide (n <= N)) as [Hle|Hgt].
  - destruct (wsteps W a q (N - n) st) as [e2 st2] eqn:E2.
    pose proof (wsteps_add _ _ _ _ _ _ _ _ _ _ Hn E2) as Hadd.
    replace (n + (N - n)) with N in Hadd by lia.
    rewrite HN in Hadd. inversion Hadd. eauto.
  - pose proof (wsteps_halted W a q (n - N) stN Hh) as E2.
    pose proof (wsteps_add _ _ _ _ _ _ _ _ _ _ HN E2) as Hadd.
    replace (N + (n - N)) with n in Hadd by lia.
    rewrite Hn in Hadd. inversion Hadd. exists []. by rewrite !app_nil_r.
Qed.

(** ** Consequences for the main thread *)

(** The statements [main] has run are the first ones of [main]. *)
Lemma main_done_cases argv l1 l2 :
  l1 ++ l2 = main 5 argv -> exists k, k <= 9 /\ l1 = take k (main 5 argv).
Proof.
  intros H. exists (length l1). split.
  - apply (f_equal length) in H. rewrite length_app in H. simpl in H. lia.
  - rewrite <- H. by rewrite take_app_length.
Qed.

Ltac split_upto k n :=
  match n with
  | O => idtac
  | S ?m => destruct k as [|k]; [| split_upto k m]
  end.

Ltac main_cases H :=
  let k := fresh "k" in
  let Hk := fresh "Hk" in
  apply main_done_cases in H as (k & Hk & ->);
  split_upto k 10; [.. | lia]; clear Hk.

Lemma main_spawn_args argv l1 l2 a q :
  l1 ++ l2 = main 5 argv -> ESpawn a q ∈ l1 ->
  a = arg argv 4 /\ q = arg argv 3.
Proof.
  intros H Hin. main_cases H;
    simpl in Hin;
    repeat (apply elem_of_cons in Hin as [Hin|Hin];
            [try discriminate; by inversion Hin |]);
    by apply elem_of_nil in Hin.
Qed.

Lemma main_join_first argv l1 l2 e :
  l1 ++ l2 = main 5 argv -> e ∈ l1 ->
  is_shutdown e || is_save_trajectory e || is_save_keyframes e
    || match e with EReturn _ => true | _ => false end = true ->
  EJoin ∈ l1.
Proof.
  intros H Hin He. main_cases H;
    simpl in Hin;
    try (repeat (apply elem_of_cons in Hin as [Hin|Hin];
                 [subst e; simpl in He; try discriminate |]);
         try (by apply elem_of_nil in Hin));
    do 4 apply list_elem_of_further; apply list_elem_of_here.
Qed.

Lemma main_returns_zero argv l1 l2 code :
  l1 ++ l2 = main 5 argv -> EReturn code ∈ l1 -> code = 0%Z.
Proof.
  intros H Hin. main_cases H;
    simpl in Hin;
    repeat (apply elem_of_cons in Hin as [Hin|Hin];
            [try discriminate; by inversion Hin |]);
    by apply elem_of_nil in Hin.
Qed.

Lemma filter_prefix_length {A} (f : A -> bool) l1 l2 :
  length (List.filter f l1) <= length (List.filter f (l1 ++ l2)).
Proof. rewrite List.filter_app, length_app. lia. Qed.

Lemma occurrences_split kind tr :
  occurrences kind tr =
    length (List.filter kind (events_of Main tr))
    + length (List.filter kind (events_of Worker tr)).
Proof.
  unfold occurrences, events_of.
  induction tr as [|[t e] tr IH]; [done |].
  simpl. destruct t; simpl; destruct (kind e); simpl; lia.
Qed.

Lemma filter_worker_events kind evs :
  (forall e, kind e = true -> is_worker_event e = false) ->
  Forall (fun e => is_worker_event e = true) evs ->
  List.filter kind evs = [].
Proof.
  intros Hk Hall. induction Hall as [|e evs He _ IH]; [done |].
  simpl. destruct (kind e) eqn:Ek; [| done].
  apply Hk in Ek. congruence.
Qed.

Lemma inv_worker_events W argc argv s :
  sys_inv W argc argv s ->
  Forall (fun e => is_worker_event e = true) (events_of Worker (trace s)).
Proof.
  intros (_ & I2 & _). destruct (processingThread s) as [|a q p st].
  - destruct I2 as [-> _]. constructor.
  - destruct I2 as [_ [n Hn]]. apply wsteps_worker_events in Hn.
    by apply Forall_app in Hn as [Hn _].
Qed.

(** The events of a kind that only [main] produces are counted in
    [main]. *)
Lemma occurrences_main W argv s kind :
  (forall e, kind e = true -> is_worker_event e = false) ->
  length (List.filter kind (main 5 argv)) = 1 ->
  sys_inv W 5 argv s ->
  occurrences kind (trace s) <= 1
  /\ (main_rest s = [] -> occurrences kind (trace s) = 1).
Proof.
  intros Hk Hone Hinv. pose proof (inv_worker_events _ _ _ _ Hinv) as Hw.
  destruct Hinv as (I1 & _).
  rewrite occurrences_split, (filter_worker_events kind _ Hk Hw). simpl.
  rewrite Nat.add_0_r. split.
  - rewrite <- Hone, <- I1. apply filter_prefix_length.
  - intros Hr. rewrite Hr, app_nil_r in I1. by rewrite I1.
Qed.

(** ** Runs that come to their end *)

Lemma emit_pending W m a q st p : forall tr,
  rtc (step W) (mk_sys m (Started a q p st) tr)
    (mk_sys m (Started a q [] st) (tr ++ List.map (pair Worker) p)).
Proof.
  induction p as [|e p IH]; intros tr; simpl.
  { rewrite app_nil_r. apply rtc_refl. }
  eapply rtc_l; [right; reflexivity |]. simpl.
  replace (tr ++ (Worker, e) :: List.map (pair Worker) p)
    with ((tr ++ [(Worker, e)]) ++ List.map (pair Worker) p)
    by (by rewrite <- app_assoc).
  apply IH.
Qed.

Lemma worker_runs W m a q n : forall st evs st' tr,
  wsteps W a q n st = (evs, st') ->
  rtc (step W) (mk_sys m (Started a q [] st) tr)
    (mk_sys m (Started a q [] st') (tr ++ List.map (pair Worker) evs)).
Proof.
  induction n as [|n IH]; intros st evs st' tr Hrun.
  { simpl in Hrun. inversion Hrun; subst. simpl. rewrite app_nil_r. apply rtc_refl. }
  destruct (halted st) eqn:Hh.
  { rewrite wsteps_halted in Hrun by done. inversion Hrun; subst.
    simpl. rewrite app_nil_r. apply rtc_refl. }
  destruct (wstep W a q st) as [ev st1] eqn:Es.
  rewrite (wsteps_S _ _ _ _ _ _ _ Hh Es) in Hrun.
  destruct (wsteps W a q n st1) as [evs2 st2] eqn:E2. simpl in Hrun.
  inversion Hrun; subst.
  eapply rtc_l.
  { right. unfold worker_step. simpl. rewrite Hh, Es. reflexivity. }
  etrans; [apply emit_pending |].
  rewrite List.map_app, app_assoc. by apply IH.
Qed.

(** When [ProcessImages] returns, the program can run to its end. *)
Lemma run_completes W argv fuel evs :
  ProcessImages W fuel (arg argv 4) (arg argv 3) = Some evs ->
  exists s, reachable W 5 argv s /\ exited s 0 /\ trace s = full_trace argv evs.
Proof.
  unfold ProcessImages. intros Hp.
  destruct (wsteps W (arg argv 4) (arg argv 3) fuel ProcessImages_entry)
    as [evs' st'] eqn:Hrun.
  destruct (returned st') eqn:Hret; [| done]. inversion Hp; subst evs'.
  exists (mk_sys [] (Started (arg argv 4) (arg argv 3) [] st') (full_trace argv evs)).
  split; [| split; [split; [done |] | done]].
  - unfold reachable, sys_init. simpl.
    do 3 (eapply rtc_l; [left; reflexivity |]). simpl.
    etrans; [eapply worker_runs; exact Hrun |].
    eapply rtc_l; [left; reflexivity |].
    eapply rtc_l; [left; unfold main_step; simpl; rewrite Hret; reflexivity |].
    do 4 (eapply rtc_l; [left; reflexivity |]). simpl.
    unfold full_trace. rewrite <- !app_assoc. simpl. apply rtc_refl.
  - unfold full_trace. cbn [trace]. apply last_Some_elem_of.
    by rewrite !last_app.
Qed.

Lemma reachable_spawn_args W argv s a q p st :
  reachable W 5 argv s -> processingThread s = Started a q p st ->
  a = arg argv 4 /\ q = arg argv 3.
Proof.
  intros Hr Ht. apply reachable_inv in Hr as (I1 & I2 & _).
  rewrite Ht in I2. destruct I2 as [Hsp _].
  by eapply main_spawn_args.
Qed.

(** The worker events of a run are events of [ProcessImages] called with
    [argv[4]] and [argv[3]]. *)
Lemma reachable_worker_events W argv s e :
  reachable W 5 argv s -> (Worker, e) ∈ trace s ->
  exists n evs st, wsteps W (arg argv 4) (arg argv 3) n ProcessImages_entry
                     = (evs, st) /\ e ∈ evs.
Proof.
  intros Hr Hin. pose proof (reachable_inv _ _ _ _ Hr) as (I1 & I2 & _).
  apply elem_of_events_of in Hin.
  destruct (processingThread s) as [|a q p st] eqn:Ht.
  { destruct I2 as [I2 _]. rewrite I2 in Hin. by apply elem_of_nil in Hin. }
  destruct (reachable_spawn_args _ _ _ _ _ _ _ Hr Ht) as [-> ->].
  destruct I2 as [_ [n Hn]]. eexists n, _, st. split; [exact Hn |].
  apply elem_of_app. by left.
Qed.

(** ** The exit code *)

Lemma exit_code_of_run W argc argv s code :
  reachable W argc argv s -> (Main, EReturn code) ∈ trace s ->
  code = if (argc =? 5)%Z then 0%Z else 1%Z.
Proof.
  intros Hr Hin. apply reachable_inv in Hr as (I1 & _).
  apply elem_of_events_of in Hin.
  destruct (Z.eqb_spec argc 5) as [->|Hne].
  - by eapply main_returns_zero.
  - assert (Hin' : EReturn code ∈ main argc argv).
    { rewrite <- I1. apply elem_of_app. by left. }
    unfold main in Hin'. destruct (Z.eqb_spec argc 5); [done |]. simpl in Hin'.
    repeat (apply elem_of_cons in Hin' as [Hin'|Hin'];
            [try discriminate; by inversion Hin' |]).
    by apply elem_of_nil in Hin'.
Qed.

(** A wrong number of arguments: the usage line, exit code 1, and nothing
    else. *)
Lemma wrong_argc_run W argc argv :
  argc <> 5%Z ->
  exists s, reachable W argc argv s /\ exited s 1
            /\ trace s = [(Main, ECerr usage); (Main, EReturn 1)].
Proof.
  intros Hne.
  exists (mk_sys [] NotStarted [(Main, ECerr usage); (Main, EReturn 1)]).
  split; [| split; [split; [done |] | done]].
  - unfold reachable, sys_init, main.
    destruct (Z.eqb_spec argc 5); [done |]. simpl.
    do 2 (eapply rtc_l; [left; reflexivity |]). apply rtc_refl.
  - simpl. apply list_elem_of_further, list_elem_of_here.
Qed.

(** The worker of a run whose manifest cannot be opened, or is a
    directory, never returns, so the main thread never gets past [join]. *)
Lemma unopened_never_joined W argv s :
  files W (arg argv 4) = None -> reachable W 5 argv s ->
  (Main, EJoin) ∉ trace s.
Proof.
  intros Hf Hr Hin. pose proof (reachable_inv _ _ _ _ Hr) as (I1 & I2 & I3 & _).
  apply elem_of_events_of in Hin. destruct (I3 Hin) as (a & q & st & Ht & Hret).
  destruct (reachable_spawn_args _ _ _ _ _ _ _ Hr Ht) as [-> ->].
  rewrite Ht in I2. destruct I2 as [_ [n Hn]].
  destruct (wsteps_unopened _ _ _ _ _ _ Hf Hn) as [[_ ->]|[_ (Hpc & _)]]; [done |].
  unfold returned in Hret. by rewrite Hpc in Hret.
Qed.

(** ** Fields of a line *)

Lemma token_cons t : token t = true ->
  exists c t', t = String c t' /\ isspace c = false
               /\ all_chars (fun c => negb (isspace c)) t' = true.
Proof.
  unfold token. destruct t as [|c t']; [done |]. simpl.
  intros [Hc Ht]%andb_prop. exists c, t'. by destruct (isspace c).
Qed.

Lemma blanks_cons b : blanks b = true ->
  exists c b', b = String c b' /\ isspace c = true /\ all_chars isspace b' = true.
Proof.
  unfold blanks. destruct b as [|c b']; [done |]. simpl.
  intros [Hc Hb]%andb_prop. by exists c, b'.
Qed.

Lemma skipws_spaces b r : all_chars isspace b = true -> skipws (b +:+ r) = skipws r.
Proof.
  induction b as [|c b IH]; [done |]. simpl.
  intros [Hc Hb]%andb_prop. rewrite Hc. by apply IH.
Qed.

Lemma skipws_token t r : token t = true -> skipws (t +:+ r) = t +:+ r.
Proof.
  intros (c & t' & -> & Hc & _)%token_cons. simpl. by rewrite Hc.
Qed.

Lemma read_word_chars t : forall r,
  all_chars (fun c => negb (isspace c)) t = true ->
  read_word r = ("", r) ->
  read_word (t +:+ r) = (t, r).
Proof.
  induction t as [|c t IH]; intros r Ht Hr; [done |]. simpl in *.
  apply andb_prop in Ht as [Hc Ht]. destruct (isspace c); [done |].
  by rewrite (IH r Ht Hr).
Qed.

Lemma read_word_blanks b r : blanks b = true -> read_word (b +:+ r) = ("", b +:+ r).
Proof.
  intros (c & b' & -> & Hc & _)%blanks_cons. simpl. by rewrite Hc.
Qed.

Lemma token_not_empty t r : token t = true -> is_empty (t +:+ r) = false.
Proof. by intros (c & t' & -> & _)%token_cons. Qed.

Lemma blanks_not_empty b r : blanks b = true -> is_empty (b +:+ r) = false.
Proof. by intros (c & b' & -> & _)%blanks_cons. Qed.

Lemma append_empty_r (x : string) : x +:+ "" = x.
Proof.
  induction x as [|c x IH]; [done |].
  change (String c (x +:+ "") = String c x). by f_equal.
Qed.

(** The sentry in front of a field, after any white space. *)
Lemma sentry_field b t r :
  all_chars isspace b = true -> token t = true ->
  sentry (mk_istream (b +:+ t +:+ r) false false false false) =
    (mk_istream (t +:+ r) false false false false, true).
Proof.
  intros Hb Ht. unfold sentry, good. simpl.
  rewrite (skipws_spaces _ _ Hb), (skipws_token _ _ Ht).
  apply token_cons in Ht as (c & t' & -> & _). done.
Qed.

Lemma sentry_token t r :
  token t = true ->
  sentry (mk_istream (t +:+ r) false false false false) =
    (mk_istream (t +:+ r) false false false false, true).
Proof. intros Ht. by apply (sentry_field "" t r). Qed.

(** After an extraction that stops at white space more is left to read. *)
Lemma after_read_blanks x b r fl :
  blanks b = true ->
  after_read (mk_istream x false false false false) (b +:+ r) fl
    = mk_istream (b +:+ r) false fl false false.
Proof.
  intros Hb. unfold after_read. by rewrite (blanks_not_empty _ _ Hb).
Qed.

Lemma blanks_spaces b : blanks b = true -> all_chars isspace b = true.
Proof. unfold blanks. by intros [_ H]%andb_prop. Qed.

Lemma token_chars t :
  token t = true -> all_chars (fun c => negb (isspace c)) t = true.
Proof. unfold token. by intros [_ H]%andb_prop. Qed.

(** A line of four fields: the variable [t] ends with the value of the
    third field. *)
Lemma parse_line_four t0 tok1 b1 c b2 tok2 b3 d v1 v2 :
  token tok1 = true -> blanks b1 = true -> token c = true ->
  blanks b2 = true -> token tok2 = true -> blanks b3 = true ->
  token d = true ->
  num_get (tok1 +:+ b1 +:+ c +:+ b2 +:+ tok2 +:+ b3 +:+ d)
    = (Some v1, b1 +:+ c +:+ b2 +:+ tok2 +:+ b3 +:+ d) ->
  num_get (tok2 +:+ b3 +:+ d) = (Some v2, b3 +:+ d) ->
  parse_line t0 (tok1 +:+ b1 +:+ c +:+ b2 +:+ tok2 +:+ b3 +:+ d) = (v2, c, d).
Proof.
  intros H1 Hb1 Hc Hb2 H2 Hb3 Hd Hn1 Hn2. unfold parse_line.
  unfold extract_double at 1.
  rewrite (sentry_token tok1 _ H1). cbn [rdbuf].
  rewrite Hn1, (after_read_blanks _ _ _ _ Hb1).
  unfold extract_string at 1.
  rewrite (sentry_field b1 c _ (blanks_spaces _ Hb1) Hc). cbn [rdbuf].
  rewrite (read_word_chars c _ (token_chars _ Hc) (read_word_blanks _ _ Hb2)).
  rewrite (after_read_blanks _ _ _ _ Hb2).
  unfold extract_double at 1.
  rewrite (sentry_field b2 tok2 _ (blanks_spaces _ Hb2) H2). cbn [rdbuf].
  rewrite Hn2, (after_read_blanks _ _ _ _ Hb3).
  unfold extract_string.
  rewrite <- (append_empty_r d) at 1.
  rewrite (sentry_field b3 d "" (blanks_spaces _ Hb3) Hd). cbn [rdbuf].
  by rewrite (read_word_chars d "" (token_chars _ Hd) eq_refl).
Qed.

(** A line of two fields: the second numeric extraction and the second
    string extraction find the stream at its end and leave [t] and [sD]
    as they are. *)
Lemma parse_line_two t0 tok b c v :
  token tok = true -> blanks b = true -> token c = true ->
  num_get (tok +:+ b +:+ c) = (Some v, b +:+ c) ->
  parse_line t0 (tok +:+ b +:+ c) = (v, c, "").
Proof.
  intros H1 Hb Hc Hn. unfold parse_line.
  unfold extract_double at 1.
  rewrite (sentry_token tok _ H1). cbn [rdbuf].
  rewrite Hn, (after_read_blanks _ _ _ _ Hb).
  unfold extract_string at 1.
  rewrite <- (append_empty_r c) at 1.
  rewrite (sentry_field b c "" (blanks_spaces _ Hb) Hc). cbn [rdbuf].
  by rewrite (read_word_chars c "" (token_chars _ Hc) eq_refl).
Qed.

(** The turn of the reading loop on a line that is not empty. *)
Lemma wstep_push W a seq st line rest e t sRGB sD :
  w_pc st = PLoad -> good (fAssociation st) = true ->
  read_line (rdbuf (fAssociation st)) = (line, rest, e) ->
  is_empty line = false ->
  parse_line (uninit_double W (length (vTimestamps st))) line = (t, sRGB, sD) ->
  exists st',
    wstep W a seq st = ([], st') /\ w_pc st' = PLoad
    /\ vTimestamps st' = vTimestamps st ++ [t]
    /\ vstrImageFilenamesRGB st' = vstrImageFilenamesRGB st ++ [seq +:+ "/" +:+ sRGB]
    /\ vstrImageFilenamesD st' = vstrImageFilenamesD st ++ [seq +:+ "/" +:+ sD].
Proof.
  intros Hpc Hg Hr Hl Hp. unfold wstep. rewrite Hpc.
  assert (He : eof (fAssociation st) = false).
  { unfold good in Hg. unfold eof. by destruct (eofbit (fAssociation st)). }
  rewrite He. unfold getline. rewrite Hg, Hr.
  destruct e; rewrite Hl, Hp; eauto 10.
Qed.

(** ** No frames *)

Lemma zero_frames_run W a seq b :
  files W a = Some b -> nonempty_lines b = [] ->
  exists n st,
    wsteps W a seq n ProcessImages_entry = ([EOpen a; ECerr msg_no_images], st)
    /\ returned st = true.
Proof.
  intros Hb Hz. destruct (loaded W a seq b Hb) as (st & Hrun & Hpc & Hd & _).
  pose proof (load_lines_length W seq (split_lines b) ([], [], [])) as Hlen.
  simpl in Hlen. rewrite <- Hd in Hlen. unfold descriptors in Hlen.
  simpl in Hlen. destruct Hlen as (Hlen & _).
  unfold nonempty_lines in Hz. rewrite Hz in Hlen. simpl in Hlen.
  apply nil_length_inv in Hlen.
  assert (Hh : halted st = false) by (unfold halted; by rewrite Hpc).
  assert (Hs : wstep W a seq st = ([ECerr msg_no_images], at_pc PReturn st)).
  { unfold wstep. by rewrite Hpc, Hlen. }
  assert (H1 : wsteps W a seq 1 st = ([ECerr msg_no_images], at_pc PReturn st)).
  { by rewrite (wsteps_S _ _ _ _ _ _ _ Hh Hs). }
  exists (S (S (length (split_lines b))) + 1), (at_pc PReturn st).
  split; [apply (wsteps_add _ _ _ _ _ _ _ _ _ _ Hrun H1) | done].
Qed.

Lemma worker_event_after_spawn W argv s t1 e t2 :
  reachable W 5 argv s -> trace s = t1 ++ (Worker, e) :: t2 ->
  (Main, ESpawn (arg argv 4) (arg argv 3)) ∈ t1.
Proof.
  intros Hr Hsplit. pose proof (reachable_inv _ _ _ _ Hr) as (I1 & _ & _ & I4 & _).
  destruct (I4 _ _ _ Hsplit) as (a & q & Hin).
  assert (Hin' : ESpawn a q ∈ events_of Main (trace s)).
  { apply elem_of_events_of. rewrite Hsplit. apply elem_of_app. by left. }
  by destruct (main_spawn_args _ _ _ _ _ I1 Hin') as [-> ->].
Qed.

(** ** Every descriptor once *)

Lemma frame_loop_ingests_all W a seq st :
  w_pc st = PCheck ->
  length (vstrImageFilenamesRGB st) = length (vstrImageFilenamesD st) ->
  length (vstrImageFilenamesD st) = length (vTimestamps st) ->
  (Z.of_nat (length (vstrImageFilenamesRGB st)) < 2 ^ 31)%Z ->
  (forall p, p ∈ vstrImageFilenamesRGB st -> Mat_empty (imread W p) = false) ->
  (forall j, is_abort (waitKey W j) = false) ->
  exists n evs st',
    wsteps W a seq n st = (evs, st') /\ returned st' = true
    /\ List.filter is_track evs =
         expected_calls W (vstrImageFilenamesRGB st) (vstrImageFilenamesD st)
           (vTimestamps st)
    /\ length (List.filter is_call evs) = length (vstrImageFilenamesRGB st).
Proof.
  intros Hpc HRD HDT Hsmall Hdec Hkey.
  assert (Hh : halted st = false) by (unfold halted; by rewrite Hpc).
  destruct (decide (vstrImageFilenamesRGB st = [])) as [ER|Hne].
  { exists 1, [ECerr msg_no_images], (at_pc PReturn st).
    rewrite (wsteps_S W a seq 0 st [ECerr msg_no_images] (at_pc PReturn st) Hh).
    - by rewrite ER.
    - unfold wstep. by rewrite Hpc, ER. }
  set (st1 := mk_wstate (PFrame 0) (fAssociation st) (vstrImageFilenamesRGB st)
                (vstrImageFilenamesD st) (vTimestamps st)
                (Z.of_nat (length (vstrImageFilenamesRGB st))) (w_polls st)).
  assert (Hs : wstep W a seq st = ([], st1)).
  { unfold wstep. rewrite Hpc, <- HRD, Nat.eqb_refl. simpl.
    rewrite to_int_small by lia.
    by destruct (vstrImageFilenamesRGB st). }
  destruct (frame_loop_all W a seq (length (vstrImageFilenamesRGB st)) 0 st1)
    as (st' & Hrun & Hret); try done.
  rewrite !drop_0 in Hrun.
  change (vstrImageFilenamesRGB st1) with (vstrImageFilenamesRGB st) in Hrun.
  change (vstrImageFilenamesD st1) with (vstrImageFilenamesD st) in Hrun.
  change (vTimestamps st1) with (vTimestamps st) in Hrun.
  change (w_polls st1) with (w_polls st) in Hrun.
  exists (S (S (length (vstrImageFilenamesRGB st)))),
    (ingest_all W (w_polls st) (vstrImageFilenamesRGB st)
       (vstrImageFilenamesD st) (vTimestamps st)), st'.
  split; [| split; [done | split]].
  - by rewrite (wsteps_S _ _ _ _ _ _ _ Hh Hs), Hrun.
  - by rewrite ingest_all_calls.
  - by rewrite ingest_all_count.
Qed.

(** From the entry of [ProcessImages]: a manifest that is read to its
    end and gives fewer than 2^31 descriptors, all colour images decoding
    and no abort, is ingested descriptor by descriptor. *)
Lemma ProcessImages_ingests_all W a seq b rs ds ts :
  files W a = Some b ->
  load_lines W seq (split_lines b) ([], [], []) = (rs, ds, ts) ->
  (Z.of_nat (length rs) < 2 ^ 31)%Z ->
  (forall p, p ∈ rs -> Mat_empty (imread W p) = false) ->
  (forall j, is_abort (waitKey W j) = false) ->
  exists fuel evs,
    ProcessImages W fuel a seq = Some evs
    /\ List.filter is_track evs = expected_calls W rs ds ts
    /\ length (List.filter is_call evs) = length rs.
Proof.
  intros Hb Hload Hsmall Hdec Hkey.
  destruct (loaded W a seq b Hb) as (st1 & Hrun1 & Hpc1 & Hd & _).
  destruct (wsteps_vectors_ok _ _ _ _ _ _ _ vectors_ok_entry Hrun1)
    as [(HRD & HDT & _) _].
  rewrite Hload in Hd. unfold descriptors in Hd. inversion Hd as [[HR HD HT]].
  destruct (frame_loop_ingests_all W a seq st1) as (n & evs & st' & Hrun & Hret & Ht & Hc);
    try done; try (by rewrite HR).
  pose proof (wsteps_add _ _ _ _ _ _ _ _ _ _ Hrun1 Hrun) as Hall.
  eexists _, _. split; [| split].
  - unfold ProcessImages. rewrite Hall, Hret. reflexivity.
  - simpl. by rewrite Ht, HR, HD, HT.
  - simpl. by rewrite Hc, HR.
Qed.

(** When the number of descriptors converts to an [int] that is not
    positive, the frame loop is left at its first test. *)
Lemma frame_loop_skipped W a seq st :
  w_pc st = PCheck ->
  vstrImageFilenamesRGB st <> [] ->
  length (vstrImageFilenamesRGB st) = length (vstrImageFilenamesD st) ->
  (to_int (Z.of_nat (length (vstrImageFilenamesRGB st))) <= 0)%Z ->
  exists st', wsteps W a seq 2 st = ([], st') /\ returned st' = true.
Proof.
  intros Hpc Hne HRD Hn.
  assert (Hh : halted st = false) by (unfold halted; by rewrite Hpc).
  set (st1 := mk_wstate (PFrame 0) (fAssociation st) (vstrImageFilenamesRGB st)
                (vstrImageFilenamesD st) (vTimestamps st)
                (to_int (Z.of_nat (length (vstrImageFilenamesRGB st))))
                (w_polls st)).
  assert (Hs : wstep W a seq st = ([], st1)).
  { unfold wstep. rewrite Hpc, <- HRD, Nat.eqb_refl. simpl.
    by destruct (vstrImageFilenamesRGB st). }
  assert (Hs1 : wstep W a seq st1 = ([], at_pc PReturn st1)).
  { unfold wstep. simpl.
    by destruct (Z.ltb_spec 0 (to_int (Z.of_nat (length (vstrImageFilenamesRGB st)))));
      [lia |]. }
  exists (at_pc PReturn st1). split; [| done].
  rewrite (wsteps_S _ _ _ _ _ _ _ Hh Hs).
  by rewrite (wsteps_S W a seq 0 st1 [] (at_pc PReturn st1)).
Qed.

(** Two runs of [ProcessImages] that have both halted have the same
    events. *)
Lemma wsteps_halted_events W a q N E stN n evs st :
  wsteps W a q N ProcessImages_entry = (E, stN) -> halted stN = true ->
  wsteps W a q n ProcessImages_entry = (evs, st) -> halted st = true ->
  evs = E.
Proof.
  intros HN HhN Hn Hh.
  destruct (wsteps_prefix _ _ _ _ _ _ _ _ _ HN HhN Hn) as [r1 H1].
  destruct (wsteps_prefix _ _ _ _ _ _ _ _ _ Hn Hh HN) as [r2 H2].
  subst evs. apply (f_equal length) in H1. rewrite !length_app in H1.
  assert (r2 = []) as -> by (apply nil_length_inv; lia).
  by rewrite app_nil_r.
Qed.

(** On such a manifest [ProcessImages] returns having opened the file
    and done nothing else. *)
Lemma wrapped_count_returns_at_once W a seq b :
  files W a = Some b ->
  nonempty_lines b <> [] ->
  (to_int (Z.of_nat (length (nonempty_lines b))) <= 0)%Z ->
  (exists fuel, ProcessImages W fuel a seq = Some [EOpen a])
  /\ (forall fuel evs, ProcessImages W fuel a seq = Some evs -> evs = [EOpen a]).
Proof.
  intros Hb Hne Hwrap.
  destruct (loaded W a seq b Hb) as (st1 & Hrun1 & Hpc1 & Hd & _).
  destruct (wsteps_vectors_ok _ _ _ _ _ _ _ vectors_ok_entry Hrun1)
    as [(HRD & _) _].
  pose proof (load_lines_length W seq (split_lines b) ([], [], [])) as Hlen.
  simpl in Hlen. rewrite <- Hd in Hlen. unfold descriptors in Hlen.
  simpl in Hlen. destruct Hlen as (Hlen & _). fold (nonempty_lines b) in Hlen.
  destruct (frame_loop_skipped W a seq st1) as (st2 & Hrun2 & Hret); try done.
  { intros Hnil. rewrite Hnil in Hlen. simpl in Hlen. symmetry in Hlen.
    by apply nil_length_inv in Hlen. }
  { by rewrite Hlen. }
  pose proof (wsteps_add _ _ _ _ _ _ _ _ _ _ Hrun1 Hrun2) as Hall.
  change ([EOpen a] ++ []) with [EOpen a] in Hall. split.
  - eexists. unfold ProcessImages. by rewrite Hall, Hret.
  - intros fuel evs Hp. unfold ProcessImages in Hp.
    destruct (wsteps W a seq fuel ProcessImages_entry) as [evs' st'] eqn:Hf.
    destruct (returned st') eqn:Hr; [| done]. inversion Hp; subst evs'.
    apply (wsteps_halted_events _ _ _ _ _ _ _ _ _ Hall (returned_halted _ Hret)
             Hf (returned_halted _ Hr)).
Qed.

(** ** Manifests of equal lines *)

Lemma split_lines_line line r :
  all_chars (fun c => negb (is_newline c)) line = true ->
  split_lines (line +:+ Sample.nl +:+ r) = line :: split_lines r.
Proof.
  induction line as [|c line IH]; intros Hl; [done |].
  simpl in Hl. apply andb_prop in Hl as [Hc Hl].
  change (split_lines (String c (line +:+ Sample.nl +:+ r))
          = String c line :: split_lines r).
  simpl. destruct (is_newline c); [done |]. by rewrite (IH Hl).
Qed.

Lemma nonempty_lines_repeat n line :
  all_chars (fun c => negb (is_newline c)) line = true ->
  is_empty line = false ->
  nonempty_lines (Runs.repeat_lines n line) = replicate n line.
Proof.
  intros Hl He. unfold nonempty_lines.
  induction n as [|n IH]; [done |].
  cbn [Runs.repeat_lines replicate].
  rewrite (split_lines_line _ _ Hl), filter_cons_True by done.
  by rewrite IH.
Qed.

(** ** A frame whose images do not both decode *)

(** When the colour image is empty the loop writes its message and
    returns without a call of [TrackRGBD]. *)
Lemma colour_failure_returns W a seq st i r d t :
  w_pc st = PFrame (Z.of_nat i) -> (Z.of_nat i < nImages st)%Z ->
  vstrImageFilenamesRGB st !! i = Some r ->
  vstrImageFilenamesD st !! i = Some d ->
  vTimestamps st !! i = Some t ->
  Mat_empty (imread W r) = true ->
  wstep W a seq st =
    ([EImread r; EImread d; ECerr (msg_failed_load r)], at_pc PReturn st).
Proof.
  intros Hpc Hlt Hr Hd Ht Hm. unfold wstep. rewrite Hpc.
  destruct (Z.ltb_spec (Z.of_nat i) (nImages st)); [| lia].
  by rewrite !at_index_nat, Hr, Hd, Ht, Hm.
Qed.

(** The depth image is not looked at: [wstep_frame] asks nothing of it,
    and an empty one is handed to [TrackRGBD]. *)
Lemma depth_failure_ingested W a seq st i r d t :
  w_pc st = PFrame (Z.of_nat i) -> (Z.of_nat i < nImages st)%Z ->
  vstrImageFilenamesRGB st !! i = Some r ->
  vstrImageFilenamesD st !! i = Some d ->
  vTimestamps st !! i = Some t ->
  Mat_empty (imread W r) = false -> Mat_empty (imread W d) = true ->
  exists st',
    wstep W a seq st = (frame_events W (w_polls st) r d t, st')
    /\ ETrackCall (imread W r) (imread W d) t ∈ frame_events W (w_polls st) r d t.
Proof.
  intros Hpc Hlt Hr Hd Ht Hm _. eexists. split.
  - by apply wstep_frame.
  - unfold frame_events. do 2 apply list_elem_of_further. apply list_elem_of_here.
Qed.

(** ** The scheduler follows the semantics *)

Lemma schedule_steps W n : forall s, rtc (step W) s (schedule W n s).
Proof.
  induction n as [|n IH]; intros s; simpl; [apply rtc_refl |].
  destruct (main_step s) as [s1|] eqn:Em.
  { eapply rtc_l; [by left | apply IH]. }
  destruct (worker_step W s) as [s1|] eqn:Ew; [| apply rtc_refl].
  eapply rtc_l; [by right | apply IH].
Qed.

Lemma schedule_reachable W argc argv n :
  reachable W argc argv (schedule W n (sys_init argc argv)).
Proof. apply schedule_steps. Qed.

(** ** No run is stuck *)

Lemma run_plain W th (l : list event) : forall rest tr,
  Forall (fun e => plain e = true) l ->
  rtc (step W) (mk_sys (l ++ rest) th tr)
    (mk_sys rest th (tr ++ List.map (pair Main) l)).
Proof.
  induction l as [|e l IH]; intros rest tr Hl; simpl.
  { rewrite app_nil_r. apply rtc_refl. }
  apply Forall_cons in Hl as [He Hl].
  eapply rtc_l.
  { left. unfold main_step. simpl. by destruct e. }
  replace (tr ++ (Main, e) :: List.map (pair Main) l)
    with ((tr ++ [(Main, e)]) ++ List.map (pair Main) l)
    by (by rewrite <- app_assoc).
  by apply IH.
Qed.

Lemma run_plain_all W th (l : list event) tr :
  Forall (fun e => plain e = true) l ->
  rtc (step W) (mk_sys l th tr) (mk_sys [] th (tr ++ List.map (pair Main) l)).
Proof.
  intros Hl. rewrite <- (app_nil_r l) at 1. by apply run_plain.
Qed.

(** A worker that is where [n] steps lead, on a manifest that can be
    opened, is a bounded number of steps away from having returned. *)
Lemma worker_can_return W a q b n evs st :
  files W a = Some b ->
  wsteps W a q n ProcessImages_entry = (evs, st) ->
  exists k evs' st', wsteps W a q k st = (evs', st') /\ returned st' = true.
Proof.
  intros Hb Hn.
  destruct (ProcessImages_returns W a q b Hb) as (N & E & HN).
  unfold ProcessImages in HN.
  destruct (wsteps W a q N ProcessImages_entry) as [E' stN] eqn:HrunN.
  destruct (returned stN) eqn:Hret; [| done].
  destruct (wsteps W a q N st) as [e2 st2] eqn:H2.
  exists N, e2, st2. split; [done |].
  pose proof (wsteps_add _ _ _ _ _ _ _ _ _ _ Hn H2) as Hnk.
  pose proof (wsteps_halted W a q n stN (returned_halted _ Hret)) as Hh.
  pose proof (wsteps_add _ _ _ _ _ _ _ _ _ _ HrunN Hh) as Hkn.
  rewrite Nat.add_comm, Hnk in Hkn. by inversion Hkn.
Qed.

(** From [join] on: the worker finishes, [main] joins it and runs its
    last four statements. *)
Lemma finish_from_join W argv a q p st tr k evs' st' :
  wsteps W a q k st = (evs', st') -> returned st' = true ->
  exists s', rtc (step W)
               (mk_sys (drop 4 (main 5 argv)) (Started a q p st) tr) s'
             /\ exited s' 0.
Proof.
  intros Hk Hret. eexists. split.
  - etrans; [apply emit_pending |].
    etrans; [eapply worker_runs; exact Hk |].
    simpl. eapply rtc_l.
    { left. unfold main_step. simpl. rewrite Hret. reflexivity. }
    apply run_plain_all. repeat constructor.
  - split; [done |]. simpl. apply last_Some_elem_of. by rewrite !last_app.
Qed.

(** Every state of a run whose manifest is read to its end can go on to
    the end of [main], with exit code 0. *)
Lemma can_finish W argv b s :
  files W (arg argv 4) = Some b -> reachable W 5 argv s ->
  exists s', rtc (step W) s s' /\ exited s' 0.
Proof.
  intros Hb Hr. pose proof (reachable_inv _ _ _ _ Hr) as (I1 & I2 & _).
  assert (Hth : forall a q p st, processingThread s = Started a q p st ->
            a = arg argv 4 /\ q = arg argv 3
            /\ exists k evs' st', wsteps W a q k st = (evs', st')
                                  /\ returned st' = true).
  { intros a q p st Ht.
    destruct (reachable_spawn_args _ _ _ _ _ _ _ Hr Ht) as [-> ->].
    rewrite Ht in I2. destruct I2 as [_ [n Hn]].
    split; [done |]. split; [done |]. by eapply worker_can_return. }
  destruct (worker_can_return W (arg argv 4) (arg argv 3) b 0 []
              ProcessImages_entry Hb eq_refl) as (k0 & e0 & st0 & Hk0 & Hret0).
  destruct s as [rest th tr]. simpl in *.
  apply main_done_cases in I1 as Hk. destruct Hk as (k & Hk & Hdone).
  assert (Hrest : rest = drop k (main 5 argv)).
  { rewrite <- I1 at 1. rewrite Hdone at 1.
    by rewrite drop_app_length' by (rewrite length_take; simpl; lia). }
  subst rest. clear I1 Hr.
  split_upto k 10; [.. | lia]; clear Hk; simpl in Hdone;
    cbn [drop main Z.eqb Pos.eqb negb].
  1-2: destruct th as [|a q p st];
    [| destruct I2 as [Hsp _]; rewrite Hdone in Hsp;
       repeat (apply elem_of_cons in Hsp as [Hsp|Hsp]; [discriminate |]);
       by apply elem_of_nil in Hsp].
  3-5: destruct th as [|a q p st];
    [destruct I2 as [_ Hns]; destruct (Hns (arg argv 4) (arg argv 3));
     rewrite Hdone; apply list_elem_of_further, list_elem_of_here |].
  3-5: destruct (Hth a q p st eq_refl) as (-> & -> & k1 & e1 & st1 & Hk1 & Hret1).
  - edestruct (finish_from_join W argv (arg argv 4) (arg argv 3) []
                 ProcessImages_entry) as (s' & Hrun & Hex); [exact Hk0 | exact Hret0 |].
    exists s'. split; [| done].
    do 4 (eapply rtc_l; [left; reflexivity |]). exact Hrun.
  - edestruct (finish_from_join W argv (arg argv 4) (arg argv 3) []
                 ProcessImages_entry) as (s' & Hrun & Hex); [exact Hk0 | exact Hret0 |].
    exists s'. split; [| done].
    do 3 (eapply rtc_l; [left; reflexivity |]). exact Hrun.
  - edestruct (finish_from_join W argv (arg argv 4) (arg argv 3) p st)
      as (s' & Hrun & Hex); [exact Hk1 | exact Hret1 |].
    exists s'. split; [| done].
    do 2 (eapply rtc_l; [left; reflexivity |]). exact Hrun.
  - edestruct (finish_from_join W argv (arg argv 4) (arg argv 3) p st)
      as (s' & Hrun & Hex); [exact Hk1 | exact Hret1 |].
    exists s'. split; [| done].
    eapply rtc_l; [left; reflexivity |]. exact Hrun.
  - by apply (finish_from_join W argv _ _ p st tr k1 e1 st1).
  - eexists. split; [apply run_plain_all; repeat constructor |].
    split; [done |]. simpl. apply last_Some_elem_of. by rewrite last_app.
  - eexists. split; [apply run_plain_all; repeat constructor |].
    split; [done |]. simpl. apply last_Some_elem_of. by rewrite last_app.
  - eexists. split; [apply run_plain_all; repeat constructor |].
    split; [done |]. simpl. apply last_Some_elem_of. by rewrite last_app.
  - eexists. split; [apply run_plain_all; repeat constructor |].
    split; [done |]. simpl. apply last_Some_elem_of. by rewrite last_app.
  - eexists. split; [apply rtc_refl |]. split; [done |]. simpl.
    apply elem_of_events_of. rewrite Hdone.
    do 8 apply list_elem_of_further. apply list_elem_of_here.
Qed.

(** ** The claims *)

(** C1, as the program has it: a manifest without frames is met inside
    the worker thread.  [ProcessImages] opens the file, writes "No images
    found" and returns; in every state of every run the worker has done
    nothing but these two things, and did them after it was spawned; the
    run is not cut short: from every state it can go on to the end of
    [main], through [join], [Shutdown] and the two exports, and whenever
    it ends the exit code is 0. *)
Theorem zero_frames_met_in_worker W argv b :
  files W (arg argv 4) = Some b -> nonempty_lines b = [] ->
  (exists fuel,
     ProcessImages W fuel (arg argv 4) (arg argv 3)
       = Some [EOpen (arg argv 4); ECerr msg_no_images])
  /\ (exists s, reachable W 5 argv s /\ exited s 0
        /\ trace s = full_trace argv [EOpen (arg argv 4); ECerr msg_no_images])
  /\ (forall s, reachable W 5 argv s ->
        (forall e, (Worker, e) ∈ trace s ->
           e = EOpen (arg argv 4) \/ e = ECerr msg_no_images)
        /\ (forall t1 e t2, trace s = t1 ++ (Worker, e) :: t2 ->
              (Main, ESpawn (arg argv 4) (arg argv 3)) ∈ t1)
        /\ (exists s', rtc (step W) s s' /\ exited s' 0)
        /\ (forall code, exited s code ->
              code = 0%Z
              /\ occurrences is_shutdown (trace s) = 1
              /\ occurrences is_save_trajectory (trace s) = 1
              /\ occurrences is_save_keyframes (trace s) = 1)).
Proof.
  intros Hb Hz.
  destruct (zero_frames_run W (arg argv 4) (arg argv 3) b Hb Hz)
    as (N & stN & HN & Hret).
  assert (Hp : ProcessImages W N (arg argv 4) (arg argv 3)
                 = Some [EOpen (arg argv 4); ECerr msg_no_images]).
  { unfold ProcessImages. by rewrite HN, Hret. }
  split; [by exists N |]. split; [by eapply run_completes |].
  intros s Hr. split; [| split; [| split]].
  - intros e Hin.
    destruct (reachable_worker_events _ _ _ _ Hr Hin) as (n & evs & st & Hn & He).
    destruct (wsteps_prefix _ _ _ _ _ _ _ _ _ HN (returned_halted _ Hret) Hn)
      as [rest Hrest].
    assert (He' : e ∈ [EOpen (arg argv 4); ECerr msg_no_images]).
    { rewrite Hrest. apply elem_of_app. by left. }
    apply elem_of_cons in He' as [->|He']; [by left |].
    apply list_elem_of_singleton in He' as ->. by right.
  - intros t1 e t2. by apply (worker_event_after_spawn W).
  - by eapply can_finish.
  - intros code [Hend Hin].
    split; [by apply (exit_code_of_run W 5 argv s code Hr) |].
    pose proof (reachable_inv _ _ _ _ Hr) as Hinv.
    destruct (occurrences_main W argv s is_shutdown) as [_ H1]; try done.
    { by intros []. }
    destruct (occurrences_main W argv s is_save_trajectory) as [_ H2]; try done.
    { by intros []. }
    destruct (occurrences_main W argv s is_save_keyframes) as [_ H3]; try done.
    { by intros []. }
    auto.
Qed.

(** X16: what [main] keeps of the order of lines 100 to 107 in every
    run with four arguments: [Shutdown] and each of the two exports at
    most once, and once when [main] has run to its end; [Shutdown] after
    [join]; after [join] no event of the worker, so that every call of
    [TrackRGBD] and its return come before [Shutdown]; and on a manifest
    that is read to its end the run can always go on to the end of
    [main]. *)
Theorem shutdown_after_join W argv s :
  reachable W 5 argv s ->
  (occurrences is_shutdown (trace s) <= 1
   /\ occurrences is_save_trajectory (trace s) <= 1
   /\ occurrences is_save_keyframes (trace s) <= 1)
  /\ (main_rest s = [] ->
        occurrences is_shutdown (trace s) = 1
        /\ occurrences is_save_trajectory (trace s) = 1
        /\ occurrences is_save_keyframes (trace s) = 1)
  /\ (forall t1 t2, trace s = t1 ++ (Main, EShutdown) :: t2 ->
        (Main, EJoin) ∈ t1)
  /\ (forall t1 t2 e, trace s = t1 ++ (Main, EJoin) :: t2 ->
        (Worker, e) ∉ t2)
  /\ (forall t1 t2 e, trace s = t1 ++ (Main, EShutdown) :: t2 ->
        (Worker, e) ∉ t2)
  /\ (forall b, files W (arg argv 4) = Some b ->
        exists s', rtc (step W) s s' /\ main_rest s' = []).
Proof.
  intros Hr. pose proof (reachable_inv _ _ _ _ Hr) as Hinv.
  destruct (occurrences_main W argv s is_shutdown) as [H1 H1']; try done.
  { by intros []. }
  destruct (occurrences_main W argv s is_save_trajectory) as [H2 H2']; try done.
  { by intros []. }
  destruct (occurrences_main W argv s is_save_keyframes) as [H3 H3']; try done.
  { by intros []. }
  destruct Hinv as (I1 & I2 & I3 & I4 & I5).
  assert (Hjoin : forall t1 t2, trace s = t1 ++ (Main, EShutdown) :: t2 ->
                    (Main, EJoin) ∈ t1).
  { intros t1 t2 Hsplit. rewrite Hsplit in I1.
    rewrite events_of_app in I1.
    change ((Main, EShutdown) :: t2) with ([(Main, EShutdown)] ++ t2) in I1.
    rewrite events_of_app in I1.
    change (events_of Main [(Main, EShutdown)]) with [EShutdown] in I1.
    rewrite <- !app_assoc in I1. simpl in I1.
    apply elem_of_events_of.
    apply main_done_cases in I1 as Hk. destruct Hk as (k & Hk & Heq).
    rewrite Heq in I1 |- *. clear Heq.
    split_upto k 10; [.. | lia]; simpl in I1; try discriminate.
    simpl. do 4 apply list_elem_of_further. apply list_elem_of_here. }
  split; [done |]. split; [auto |]. split; [done |]. split; [done |].
  split.
  - intros t1 t2 e Hsplit Hin.
    apply Hjoin in Hsplit as Hj. apply list_elem_of_split in Hj as (u1 & u2 & ->).
    rewrite <- app_assoc in Hsplit. simpl in Hsplit.
    apply (I5 _ _ e Hsplit). apply elem_of_app. right. by right.
  - intros b Hb. destruct (can_finish W argv b s Hb Hr) as (s' & Hrun & Hend & _).
    eauto.
Qed.

(** C2, where the program misses it: on a manifest that cannot be
    opened (or that is a directory) [main] constructs the engine, spawns
    the worker, runs the viewer and comes to [join], and there it stays:
    [join] does not return, and in no state of the run has [Shutdown] or
    one of the two exports been invoked, not once. *)
Theorem unopened_manifest_no_shutdown W argv :
  files W (arg argv 4) = None ->
  (exists s, reachable W 5 argv s /\ main_rest s = drop 4 (main 5 argv))
  /\ (forall s, reachable W 5 argv s ->
        ((Main, EJoin) ∉ trace s)
        /\ occurrences is_shutdown (trace s) = 0
        /\ occurrences is_save_trajectory (trace s) = 0
        /\ occurrences is_save_keyframes (trace s) = 0
        /\ main_rest s <> []).
Proof.
  intros Hf. split.
  - eexists. split.
    + unfold reachable, sys_init. simpl.
      do 4 (eapply rtc_l; [left; reflexivity |]). apply rtc_refl.
    + reflexivity.
  - intros s Hr. pose proof (unopened_never_joined W argv s Hf Hr) as Hj.
    pose proof (reachable_inv _ _ _ _ Hr) as Hinv.
    pose proof (inv_worker_events _ _ _ _ Hinv) as Hw.
    destruct Hinv as (I1 & _).
    assert (Hj' : EJoin ∉ events_of Main (trace s))
      by (intros Hin; by apply Hj, elem_of_events_of).
    assert (Hnone : forall kind,
              (forall e, kind e = true -> is_worker_event e = false) ->
              (forall e, e ∈ events_of Main (trace s) -> kind e = true ->
                 EJoin ∈ events_of Main (trace s)) ->
              occurrences kind (trace s) = 0).
    { intros kind Hk Hafter.
      rewrite occurrences_split, (filter_worker_events kind _ Hk Hw). simpl.
      rewrite Nat.add_0_r.
      destruct (List.filter kind (events_of Main (trace s))) as [|e l] eqn:E;
        [done |].
      assert (Hin : e ∈ List.filter kind (events_of Main (trace s)))
        by (rewrite E; apply list_elem_of_here).
      apply list_elem_of_In, List.filter_In in Hin as [Hin He].
      apply list_elem_of_In in Hin. destruct (Hj' (Hafter e Hin He)). }
    split; [done |].
    split; [| split; [| split]].
    + apply Hnone; [by intros [] |]. intros e Hin He.
      apply (main_join_first argv _ _ e I1 Hin). by rewrite He.
    + apply Hnone; [by intros [] |]. intros e Hin He.
      apply (main_join_first argv _ _ e I1 Hin). rewrite He.
      by rewrite orb_true_r.
    + apply Hnone; [by intros [] |]. intros e Hin He.
      apply (main_join_first argv _ _ e I1 Hin). rewrite He.
      by rewrite !orb_true_r.
    + intros Hrest. rewrite Hrest, app_nil_r in I1. apply Hj'. rewrite I1.
      do 4 apply list_elem_of_further. apply list_elem_of_here.
Qed.

(** C4, as the program has it: the reading loop, met with a line of the
    form [<timestamp> <colour path> <timestamp> <depth path>], appends to
    [vTimestamps] the value of the second timestamp field, the one in
    front of the depth path; the value of the first field is overwritten
    in [t] before it is stored. *)
Theorem stored_timestamp_is_second_field
    W a seq st line rest e tok1 b1 c b2 tok2 b3 d v1 v2 :
  w_pc st = PLoad -> good (fAssociation st) = true ->
  read_line (rdbuf (fAssociation st)) = (line, rest, e) ->
  line = tok1 +:+ b1 +:+ c +:+ b2 +:+ tok2 +:+ b3 +:+ d ->
  token tok1 = true -> blanks b1 = true -> token c = true ->
  blanks b2 = true -> token tok2 = true -> blanks b3 = true ->
  token d = true ->
  num_get (tok1 +:+ b1 +:+ c +:+ b2 +:+ tok2 +:+ b3 +:+ d)
    = (Some v1, b1 +:+ c +:+ b2 +:+ tok2 +:+ b3 +:+ d) ->
  num_get (tok2 +:+ b3 +:+ d) = (Some v2, b3 +:+ d) ->
  exists st',
    wstep W a seq st = ([], st') /\ w_pc st' = PLoad
    /\ vTimestamps st' = vTimestamps st ++ [v2]
    /\ vstrImageFilenamesRGB st' = vstrImageFilenamesRGB st ++ [seq +:+ "/" +:+ c]
    /\ vstrImageFilenamesD st' = vstrImageFilenamesD st ++ [seq +:+ "/" +:+ d].
Proof.
  intros Hpc Hg Hr -> H1 Hb1 Hc Hb2 H2 Hb3 Hd Hn1 Hn2.
  eapply wstep_push; eauto using token_not_empty.
  by eapply parse_line_four.
Qed.

(** C5, as the program has it: the loader skips no line that is not
    empty.  On a manifest that can be opened it raises no error and ends
    with as many descriptors as the file has lines that are not empty;
    and a line of two fields appends one descriptor like any other, with
    the timestamp and the colour path of the line and with the sequence
    path and a slash for the depth path. *)
Theorem short_line_yields_descriptor W a seq b :
  files W a = Some b ->
  (exists st,
     wsteps W a seq (S (S (length (split_lines b)))) ProcessImages_entry
       = ([EOpen a], st)
     /\ w_pc st = PCheck
     /\ length (vstrImageFilenamesRGB st) = length (nonempty_lines b)
     /\ length (vstrImageFilenamesD st) = length (nonempty_lines b)
     /\ length (vTimestamps st) = length (nonempty_lines b))
  /\ (forall st line rest e tok bl c v,
        w_pc st = PLoad -> good (fAssociation st) = true ->
        read_line (rdbuf (fAssociation st)) = (line, rest, e) ->
        line = tok +:+ bl +:+ c ->
        token tok = true -> blanks bl = true -> token c = true ->
        num_get (tok +:+ bl +:+ c) = (Some v, bl +:+ c) ->
        exists st',
          wstep W a seq st = ([], st') /\ w_pc st' = PLoad
          /\ vTimestamps st' = vTimestamps st ++ [v]
          /\ vstrImageFilenamesRGB st'
               = vstrImageFilenamesRGB st ++ [seq +:+ "/" +:+ c]
          /\ vstrImageFilenamesD st'
               = vstrImageFilenamesD st ++ [seq +:+ "/"]).
Proof.
  intros Hb. split.
  - destruct (loaded W a seq b Hb) as (st & Hrun & Hpc & Hd & _).
    exists st. split; [done |]. split; [done |].
    pose proof (load_lines_length W seq (split_lines b) ([], [], [])) as Hlen.
    simpl in Hlen. rewrite <- Hd in Hlen. unfold descriptors in Hlen.
    simpl in Hlen. unfold nonempty_lines.
    by destruct Hlen as (-> & -> & ->).
  - intros st line rest e tok bl c v Hpc Hg Hr -> Ht Hbl Hc Hn.
    eapply (wstep_push W a seq st _ rest e v c ""); eauto using token_not_empty.
    by eapply parse_line_two.
Qed.

(** C6, as the program has it: that the manifest cannot be opened is
    not met before a thread is started.  The main thread makes no attempt
    to open the file; it spawns the worker thread, and the attempt is the
    first thing the worker does, after the spawn, with the name in
    [argv[4]]. *)
Theorem unopened_manifest_met_in_worker W argv :
  files W (arg argv 4) = None ->
  (exists s, reachable W 5 argv s /\ (Worker, EOpen (arg argv 4)) ∈ trace s)
  /\ (forall s, reachable W 5 argv s ->
        (forall f, (Main, EOpen f) ∉ trace s)
        /\ (forall t1 f t2, trace s = t1 ++ (Worker, EOpen f) :: t2 ->
              f = arg argv 4
              /\ (Main, ESpawn (arg argv 4) (arg argv 3)) ∈ t1
              /\ events_of Worker t1 = [])).
Proof.
  intros Hf. split.
  - eexists. split.
    + unfold reachable, sys_init. simpl.
      do 2 (eapply rtc_l; [left; reflexivity |]).
      do 2 (eapply rtc_l; [right; reflexivity |]). apply rtc_refl.
    + simpl. do 2 apply list_elem_of_further. apply list_elem_of_here.
  - intros s Hr. pose proof (reachable_inv _ _ _ _ Hr) as (I1 & I2 & I3 & I4 & I5).
    split.
    + intros f Hin. apply elem_of_events_of in Hin.
      assert (Hin' : EOpen f ∈ main 5 argv)
        by (rewrite <- I1; apply elem_of_app; by left).
      revert Hin'. simpl. absent.
    + intros t1 f t2 Hsplit.
      assert (Hw : events_of Worker t1 = [] /\ f = arg argv 4).
      { destruct (processingThread s) as [|a q p st] eqn:Ht.
        - destruct I2 as [I2 _]. rewrite Hsplit, events_of_app in I2.
          apply app_eq_nil in I2 as [_ I2]. unfold events_of in I2.
          simpl in I2. discriminate I2.
        - destruct (reachable_spawn_args _ _ _ _ _ _ _ Hr Ht) as [-> ->].
          destruct I2 as [_ [n Hn]].
          assert (Hev : events_of Worker (trace s) ++ p = []
                        \/ events_of Worker (trace s) ++ p
                             = [EOpen (arg argv 4)])
            by (destruct (wsteps_unopened _ _ _ _ _ _ Hf Hn)
                  as [[-> _]|[-> _]]; auto).
          rewrite Hsplit, events_of_app in Hev.
          unfold events_of at 2 in Hev. simpl in Hev.
          fold (events_of Worker t2) in Hev. rewrite <- app_assoc in Hev.
          destruct (events_of Worker t1) as [|x l].
          + destruct Hev as [Hev|Hev]; [discriminate Hev |].
            simpl in Hev. by inversion Hev.
          + destruct Hev as [Hev|Hev]; [discriminate Hev |].
            simpl in Hev. inversion Hev as [[Hx Hl]].
            by destruct l. }
      destruct Hw as [Hw ->]. split; [done |]. split; [| done].
      destruct (I4 _ _ _ Hsplit) as (a & q & Hin).
      assert (Hin' : ESpawn a q ∈ events_of Main (trace s)).
      { apply elem_of_events_of. rewrite Hsplit. apply elem_of_app. by left. }
      destruct (main_spawn_args _ _ _ _ _ I1 Hin') as [-> ->]. done.
Qed.

(** C7, as the program has it: from the checks on, with fewer than 2^31
    descriptors, every image decoding and the abort key never seen,
    [ProcessImages] returns having called [TrackRGBD] for every
    descriptor once, in the order of the vectors, each call having
    returned before the next is made; the calls are as many as the
    descriptors. *)
Theorem each_descriptor_ingested_once W a seq st :
  w_pc st = PCheck ->
  length (vstrImageFilenamesRGB st) = length (vstrImageFilenamesD st) ->
  length (vstrImageFilenamesD st) = length (vTimestamps st) ->
  (Z.of_nat (length (vstrImageFilenamesRGB st)) < 2 ^ 31)%Z ->
  (forall p, p ∈ vstrImageFilenamesRGB st ++ vstrImageFilenamesD st ->
     Mat_empty (imread W p) = false) ->
  (forall j, to_char (waitKey W j) <> 27%Z) ->
  exists n evs st',
    wsteps W a seq n st = (evs, st') /\ returned st' = true
    /\ List.filter is_track evs =
         expected_calls W (vstrImageFilenamesRGB st) (vstrImageFilenamesD st)
           (vTimestamps st)
    /\ length (List.filter is_call evs) = length (vstrImageFilenamesRGB st).
Proof.
  intros Hpc HRD HDT Hsmall Hdec Hkey.
  apply frame_loop_ingests_all; try done.
  - intros p Hp. apply Hdec. apply elem_of_app. by left.
  - intros j. unfold is_abort. by apply Z.eqb_neq.
Qed.

(** C8: in the events of [ProcessImages] the polls of the key are as many
    as the calls of [TrackRGBD]; every return of [TrackRGBD] is followed
    at once by a poll, every poll follows at once a call of [TrackRGBD]
    and its return, and nothing follows a poll that saw the abort key. *)
Theorem abort_polled_once_after_each_ingestion W a seq n evs st :
  wsteps W a seq n ProcessImages_entry = (evs, st) ->
  length (List.filter is_poll evs) = length (List.filter is_call evs)
  /\ (forall e1 e2, evs = e1 ++ ETrackRet :: e2 ->
       exists key e3, e2 = EWaitKey key :: e3)
  /\ (forall e1 key e2, evs = e1 ++ EWaitKey key :: e2 ->
       exists e0 imRGB imD tframe,
         e1 = e0 ++ [ETrackCall imRGB imD tframe; ETrackRet])
  /\ (forall e1 key e2, evs = e1 ++ EWaitKey key :: e2 ->
       to_char key = 27%Z -> e2 = []).
Proof.
  intros Hrun. apply wsteps_polled in Hrun. repeat split.
  - rewrite (polled_count _ _ Hrun). lia.
  - intros e1 e2 ->. by eapply polled_ret_then_poll.
  - intros e1 key e2 ->.
    destruct (polled_poll_after_call _ _ _ _ Hrun) as [[? _]|[[? _]|?]]; done.
  - intros e1 key e2 -> Hk. eapply polled_abort_last; [done |].
    unfold is_abort. rewrite Hk. reflexivity.
Qed.

(** C9, at the input where the program misses it: when the manifest
    named on the command line cannot be opened the reading loop of the
    worker never ends, [main] never returns from [join], and the process
    never exits, with code 0 or any other. *)
Theorem unopened_manifest_never_exits W argv s :
  files W (arg argv 4) = None ->
  reachable W 5 argv s ->
  (forall fuel, ProcessImages W fuel (arg argv 4) (arg argv 3) = None)
  /\ (forall code, (Main, EReturn code) ∉ trace s)
  /\ (forall code, ~ exited s code).
Proof.
  intros Hf Hr.
  assert (Hnoret : forall code, (Main, EReturn code) ∉ trace s).
  { intros code Hin. apply (unopened_never_joined W argv s Hf Hr).
    pose proof (reachable_inv _ _ _ _ Hr) as (I1 & _).
    apply elem_of_events_of. apply elem_of_events_of in Hin.
    by eapply main_join_first. }
  split; [intros fuel; by apply ProcessImages_diverges |].
  split; [done |].
  intros code [_ Hin]. by eapply Hnoret.
Qed.

(** C10: at every point of [ProcessImages] the three vectors have the same
    length, the "do not match" branch has not been taken, no vector has
    been read out of its bounds, and in the frame loop every [ni] below
    [nImages] is an index of all three vectors. *)
Theorem vectors_equal_length_and_in_bounds W a seq n evs st :
  wsteps W a seq n ProcessImages_entry = (evs, st) ->
  length (vstrImageFilenamesRGB st) = length (vstrImageFilenamesD st)
  /\ length (vstrImageFilenamesD st) = length (vTimestamps st)
  /\ (ECerr msg_mismatch ∉ evs)
  /\ (w_pc st <> PFault)
  /\ (forall ni, w_pc st = PFrame ni -> (ni < nImages st)%Z ->
        is_Some (at_index (vstrImageFilenamesRGB st) ni)
        /\ is_Some (at_index (vstrImageFilenamesD st) ni)
        /\ is_Some (at_index (vTimestamps st) ni)).
Proof.
  intros Hrun.
  destruct (wsteps_vectors_ok _ _ _ _ _ _ _ vectors_ok_entry Hrun) as [Hok Hn].
  pose proof Hok as (HRD & HDT & Hpc).
  repeat split; try done.
  - intros Hf. by rewrite Hf in Hpc.
  - apply at_index_is_Some. eapply frame_in_bounds; eauto.
  - apply at_index_is_Some. rewrite <- HRD. eapply frame_in_bounds; eauto.
  - apply at_index_is_Some. rewrite <- HDT, <- HRD. eapply frame_in_bounds; eauto.
Qed.

End Properties.

(** * Further properties *)

Section Further.
Context `{Ext : External}.

Implicit Types (W : world) (st : wstate) (evs : list event).

(** ** Where the images are read from *)

Lemma at_index_elem {A} (v : list A) (i : Z) (x : A) :
  at_index v i = Some x -> x ∈ v.
Proof.
  unfold at_index. destruct (0 <=? i)%Z; [| done].
  apply list_elem_of_lookup_2.
Qed.

Lemma wstep_under_root W a seq st ev st' :
  (forall p, p ∈ vstrImageFilenamesRGB st ++ vstrImageFilenamesD st ->
     under_root seq p) ->
  wstep W a seq st = (ev, st') ->
  (forall p, p ∈ vstrImageFilenamesRGB st' ++ vstrImageFilenamesD st' ->
     under_root seq p)
  /\ (forall path, EImread path ∈ ev -> under_root seq path).
Proof.
  intros Hok Hstep. unfold wstep in Hstep.
  assert (Hnone : forall path, EImread path ∉ ([] : list event))
    by (intros path H; by apply elem_of_nil in H).
  destruct (w_pc st) as [| | |ni| |] eqn:Epc.
  - inversion Hstep; subst. split.
    + intros p Hp. by apply elem_of_nil in Hp.
    + intros path Hin. apply list_elem_of_singleton in Hin. discriminate.
  - destruct (eof (fAssociation st)).
    { inversion Hstep; subst. split; [done | intros path H; by apply Hnone in H]. }
    destruct (getline (fAssociation st) "") as [f l].
    destruct (is_empty l).
    { inversion Hstep; subst. split; [done | intros path H; by apply Hnone in H]. }
    destruct (parse_line _ l) as [[t sRGB] sD].
    inversion Hstep; subst. split; [| intros path H; by apply Hnone in H].
    simpl. intros p Hp.
    rewrite !elem_of_app, !list_elem_of_singleton in Hp.
    destruct Hp as [[Hp| ->]|[Hp| ->]].
    + apply Hok, elem_of_app. by left.
    + by exists sRGB.
    + apply Hok, elem_of_app. by right.
    + by exists sD.
  - destruct (vstrImageFilenamesRGB st) eqn:ER.
    { inversion Hstep; subst. split.
      - simpl. by rewrite ER.
      - intros path Hin. apply list_elem_of_singleton in Hin. discriminate. }
    destruct (negb _); inversion Hstep; subst; simpl; rewrite ?ER; split;
      try done.
    + intros path Hin. apply list_elem_of_singleton in Hin. discriminate.
    + intros path H. by apply Hnone in H.
  - destruct (ni <? nImages st)%Z;
      [| inversion Hstep; subst; split; [done | intros path H; by apply Hnone in H]].
    destruct (at_index (vstrImageFilenamesRGB st) ni) as [r|] eqn:Er;
      [| inversion Hstep; subst; split; [done | intros path H; by apply Hnone in H]].
    destruct (at_index (vstrImageFilenamesD st) ni) as [d|] eqn:Ed;
      [| inversion Hstep; subst; split; [done | intros path H; by apply Hnone in H]].
    destruct (at_index (vTimestamps st) ni) as [t|];
      [| inversion Hstep; subst; split; [done | intros path H; by apply Hnone in H]].
    apply at_index_elem in Er, Ed.
    assert (Hr : under_root seq r) by (apply Hok, elem_of_app; by left).
    assert (Hd : under_root seq d) by (apply Hok, elem_of_app; by right).
    destruct (Mat_empty _); inversion Hstep; subst; (split; [done |]);
      intros path Hin;
      repeat (apply elem_of_cons in Hin as [Hin|Hin];
              [try discriminate; by inversion Hin; subst |]);
      by apply elem_of_nil in Hin.
  - inversion Hstep; subst. split; [done | intros path H; by apply Hnone in H].
  - inversion Hstep; subst. split; [done | intros path H; by apply Hnone in H].
Qed.

Lemma wsteps_under_root W a seq n : forall st evs st',
  (forall p, p ∈ vstrImageFilenamesRGB st ++ vstrImageFilenamesD st ->
     under_root seq p) ->
  wsteps W a seq n st = (evs, st') ->
  (forall p, p ∈ vstrImageFilenamesRGB st' ++ vstrImageFilenamesD st' ->
     under_root seq p)
  /\ (forall path, EImread path ∈ evs -> under_root seq path).
Proof.
  induction n as [|n IH]; intros st evs st' Hok Hrun.
  { simpl in Hrun. inversion Hrun; subst. split; [done |].
    intros path H. by apply elem_of_nil in H. }
  destruct (halted st) eqn:Hh.
  { rewrite wsteps_halted in Hrun by done. inversion Hrun; subst.
    split; [done |]. intros path H. by apply elem_of_nil in H. }
  destruct (wstep W a seq st) as [ev st1] eqn:E1.
  rewrite (wsteps_S _ _ _ _ _ _ _ Hh E1) in Hrun.
  destruct (wsteps W a seq n st1) as [evs2 st2] eqn:E2. simpl in Hrun.
  inversion Hrun; subst.
  destruct (wstep_under_root _ _ _ _ _ _ Hok E1) as [Hok1 Hev1].
  destruct (IH _ _ _ Hok1 E2) as [Hok2 Hev2].
  split; [done |]. intros path Hin. apply elem_of_app in Hin as [Hin|Hin]; auto.
Qed.

(** X1: whatever the manifest holds, every path given to [cv::imread]
    and every path kept in the two vectors is the sequence path, a slash,
    and what a line of the manifest gave. *)
Theorem images_read_below_sequence_path W a seq n evs st :
  wsteps W a seq n ProcessImages_entry = (evs, st) ->
  (forall path, EImread path ∈ evs -> under_root seq path)
  /\ (forall p, p ∈ vstrImageFilenamesRGB st ++ vstrImageFilenamesD st ->
        under_root seq p).
Proof.
  intros Hrun.
  destruct (wsteps_under_root W a seq n ProcessImages_entry evs st) as [H1 H2];
    [| done | done].
  intros p Hp. by apply elem_of_nil in Hp.
Qed.

(** ** When [ProcessImages] returns *)

Lemma ProcessImages_stable W a seq fuel fuel' evs :
  ProcessImages W fuel a seq = Some evs -> fuel <= fuel' ->
  ProcessImages W fuel' a seq = Some evs.
Proof.
  unfold ProcessImages. intros Hp Hle.
  destruct (wsteps W a seq fuel ProcessImages_entry) as [evs1 st1] eqn:H1.
  destruct (returned st1) eqn:Hret; [| done]. inversion Hp; subst evs1.
  pose proof (wsteps_halted W a seq (fuel' - fuel) st1 (returned_halted _ Hret))
    as H2.
  pose proof (wsteps_add _ _ _ _ _ _ _ _ _ _ H1 H2) as Hall.
  replace (fuel + (fuel' - fuel)) with fuel' in Hall by lia.
  by rewrite Hall, Hret, app_nil_r.
Qed.

(** The frame loop is left after as many turns as frames are left, and
    one. *)
Lemma frame_loop_returns_within W a s m : forall st ni,
  vectors_ok st -> w_pc st = PFrame ni ->
  (nImages st - ni <= Z.of_nat m)%Z ->
  exists n evs st',
    n <= S m /\ wsteps W a s n st = (evs, st') /\ returned st' = true.
Proof.
  induction m as [|m IH]; intros st ni Hok Hpc Hm.
  - exists 1, [], (at_pc PReturn st). split; [lia |].
    assert (Hh : halted st = false) by (unfold halted; by rewrite Hpc).
    rewrite (wsteps_S W a s 0 st [] (at_pc PReturn st) Hh); [done |].
    unfold wstep. rewrite Hpc.
    destruct (Z.ltb_spec ni (nImages st)); [lia | done].
  - assert (Hh : halted st = false) by (unfold halted; by rewrite Hpc).
    destruct (wstep W a s st) as [ev st1] eqn:Es.
    destruct (wstep_vectors_ok _ _ _ _ _ _ Hok Es) as [Hok1 _].
    assert (Hcases : returned st1 = true
              \/ (w_pc st1 = PFrame (ni + 1) /\ nImages st1 = nImages st)).
    { pose proof Hok1 as (_ & _ & Hpc1).
      unfold wstep in Es. rewrite Hpc in Es.
      destruct (ni <? nImages st)%Z; [| inversion Es; by left].
      destruct (at_index _ ni); [| inversion Es; subst; done].
      destruct (at_index _ ni); [| inversion Es; subst; done].
      destruct (at_index _ ni); [| inversion Es; subst; done].
      destruct (Mat_empty _); [inversion Es; by left |].
      inversion Es; subst. unfold returned. simpl.
      destruct (to_char _ =? 27)%Z; [by left | by right]. }
    destruct Hcases as [Hret|[Hpc1 Hn1]].
    + exists 1, ev, st1. split; [lia |].
      rewrite (wsteps_S _ _ _ _ _ _ _ Hh Es). simpl. by rewrite app_nil_r.
    + destruct (IH st1 (ni + 1)%Z Hok1 Hpc1)
        as (n & evs & st' & Hle & Hrun & Hret); [lia |].
      exists (S n), (ev ++ evs), st'. split; [lia |].
      rewrite (wsteps_S _ _ _ _ _ _ _ Hh Es), Hrun. done.
Qed.

(** On a manifest that is read to its end: one turn of the reading loop
    for each line and one to leave it, the checks, and at most one turn
    of the frame loop for each descriptor and one to leave it. *)
Lemma ProcessImages_returns_within W a s b :
  files W a = Some b ->
  exists evs,
    ProcessImages W (length (split_lines b) + length (nonempty_lines b) + 4) a s
      = Some evs.
Proof.
  intros Hb. destruct (loaded W a s b Hb) as (st1 & Hrun1 & Hpc1 & Hd & _).
  destruct (wsteps_vectors_ok _ _ _ _ _ _ _ vectors_ok_entry Hrun1) as [Hok1 _].
  assert (Hlen : length (vstrImageFilenamesRGB st1) = length (nonempty_lines b)).
  { pose proof (load_lines_length W s (split_lines b) ([], [], [])) as Hlen.
    simpl in Hlen. rewrite <- Hd in Hlen. unfold descriptors in Hlen.
    simpl in Hlen. unfold nonempty_lines. by destruct Hlen as (-> & _). }
  assert (Hh1 : halted st1 = false) by (unfold halted; by rewrite Hpc1).
  destruct (wstep W a s st1) as [ev st2] eqn:Es.
  destruct (wstep_vectors_ok _ _ _ _ _ _ Hok1 Es) as [Hok2 _].
  assert (Hstep1 : wsteps W a s 1 st1 = (ev, st2)).
  { rewrite (wsteps_S _ _ _ _ _ _ _ Hh1 Es). simpl. by rewrite app_nil_r. }
  assert (Hcases : returned st2 = true
            \/ (w_pc st2 = PFrame 0
                /\ (nImages st2 <= Z.of_nat (length (nonempty_lines b)))%Z)).
  { unfold wstep in Es. rewrite Hpc1 in Es.
    destruct (vstrImageFilenamesRGB st1) eqn:ER; [inversion Es; by left |].
    destruct (negb _); inversion Es; [by left |]. right. split; [done |].
    simpl. rewrite <- Hlen. apply to_int_le. lia. }
  assert (exists n evs st',
            n <= S (length (nonempty_lines b))
            /\ wsteps W a s n st2 = (evs, st') /\ returned st' = true)
    as (n & evs & st' & Hle & Hrun & Hret).
  { destruct Hcases as [Hret|[Hpc2 Hn2]].
    - exists 0, [], st2. split; [lia | done].
    - eapply (frame_loop_returns_within W a s (length (nonempty_lines b)));
        [done | apply Hpc2 | lia]. }
  pose proof (wsteps_add _ _ _ _ _ _ _ _ _ _ Hstep1 Hrun) as H23.
  pose proof (wsteps_add _ _ _ _ _ _ _ _ _ _ Hrun1 H23) as Hall.
  exists ([EOpen a] ++ ev ++ evs).
  apply (ProcessImages_stable W a s
           (S (S (length (split_lines b))) + (1 + n))); [| lia].
  unfold ProcessImages. rewrite Hall. by rewrite Hret.
Qed.

(** X2: [ProcessImages] returns exactly when the association file can be
    opened and is read to its end, whatever the file holds, whatever the
    images and the keys.  It has then returned after no more turns of its
    loops than the file has lines and lines that are not empty, and four.
    On a name that cannot be opened, and on a directory, which can be
    opened and not read, it never returns. *)
Theorem ProcessImages_returns_iff_manifest_read W a seq :
  ((exists fuel evs, ProcessImages W fuel a seq = Some evs)
   <-> (exists b, files W a = Some b))
  /\ (forall b, files W a = Some b ->
        exists evs,
          ProcessImages W
            (length (split_lines b) + length (nonempty_lines b) + 4) a seq
            = Some evs)
  /\ (files W a = None -> forall fuel, ProcessImages W fuel a seq = None).
Proof.
  split; [split | split].
  - intros (fuel & evs & Hp). destruct (files W a) as [b|] eqn:Hf; [eauto |].
    by rewrite (ProcessImages_diverges W a seq fuel Hf) in Hp.
  - intros [b Hb]. by eapply ProcessImages_returns.
  - intros b. apply ProcessImages_returns_within.
  - intros Hf fuel. by apply ProcessImages_diverges.
Qed.

(** ** Lines that are not of four fields *)

Lemma good_failed b e bad io : good (mk_istream b e true bad io) = false.
Proof. unfold good. simpl. by rewrite andb_false_r. Qed.

Lemma good_set_failbit f : good (set_failbit f) = false.
Proof. apply good_failed. Qed.

Lemma good_at_end f : good (at_end f true) = false.
Proof. unfold at_end. destruct (ioerr f); apply good_failed. Qed.

Lemma good_after_read f r : good (after_read f r true) = false.
Proof.
  unfold after_read. destruct (is_empty r); [apply good_at_end |].
  apply good_failed.
Qed.

Lemma sentry_not_good f :
  good f = false -> sentry f = (set_failbit f, false).
Proof. unfold sentry. by intros ->. Qed.

Lemma extract_string_not_good f x :
  good f = false -> extract_string f x = (set_failbit f, x).
Proof. intros Hf. unfold extract_string. by rewrite sentry_not_good. Qed.

Lemma extract_double_not_good f (t : double) :
  good f = false -> extract_double f t = (set_failbit f, t).
Proof. intros Hf. unfold extract_double. by rewrite sentry_not_good. Qed.

(** After a failed extraction the others do nothing. *)
Lemma parse_rest_not_good f (t : double) :
  good f = false ->
  (let '(ss, sRGB) := extract_string f "" in
   let '(ss, t) := extract_double ss t in
   let '(ss, sD) := extract_string ss "" in
   (t, sRGB, sD)) = (t, "", "").
Proof.
  intros Hf. rewrite (extract_string_not_good f "" Hf).
  rewrite extract_double_not_good by apply good_set_failbit.
  by rewrite extract_string_not_good by apply good_set_failbit.
Qed.

Lemma skipws_all_spaces b : all_chars isspace b = true -> skipws b = "".
Proof.
  intros Hb. rewrite <- (append_empty_r b). by rewrite (skipws_spaces b "" Hb).
Qed.

Lemma parse_line_spaces (t0 : double) b :
  all_chars isspace b = true -> parse_line t0 b = (t0, "", "").
Proof.
  intros Hb. unfold parse_line. unfold extract_double at 1.
  unfold sentry at 1. simpl. rewrite (skipws_all_spaces b Hb).
  apply parse_rest_not_good, good_at_end.
Qed.

Lemma parse_line_not_a_number (t0 : double) line r :
  is_empty (skipws line) = false ->
  num_get (skipws line) = (None, r) ->
  parse_line t0 line = (double_zero, "", "").
Proof.
  intros Hne Hn. unfold parse_line. unfold extract_double at 1.
  unfold sentry at 1. simpl.
  destruct (skipws line) as [|c l] eqn:Hs; [done |]. cbn [rdbuf].
  rewrite Hn. apply parse_rest_not_good, good_after_read.
Qed.

(** X5: a line of white space only is not taken for an empty line: the
    reading loop appends a descriptor for it, whose timestamp is what the
    uninitialised [t] holds and whose two paths are the sequence path
    and a slash. *)
Theorem blank_line_yields_descriptor W a seq st line rest e :
  w_pc st = PLoad -> good (fAssociation st) = true ->
  read_line (rdbuf (fAssociation st)) = (line, rest, e) ->
  blanks line = true ->
  exists st',
    wstep W a seq st = ([], st') /\ w_pc st' = PLoad
    /\ vTimestamps st'
         = vTimestamps st ++ [uninit_double W (length (vTimestamps st))]
    /\ vstrImageFilenamesRGB st' = vstrImageFilenamesRGB st ++ [seq +:+ "/"]
    /\ vstrImageFilenamesD st' = vstrImageFilenamesD st ++ [seq +:+ "/"].
Proof.
  intros Hpc Hg Hr Hb.
  eapply (wstep_push W a seq st line rest e _ "" ""); try done.
  - apply blanks_cons in Hb as (c & b' & -> & _). done.
  - apply parse_line_spaces. by apply blanks_spaces.
Qed.

(** X6: a line that does not begin with a number: the first extraction
    fails, writes 0 to [t] and leaves the stream failed, so that nothing
    else is read; the reading loop appends a descriptor with timestamp 0
    and with the sequence path and a slash for both paths. *)
Theorem text_line_yields_zero_descriptor W a seq st line rest e r :
  w_pc st = PLoad -> good (fAssociation st) = true ->
  read_line (rdbuf (fAssociation st)) = (line, rest, e) ->
  is_empty (skipws line) = false ->
  num_get (skipws line) = (None, r) ->
  exists st',
    wstep W a seq st = ([], st') /\ w_pc st' = PLoad
    /\ vTimestamps st' = vTimestamps st ++ [double_zero]
    /\ vstrImageFilenamesRGB st' = vstrImageFilenamesRGB st ++ [seq +:+ "/"]
    /\ vstrImageFilenamesD st' = vstrImageFilenamesD st ++ [seq +:+ "/"].
Proof.
  intros Hpc Hg Hr Hne Hn.
  eapply (wstep_push W a seq st line rest e _ "" ""); try done.
  - by destruct line.
  - by eapply parse_line_not_a_number.
Qed.

(** ** The abort key *)

Lemma is_abort_mod key : is_abort key = true <-> (key mod 256 = 27)%Z.
Proof.
  unfold is_abort, to_char.
  pose proof (Z.mod_pos_bound key 256 ltac:(lia)).
  destruct (Z.ltb_spec (key mod 256) 128); rewrite Z.eqb_eq; lia.
Qed.

(** X10: after a frame has been tracked the loop is left exactly when
    the value of [cv::waitKey], reduced to a [char], is 27: that is when
    its low eight bits are 27, whatever the bits above them; otherwise
    the loop goes on with the next frame. *)
Theorem abort_on_low_byte W a seq st i r d t :
  w_pc st = PFrame (Z.of_nat i) -> (Z.of_nat i < nImages st)%Z ->
  vstrImageFilenamesRGB st !! i = Some r ->
  vstrImageFilenamesD st !! i = Some d ->
  vTimestamps st !! i = Some t ->
  Mat_empty (imread W r) = false ->
  exists st',
    wstep W a seq st = (frame_events W (w_polls st) r d t, st')
    /\ ((waitKey W (w_polls st) mod 256 = 27)%Z -> w_pc st' = PReturn)
    /\ ((waitKey W (w_polls st) mod 256 <> 27)%Z ->
          w_pc st' = PFrame (Z.of_nat (S i))).
Proof.
  intros Hpc Hlt Hr Hd Ht Hm. eexists. split; [by apply wstep_frame |].
  simpl. split; intros Hk.
  - apply is_abort_mod in Hk. by rewrite Hk.
  - destruct (is_abort (waitKey W (w_polls st))) eqn:Ha; [| done].
    by apply is_abort_mod in Ha.
Qed.

(** ** Manifests and their descriptors *)

Lemma load_lines_nonempty W seq ls : forall v,
  load_lines W seq ls v
    = load_lines W seq (filter (fun l => is_empty l = false) ls) v.
Proof.
  unfold load_lines. induction ls as [|l ls IH]; intros v; [done |].
  simpl. destruct (is_empty l) eqn:El.
  - rewrite filter_cons_False by (rewrite El; done).
    unfold add_line at 2. rewrite El. apply IH.
  - rewrite filter_cons_True by done. simpl. apply IH.
Qed.

(** X4: the descriptors depend on the lines of the manifest that are not
    empty, and on nothing else: two manifests with the same such lines,
    in the same order, whatever empty lines lie between them and whether
    or not the last line ends with a newline, are loaded to the same
    three vectors. *)
Theorem empty_lines_do_not_count W a1 a2 seq b1 b2 :
  files W a1 = Some b1 -> files W a2 = Some b2 ->
  nonempty_lines b1 = nonempty_lines b2 ->
  exists n1 n2 st1 st2,
    wsteps W a1 seq n1 ProcessImages_entry = ([EOpen a1], st1)
    /\ wsteps W a2 seq n2 ProcessImages_entry = ([EOpen a2], st2)
    /\ w_pc st1 = PCheck /\ w_pc st2 = PCheck
    /\ descriptors st1 = descriptors st2.
Proof.
  intros H1 H2 Heq.
  destruct (loaded W a1 seq b1 H1) as (st1 & Hrun1 & Hpc1 & Hd1 & _).
  destruct (loaded W a2 seq b2 H2) as (st2 & Hrun2 & Hpc2 & Hd2 & _).
  eexists _, _, st1, st2. repeat split; try done.
  rewrite Hd1, Hd2, load_lines_nonempty, (load_lines_nonempty _ _ (split_lines b2)).
  unfold nonempty_lines in Heq. by rewrite Heq.
Qed.

Lemma split_lines_unlines ls :
  Forall (fun l => all_chars (fun x => negb (is_newline x)) l = true) ls ->
  split_lines (unlines ls) = ls ++ [""].
Proof.
  induction 1 as [|l ls Hl _ IH]; [done |].
  cbn [unlines]. by rewrite (split_lines_line _ _ Hl), IH.
Qed.

Lemma four_fields_parse (t0 v : double) line c d :
  four_fields line c d v ->
  is_empty line = false /\ parse_line t0 line = (v, c, d).
Proof.
  intros (tok1 & b1 & b2 & tok2 & b3 & v1 & -> & _ & H1 & Hb1 & Hc & Hb2 & H2
          & Hb3 & Hd & Hn1 & Hn2).
  split; [by apply token_not_empty | by eapply parse_line_four].
Qed.

Lemma load_lines_well_formed W seq (fs : list frame_line) : forall rs ds ts,
  Forall well_formed fs ->
  load_lines W seq (List.map fl_text fs) (rs, ds, ts)
    = (rs ++ List.map (fun f => seq +:+ "/" +:+ fl_rgb f) fs,
       ds ++ List.map (fun f => seq +:+ "/" +:+ fl_depth f) fs,
       ts ++ List.map fl_time fs).
Proof.
  induction fs as [|f fs IH]; intros rs ds ts Hall.
  { simpl. by rewrite !app_nil_r. }
  apply Forall_cons in Hall as [Hf Hall].
  unfold load_lines in *. simpl.
  destruct (four_fields_parse (uninit_double W (length ts)) _ _ _ _ Hf)
    as [He Hp].
  unfold add_line at 2. rewrite He, Hp.
  rewrite (IH _ _ _ Hall). by rewrite <- !app_assoc.
Qed.

(** X3: a manifest of well-formed lines, each ended by a newline, is
    loaded to one descriptor for each line, in the order of the file:
    the colour path and the depth path of the line, each after the
    sequence path and a slash, and the value of the second timestamp of
    the line.  No message is written. *)
Theorem well_formed_manifest_loaded_in_order W a seq (fs : list frame_line) :
  Forall well_formed fs ->
  files W a = Some (unlines (List.map fl_text fs)) ->
  exists n st,
    wsteps W a seq n ProcessImages_entry = ([EOpen a], st)
    /\ w_pc st = PCheck
    /\ vstrImageFilenamesRGB st
         = List.map (fun f => seq +:+ "/" +:+ fl_rgb f) fs
    /\ vstrImageFilenamesD st
         = List.map (fun f => seq +:+ "/" +:+ fl_depth f) fs
    /\ vTimestamps st = List.map fl_time fs.
Proof.
  intros Hall Hb.
  destruct (loaded W a seq _ Hb) as (st & Hrun & Hpc & Hd & _).
  eexists _, st. split; [exact Hrun |]. split; [done |].
  rewrite split_lines_unlines in Hd.
  2:{ apply Forall_fmap. eapply Forall_impl; [exact Hall |].
      intros f (tok1 & b1 & b2 & tok2 & b3 & v1 & _ & Hnl & _). exact Hnl. }
  rewrite load_lines_nonempty, filter_app in Hd.
  rewrite (filter_cons_False _ "") in Hd by (simpl; congruence).
  rewrite filter_nil, app_nil_r, <- load_lines_nonempty in Hd.
  rewrite (load_lines_well_formed W seq fs [] [] [] Hall) in Hd.
  unfold descriptors in Hd. by inversion Hd.
Qed.

(** ** The frames that are tracked, in every run *)

Lemma frame_phase_calls W a seq k : forall i st evs st',
  w_pc st = PFrame (Z.of_nat i) ->
  wsteps W a seq k st = (evs, st') ->
  descriptors st' = descriptors st
  /\ exists m,
       List.filter is_track evs =
         expected_calls W (take m (drop i (vstrImageFilenamesRGB st)))
           (take m (drop i (vstrImageFilenamesD st)))
           (take m (drop i (vTimestamps st))).
Proof.
  induction k as [|k IH]; intros i st evs st' Hpc Hrun.
  { simpl in Hrun. inversion Hrun; subst. split; [done |]. by exists 0. }
  assert (Hh : halted st = false) by (unfold halted; by rewrite Hpc).
  assert (Hstop : forall ev p,
            wstep W a seq st = (ev, at_pc p st) -> List.filter is_track ev = [] ->
            halted (at_pc p st) = true ->
            descriptors st' = descriptors st
            /\ exists m,
                 List.filter is_track evs =
                   expected_calls W (take m (drop i (vstrImageFilenamesRGB st)))
                     (take m (drop i (vstrImageFilenamesD st)))
                     (take m (drop i (vTimestamps st)))).
  { intros ev p Hs Hev Hhp. rewrite (wsteps_S _ _ _ _ _ _ _ Hh Hs) in Hrun.
    rewrite wsteps_halted in Hrun by done. simpl in Hrun.
    inversion Hrun; subst. split; [done |]. exists 0.
    by rewrite app_nil_r, Hev. }
  destruct (Z.ltb_spec (Z.of_nat i) (nImages st)) as [Hlt|Hge].
  2:{ apply (Hstop [] PReturn); try done. unfold wstep. rewrite Hpc.
      by destruct (Z.ltb_spec (Z.of_nat i) (nImages st)); [lia |]. }
  destruct (vstrImageFilenamesRGB st !! i) as [r|] eqn:Er.
  2:{ apply (Hstop [] PFault); try done. unfold wstep. rewrite Hpc.
      destruct (Z.ltb_spec (Z.of_nat i) (nImages st)); [| lia].
      by rewrite !at_index_nat, Er. }
  destruct (vstrImageFilenamesD st !! i) as [d|] eqn:Ed.
  2:{ apply (Hstop [] PFault); try done. unfold wstep. rewrite Hpc.
      destruct (Z.ltb_spec (Z.of_nat i) (nImages st)); [| lia].
      by rewrite !at_index_nat, Er, Ed. }
  destruct (vTimestamps st !! i) as [t|] eqn:Et.
  2:{ apply (Hstop [] PFault); try done. unfold wstep. rewrite Hpc.
      destruct (Z.ltb_spec (Z.of_nat i) (nImages st)); [| lia].
      by rewrite !at_index_nat, Er, Ed, Et. }
  destruct (Mat_empty (imread W r)) eqn:Hm.
  { apply (Hstop [EImread r; EImread d; ECerr (msg_failed_load r)] PReturn);
      try done.
    by apply colour_failure_returns with (i := i) (t := t). }
  pose proof (wstep_frame W a seq st i r d t Hpc Hlt Er Ed Et Hm) as Hs.
  rewrite (wsteps_S _ _ _ _ _ _ _ Hh Hs) in Hrun.
  rewrite (drop_S _ _ _ Er), (drop_S _ _ _ Ed), (drop_S _ _ _ Et).
  destruct (is_abort (waitKey W (w_polls st))).
  - rewrite wsteps_halted in Hrun by done. simpl in Hrun.
    inversion Hrun; subst. split; [done |]. by exists 1.
  - match type of Hrun with context [wsteps W a seq k ?x] => set (st1 := x) in * end.
    destruct (wsteps W a seq k st1) as [evs2 st2] eqn:E2.
    destruct (IH (S i) st1 evs2 st2 eq_refl E2) as [Hd' [m Hm']].
    simpl in Hrun. inversion Hrun; subst. split; [done |].
    exists (S m). simpl. by rewrite Hm'.
Qed.

Lemma wstep_before_frames W a seq st ev st1 :
  before_frames st = true -> wstep W a seq st = (ev, st1) ->
  List.filter is_track ev = []
  /\ (before_frames st1 = true \/ w_pc st1 = PReturn \/ w_pc st1 = PFrame 0).
Proof.
  unfold before_frames, wstep. intros Hb Hs.
  destruct (w_pc st) eqn:Hpc; try done.
  - inversion Hs; subst. split; [done | by left].
  - destruct (eof _); [inversion Hs; subst; split; [done | by left] |].
    destruct (getline _ _) as [f l].
    destruct (is_empty l); [inversion Hs; subst; split; [done | by left] |].
    destruct (parse_line _ l) as [[t sRGB] sD].
    inversion Hs; subst. split; [done | by left].
  - destruct (vstrImageFilenamesRGB st);
      [inversion Hs; subst; split; [done | right; by left] |].
    destruct (negb _); inversion Hs; subst; (split; [done |]);
      right; [by left | by right].
Qed.

Lemma calls_before_frames W a seq k : forall st evs st',
  before_frames st = true ->
  wsteps W a seq k st = (evs, st') ->
  exists m,
    List.filter is_track evs =
      expected_calls W (take m (vstrImageFilenamesRGB st'))
        (take m (vstrImageFilenamesD st')) (take m (vTimestamps st')).
Proof.
  induction k as [|k IH]; intros st evs st' Hb Hrun.
  { simpl in Hrun. inversion Hrun; subst. by exists 0. }
  assert (Hh : halted st = false).
  { unfold before_frames in Hb. unfold halted. by destruct (w_pc st). }
  destruct (wstep W a seq st) as [ev st1] eqn:Hs.
  rewrite (wsteps_S _ _ _ _ _ _ _ Hh Hs) in Hrun.
  destruct (wsteps W a seq k st1) as [evs2 st2] eqn:E2. simpl in Hrun.
  inversion Hrun; subst.
  destruct (wstep_before_frames _ _ _ _ _ _ Hb Hs) as [Hev [Hb1|[Hret|Hf]]];
    rewrite List.filter_app, Hev; simpl.
  - by eapply IH.
  - rewrite wsteps_halted in E2 by (unfold halted; by rewrite Hret).
    inversion E2; subst. by exists 0.
  - destruct (frame_phase_calls W a seq k 0 st1 evs2 st' Hf E2) as [Hd [m Hm]].
    unfold descriptors in Hd. inversion Hd as [[HR HD HT]].
    exists m. by rewrite Hm, HR, HD, HT.
Qed.

Lemma filter_call_track (l : list event) :
  List.filter is_call (List.filter is_track l) = List.filter is_call l.
Proof.
  induction l as [|e l IH]; [done |].
  simpl. destruct e; simpl; by rewrite ?IH.
Qed.

Lemma expected_calls_count W rs : forall ds ts,
  length (List.filter is_call (expected_calls W rs ds ts)) <= length rs.
Proof.
  induction rs as [|r rs IH]; intros ds ts; [done |].
  destruct ds as [|d ds]; [simpl; lia |]. destruct ts as [|t ts]; [simpl; lia |].
  simpl. specialize (IH ds ts). lia.
Qed.

(** X7: in every run of [ProcessImages], however it ends, the calls of
    [TrackRGBD] with their returns are those of the first so many
    descriptors, one call for each, in the order of the vectors, every
    call with the images read from its own two paths and with its own
    timestamp, and every call returned before the next: no frame is
    tracked twice, none is passed over, and the calls are never more
    than the descriptors. *)
Theorem frames_tracked_in_order W a seq n evs st :
  wsteps W a seq n ProcessImages_entry = (evs, st) ->
  exists m,
    List.filter is_track evs =
      expected_calls W (take m (vstrImageFilenamesRGB st))
        (take m (vstrImageFilenamesD st)) (take m (vTimestamps st))
    /\ length (List.filter is_call evs) <= length (vstrImageFilenamesRGB st).
Proof.
  intros Hrun.
  destruct (calls_before_frames W a seq n ProcessImages_entry evs st eq_refl Hrun)
    as [m Hm].
  exists m. split; [done |].
  rewrite <- filter_call_track, Hm.
  etrans; [apply expected_calls_count |]. rewrite length_take. lia.
Qed.

(** ** Where the frame loop stops *)

(** [k] frames whose colour images decode, no abort key after any. *)
Lemma frame_loop_upto W a seq k : forall i st,
  w_pc st = PFrame (Z.of_nat i) ->
  (Z.of_nat (i + k) <= nImages st)%Z ->
  i + k <= length (vstrImageFilenamesRGB st) ->
  i + k <= length (vstrImageFilenamesD st) ->
  i + k <= length (vTimestamps st) ->
  (forall j r, i <= j < i + k -> vstrImageFilenamesRGB st !! j = Some r ->
     Mat_empty (imread W r) = false) ->
  (forall j, j < k -> is_abort (waitKey W (w_polls st + j)) = false) ->
  wsteps W a seq k st =
    (ingest_all W (w_polls st) (take k (drop i (vstrImageFilenamesRGB st)))
       (take k (drop i (vstrImageFilenamesD st)))
       (take k (drop i (vTimestamps st))),
     mk_wstate (PFrame (Z.of_nat (i + k))) (fAssociation st)
       (vstrImageFilenamesRGB st) (vstrImageFilenamesD st) (vTimestamps st)
       (nImages st) (w_polls st + k)).
Proof.
  induction k as [|k IH]; intros i st Hpc Hn HR HD HT Hdec Hkey.
  { simpl. rewrite !Nat.add_0_r. destruct st. simpl in *. by subst. }
  destruct (lookup_lt_is_Some_2 (vstrImageFilenamesRGB st) i) as [r Hr]; [lia |].
  destruct (lookup_lt_is_Some_2 (vstrImageFilenamesD st) i) as [d Hd]; [lia |].
  destruct (lookup_lt_is_Some_2 (vTimestamps st) i) as [t Ht]; [lia |].
  assert (Hh : halted st = false) by (unfold halted; by rewrite Hpc).
  assert (Hm : Mat_empty (imread W r) = false) by (apply (Hdec i); [lia | done]).
  pose proof (wstep_frame W a seq st i r d t Hpc ltac:(lia) Hr Hd Ht Hm) as Hs.
  pose proof (Hkey 0 ltac:(lia)) as Hk0. rewrite Nat.add_0_r in Hk0.
  rewrite Hk0 in Hs.
  rewrite (wsteps_S _ _ _ _ _ _ _ Hh Hs).
  match type of Hs with _ = (_, ?x) => set (st1 := x) in * end.
  rewrite (IH (S i) st1); try done; try (simpl; lia).
  - rewrite (drop_S _ _ _ Hr), (drop_S _ _ _ Hd), (drop_S _ _ _ Ht).
    simpl. replace (S (i + k)) with (i + S k) by lia.
    by replace (S (w_polls st + k)) with (w_polls st + S k) by lia.
  - simpl. intros j r' Hj. apply Hdec. lia.
  - simpl. intros j Hj.
    replace (S (w_polls st + j)) with (w_polls st + S j) by lia.
    apply Hkey. lia.
Qed.

Lemma ingest_all_snoc W rs : forall p ds ts r d t,
  length rs = length ds -> length ds = length ts ->
  ingest_all W p (rs ++ [r]) (ds ++ [d]) (ts ++ [t])
    = ingest_all W p rs ds ts ++ frame_events W (p + length rs) r d t.
Proof.
  induction rs as [|x rs IH]; intros p ds ts r d t H1 H2.
  { destruct ds; [| done]. destruct ts; [| done]. simpl.
    by rewrite Nat.add_0_r. }
  destruct ds as [|y ds]; [done |]. destruct ts as [|z ts]; [done |].
  simpl in *. rewrite IH by lia.
  replace (S p + length rs) with (p + S (length rs)) by lia. done.
Qed.

(** From the checks into the frame loop. *)
Lemma wstep_check W a seq st :
  w_pc st = PCheck -> vstrImageFilenamesRGB st <> [] ->
  length (vstrImageFilenamesRGB st) = length (vstrImageFilenamesD st) ->
  (Z.of_nat (length (vstrImageFilenamesRGB st)) < 2 ^ 31)%Z ->
  wstep W a seq st =
    ([], mk_wstate (PFrame (Z.of_nat 0)) (fAssociation st)
           (vstrImageFilenamesRGB st) (vstrImageFilenamesD st) (vTimestamps st)
           (Z.of_nat (length (vstrImageFilenamesRGB st))) (w_polls st)).
Proof.
  intros Hpc Hne HRD Hsmall. unfold wstep.
  rewrite Hpc, <- HRD, Nat.eqb_refl. simpl. rewrite to_int_small by lia.
  by destruct (vstrImageFilenamesRGB st).
Qed.

Lemma calls_of_ingest_all W p rs ds ts tail :
  length rs = length ds -> length ds = length ts ->
  List.filter is_call tail = [] ->
  length (List.filter is_call (ingest_all W p rs ds ts ++ tail)) = length rs.
Proof.
  intros H1 H2 Ht.
  by rewrite List.filter_app, Ht, app_nil_r, ingest_all_count.
Qed.

(** X8: with fewer than 2^31 descriptors, when the colour image of
    frame [k] (counted from 0) is the first that does not decode, and
    the abort key is not seen before, the
    frames before it are tracked one after the other, both images of
    frame [k] are read, the message naming its colour path is written,
    and [ProcessImages] returns: [TrackRGBD] has been called [k] times,
    not for frame [k] and not for any frame after it. *)
Theorem colour_failure_stops_at_frame W a seq st k r d :
  w_pc st = PCheck ->
  length (vstrImageFilenamesRGB st) = length (vstrImageFilenamesD st) ->
  length (vstrImageFilenamesD st) = length (vTimestamps st) ->
  (Z.of_nat (length (vstrImageFilenamesRGB st)) < 2 ^ 31)%Z ->
  vstrImageFilenamesRGB st !! k = Some r ->
  vstrImageFilenamesD st !! k = Some d ->
  Mat_empty (imread W r) = true ->
  (forall j r', j < k -> vstrImageFilenamesRGB st !! j = Some r' ->
     Mat_empty (imread W r') = false) ->
  (forall j, j < k -> to_char (waitKey W (w_polls st + j)) <> 27%Z) ->
  exists n evs st',
    wsteps W a seq n st = (evs, st') /\ returned st' = true
    /\ evs = ingest_all W (w_polls st) (take k (vstrImageFilenamesRGB st))
               (take k (vstrImageFilenamesD st)) (take k (vTimestamps st))
             ++ [EImread r; EImread d; ECerr (msg_failed_load r)]
    /\ length (List.filter is_call evs) = k.
Proof.
  intros Hpc HRD HDT Hsmall Hr Hd Hm Hdec Hkey.
  pose proof (lookup_lt_Some _ _ _ Hr) as Hk.
  destruct (lookup_lt_is_Some_2 (vTimestamps st) k) as [t Ht]; [lia |].
  assert (Hh : halted st = false) by (unfold halted; by rewrite Hpc).
  assert (Hne : vstrImageFilenamesRGB st <> []).
  { intros E. rewrite E in Hk. simpl in Hk. lia. }
  pose proof (wstep_check W a seq st Hpc Hne HRD Hsmall) as Hs0.
  match type of Hs0 with _ = (_, ?x) => set (st1 := x) in * end.
  assert (H1 : wsteps W a seq 1 st = ([], st1))
    by (by rewrite (wsteps_S _ _ _ _ _ _ _ Hh Hs0)).
  pose proof (frame_loop_upto W a seq k 0 st1 eq_refl) as H2.
  simpl in H2. rewrite !drop_0 in H2.
  specialize (H2 ltac:(lia) ltac:(lia) ltac:(lia) ltac:(lia)).
  specialize (H2 ltac:(intros j r' Hj; apply Hdec; lia)).
  specialize (H2 ltac:(intros j Hj; unfold is_abort; apply Z.eqb_neq; by apply Hkey)).
  match type of H2 with _ = (_, ?x) => set (st2 := x) in * end.
  assert (H3 : wsteps W a seq 1 st2
               = ([EImread r; EImread d; ECerr (msg_failed_load r)],
                  at_pc PReturn st2)).
  { pose proof (colour_failure_returns W a seq st2 k r d t eq_refl
                  ltac:(simpl; lia) Hr Hd Ht Hm) as Hs2.
    by rewrite (wsteps_S W a seq 0 st2 _ _ eq_refl Hs2). }
  pose proof (wsteps_add _ _ _ _ _ _ _ _ _ _ H2 H3) as H23.
  pose proof (wsteps_add _ _ _ _ _ _ _ _ _ _ H1 H23) as Hall.
  eexists _, _, _. split; [exact Hall |]. split; [done |]. split; [done |].
  simpl. rewrite calls_of_ingest_all; rewrite ?length_take; try done; lia.
Qed.

(** X9: with fewer than 2^31 descriptors, when the abort key is first
    seen at the poll after frame [k] (counted from 0), the colour images
    up to that frame decoding, the
    frames up to and with frame [k] are tracked one after the other and
    [ProcessImages] returns: [TrackRGBD] has been called [k + 1] times,
    and no image of a later frame has been read. *)
Theorem abort_stops_after_frame W a seq st k r d t :
  w_pc st = PCheck ->
  length (vstrImageFilenamesRGB st) = length (vstrImageFilenamesD st) ->
  length (vstrImageFilenamesD st) = length (vTimestamps st) ->
  (Z.of_nat (length (vstrImageFilenamesRGB st)) < 2 ^ 31)%Z ->
  vstrImageFilenamesRGB st !! k = Some r ->
  vstrImageFilenamesD st !! k = Some d ->
  vTimestamps st !! k = Some t ->
  (forall j r', j <= k -> vstrImageFilenamesRGB st !! j = Some r' ->
     Mat_empty (imread W r') = false) ->
  (forall j, j < k -> to_char (waitKey W (w_polls st + j)) <> 27%Z) ->
  to_char (waitKey W (w_polls st + k)) = 27%Z ->
  exists n evs st',
    wsteps W a seq n st = (evs, st') /\ returned st' = true
    /\ evs = ingest_all W (w_polls st) (take (S k) (vstrImageFilenamesRGB st))
               (take (S k) (vstrImageFilenamesD st))
               (take (S k) (vTimestamps st))
    /\ length (List.filter is_call evs) = S k.
Proof.
  intros Hpc HRD HDT Hsmall Hr Hd Ht Hdec Hkey Hesc.
  pose proof (lookup_lt_Some _ _ _ Hr) as Hk.
  assert (Hh : halted st = false) by (unfold halted; by rewrite Hpc).
  assert (Hne : vstrImageFilenamesRGB st <> []).
  { intros E. rewrite E in Hk. simpl in Hk. lia. }
  pose proof (wstep_check W a seq st Hpc Hne HRD Hsmall) as Hs0.
  match type of Hs0 with _ = (_, ?x) => set (st1 := x) in * end.
  assert (H1 : wsteps W a seq 1 st = ([], st1))
    by (by rewrite (wsteps_S _ _ _ _ _ _ _ Hh Hs0)).
  pose proof (frame_loop_upto W a seq k 0 st1 eq_refl) as H2.
  simpl in H2. rewrite !drop_0 in H2.
  specialize (H2 ltac:(lia) ltac:(lia) ltac:(lia) ltac:(lia)).
  specialize (H2 ltac:(intros j r' Hj; apply Hdec; lia)).
  specialize (H2 ltac:(intros j Hj; unfold is_abort; apply Z.eqb_neq; by apply Hkey)).
  match type of H2 with _ = (_, ?x) => set (st2 := x) in * end.
  assert (Hm : Mat_empty (imread W r) = false) by (by apply (Hdec k)).
  pose proof (wstep_frame W a seq st2 k r d t eq_refl ltac:(simpl; lia) Hr Hd Ht Hm)
    as Hs2.
  assert (Ha : is_abort (waitKey W (w_polls st2)) = true).
  { unfold is_abort. simpl. by rewrite Hesc. }
  rewrite Ha in Hs2.
  match type of Hs2 with _ = (_, ?x) => set (st3 := x) in * end.
  assert (H3 : wsteps W a seq 1 st2 = (frame_events W (w_polls st2) r d t, st3)).
  { rewrite (wsteps_S W a seq 0 st2 _ _ eq_refl Hs2).
    change (wsteps W a seq 0 st3) with (@nil event, st3).
    by rewrite app_nil_r. }
  pose proof (wsteps_add _ _ _ _ _ _ _ _ _ _ H2 H3) as H23.
  pose proof (wsteps_add _ _ _ _ _ _ _ _ _ _ H1 H23) as Hall.
  assert (Hev : ingest_all W (w_polls st) (take k (vstrImageFilenamesRGB st))
                  (take k (vstrImageFilenamesD st)) (take k (vTimestamps st))
                ++ frame_events W (w_polls st2) r d t
                = ingest_all W (w_polls st)
                    (take (S k) (vstrImageFilenamesRGB st))
                    (take (S k) (vstrImageFilenamesD st))
                    (take (S k) (vTimestamps st))).
  { rewrite (take_S_r _ _ _ Hr), (take_S_r _ _ _ Hd), (take_S_r _ _ _ Ht).
    rewrite ingest_all_snoc by (rewrite !length_take; lia).
    rewrite length_take. simpl. do 2 f_equal. lia. }
  rewrite app_nil_l, Hev in Hall.
  eexists _, _, _. split; [exact Hall |]. split; [done |]. split; [done |].
  rewrite ingest_all_count; rewrite !length_take; lia.
Qed.

(** ** The two threads together *)

Ltac below k n :=
  match n with
  | O => idtac
  | S ?m => destruct k as [|k]; [| below k m]
  end.

Lemma events_of_cons_same t e tr :
  events_of t ((t, e) :: tr) = e :: events_of t tr.
Proof. unfold events_of. simpl. by destruct t. Qed.

Lemma events_of_cons_other t t' e tr :
  t <> t' -> events_of t ((t', e) :: tr) = events_of t tr.
Proof. intros Hne. unfold events_of. simpl. by destruct t, t'. Qed.

Lemma only_main tr :
  events_of Worker tr = [] -> tr = List.map (pair Main) (events_of Main tr).
Proof.
  induction tr as [|[[|] e] tr IH]; intros H; [done | |].
  - rewrite events_of_cons_other in H by done.
    rewrite events_of_cons_same. simpl. f_equal. by apply IH.
  - by rewrite events_of_cons_same in H.
Qed.

Lemma no_worker_events tr :
  (forall e, (Worker, e) ∉ tr) -> events_of Worker tr = [].
Proof.
  intros H. destruct (events_of Worker tr) as [|e l] eqn:E; [done |].
  exfalso. apply (H e). apply elem_of_events_of. rewrite E.
  apply list_elem_of_here.
Qed.

(** What [main] has run and what it has still to run. *)
Lemma main_prefix argv l1 l2 :
  l1 ++ l2 = main 5 argv ->
  exists k, k <= 9 /\ l1 = take k (main 5 argv) /\ l2 = drop k (main 5 argv).
Proof.
  intros H. exists (length l1). split; [| split].
  - apply (f_equal length) in H. rewrite length_app in H. simpl in H. lia.
  - rewrite <- H. by rewrite take_app_length.
  - rewrite <- H. by rewrite drop_app_length.
Qed.

(** Once [join] has returned the worker has run the whole of
    [ProcessImages], and it is what the worker has done. *)
Lemma joined_complete W argv s :
  reachable W 5 argv s -> (Main, EJoin) ∈ trace s ->
  exists fuel, ProcessImages W fuel (arg argv 4) (arg argv 3)
                 = Some (events_of Worker (trace s)).
Proof.
  intros Hr Hin. pose proof (reachable_inv _ _ _ _ Hr) as (_ & I2 & I3 & _).
  apply elem_of_events_of in Hin. destruct (I3 Hin) as (a & q & st & Ht & Hret).
  destruct (reachable_spawn_args _ _ _ _ _ _ _ Hr Ht) as [-> ->].
  rewrite Ht in I2. destruct I2 as [_ [n Hn]]. rewrite app_nil_r in Hn.
  exists n. unfold ProcessImages. by rewrite Hn, Hret.
Qed.

(** After the [join] the worker does nothing. *)
Lemma joined_quiet W argc argv s t1 x t2 :
  sys_inv W argc argv s -> trace s = t1 ++ x :: t2 ->
  EJoin ∈ events_of Main t1 -> forall e, (Worker, e) ∉ x :: t2.
Proof.
  intros (_ & _ & _ & _ & I5) Hs Hin e Hw.
  apply elem_of_events_of, list_elem_of_split in Hin as (u1 & u2 & ->).
  apply (I5 u1 (u2 ++ x :: t2) e).
  - rewrite Hs. by rewrite <- app_assoc.
  - apply elem_of_app. by right.
Qed.

(** X11: with a number of arguments other than four, whatever they are
    and whatever the files, the program writes the usage line and
    returns 1, and that is all: in every state of the run the worker
    thread has not been started and the trace is the beginning of those
    two events (no engine, no file opened, no image read), the only exit
    code is 1, and the run always gets to its end. *)
Theorem wrong_argc_only_usage W argc argv s :
  argc <> 5%Z -> reachable W argc argv s ->
  processingThread s = NotStarted
  /\ (exists k, trace s = take k [(Main, ECerr usage); (Main, EReturn 1%Z)])
  /\ (forall code, exited s code -> code = 1%Z)
  /\ (exists s', rtc (step W) s s' /\ exited s' 1
                 /\ trace s' = [(Main, ECerr usage); (Main, EReturn 1%Z)]).
Proof.
  intros Hne Hr. pose proof (reachable_inv _ _ _ _ Hr) as (I1 & I2 & _).
  assert (Hm : main argc argv = [ECerr usage; EReturn 1]).
  { unfold main. by destruct (Z.eqb_spec argc 5). }
  rewrite Hm in I1.
  destruct s as [rest th tr]. simpl in *.
  destruct th as [|a q p st].
  2:{ exfalso. destruct I2 as [Hsp _].
      assert (Hin : ESpawn a q ∈ [ECerr usage; EReturn 1%Z])
        by (rewrite <- I1; apply elem_of_app; by left).
      repeat (apply elem_of_cons in Hin as [Hin|Hin]; [discriminate |]).
      by apply elem_of_nil in Hin. }
  destruct I2 as [Hw _]. apply only_main in Hw.
  split; [done |].
  assert (Hcases : (tr = [] /\ rest = [ECerr usage; EReturn 1%Z])
                   \/ (tr = [(Main, ECerr usage)] /\ rest = [EReturn 1%Z])
                   \/ (tr = [(Main, ECerr usage); (Main, EReturn 1%Z)]
                       /\ rest = [])).
  { destruct (events_of Main tr) as [|x [|y [|z m]]]; simpl in I1, Hw.
    - left. by subst.
    - right. left. inversion I1. by subst.
    - right. right. inversion I1. by subst.
    - apply (f_equal length) in I1. simpl in I1. rewrite length_app in I1. lia. }
  split; [| split].
  - destruct Hcases as [[-> _]|[[-> _]|[-> _]]];
      [by exists 0 | by exists 1 | by exists 2].
  - intros code [_ Hin]. simpl in Hin.
    destruct Hcases as [[-> _]|[[-> _]|[-> _]]];
      repeat (apply elem_of_cons in Hin as [Hin|Hin];
              [by inversion Hin |]);
      by apply elem_of_nil in Hin.
  - exists (mk_sys [] NotStarted [(Main, ECerr usage); (Main, EReturn 1%Z)]).
    split; [| split; [split; [done |] | done]].
    + destruct Hcases as [[-> ->]|[[-> ->]|[-> ->]]].
      * by apply (run_plain_all W NotStarted [ECerr usage; EReturn 1%Z] []);
          repeat constructor.
      * by apply (run_plain_all W NotStarted [EReturn 1%Z] [(Main, ECerr usage)]);
          repeat constructor.
      * apply rtc_refl.
    + simpl. apply list_elem_of_further, list_elem_of_here.
Qed.

(** X12: the worker works only between its spawn and its join.  Before
    any event of [ProcessImages] (the opening of the manifest, a read of
    an image, a call of [TrackRGBD], a poll of the key) the main thread
    has constructed the engine and spawned the thread, and has not gone
    beyond the return of the viewer: it has not joined, shut the engine
    down, exported or returned. *)
Theorem worker_acts_between_spawn_and_join W argv s t1 e t2 :
  reachable W 5 argv s -> trace s = t1 ++ (Worker, e) :: t2 ->
  exists k, 2 <= k <= 4 /\ events_of Main t1 = take k (main 5 argv).
Proof.
  intros Hr Hs. pose proof (reachable_inv _ _ _ _ Hr) as Inv.
  pose proof Inv as (I1 & _ & _ & I4 & _).
  destruct (I4 _ _ _ Hs) as (a & q & Hsp). apply elem_of_events_of in Hsp.
  assert (Hj : EJoin ∉ events_of Main t1).
  { intros Hin. apply (joined_quiet _ _ _ _ _ _ _ Inv Hs Hin e).
    apply list_elem_of_here. }
  rewrite Hs, events_of_app, events_of_cons_other, <- app_assoc in I1 by done.
  apply main_prefix in I1 as (k & Hk & E1 & _).
  exists k. split; [| done]. rewrite E1 in Hsp, Hj. clear E1.
  below k 10; [.. | lia]; simpl in Hsp, Hj;
    first
      [ lia
      | exfalso;
        repeat (apply elem_of_cons in Hsp as [Hsp|Hsp]; [discriminate |]);
        by apply elem_of_nil in Hsp
      | exfalso; apply Hj; do 4 apply list_elem_of_further;
        apply list_elem_of_here ].
Qed.

(** Nothing follows the return of [main]. *)
Lemma nothing_after_return W argv s t1 code t2 :
  sys_inv W 5 argv s -> trace s = t1 ++ (Main, EReturn code) :: t2 ->
  code = 0%Z /\ t2 = [] /\ main_rest s = []
  /\ events_of Main (trace s) = main 5 argv.
Proof.
  intros Inv Hs. pose proof Inv as (I1 & _).
  pose proof I1 as I1'.
  rewrite Hs, events_of_app, events_of_cons_same, <- app_assoc in I1.
  simpl in I1.
  apply main_prefix in I1 as (k & Hk & E1 & E2).
  assert (Hk8 : k = 8).
  { below k 10; [.. | lia]; simpl in E2; try discriminate E2. done. }
  subst k. simpl in E1, E2. injection E2 as Hc E3.
  apply app_eq_nil in E3 as [E3 Hrest].
  assert (Hq : forall e, (Worker, e) ∉ (Main, EReturn code) :: t2).
  { apply (joined_quiet _ _ _ _ _ _ _ Inv Hs). rewrite E1.
    do 4 apply list_elem_of_further. apply list_elem_of_here. }
  assert (Ht2 : t2 = []).
  { rewrite (only_main t2), E3; [done |]. apply no_worker_events.
    intros e Hin. apply (Hq e). by apply list_elem_of_further. }
  split; [done |]. split; [done |]. split; [done |].
  by rewrite Hrest, app_nil_r in I1'.
Qed.

(** X13: a run that has exited, with four arguments, has run the whole
    of [main] and, in the worker thread, the whole of [ProcessImages] on
    [argv[4]] and [argv[3]], up to its return; the return of [main] is
    the last thing that happens, and the worker has been joined before,
    so that no thread is left behind.  As soon as [join] has returned
    the events of the worker are those of a complete run of
    [ProcessImages]. *)
Theorem exited_run_is_whole W argv s :
  reachable W 5 argv s ->
  ((Main, EJoin) ∈ trace s ->
     exists fuel, ProcessImages W fuel (arg argv 4) (arg argv 3)
                    = Some (events_of Worker (trace s)))
  /\ (forall code, exited s code ->
        events_of Main (trace s) = main 5 argv
        /\ last (trace s) = Some (Main, EReturn 0%Z)
        /\ exists fuel, ProcessImages W fuel (arg argv 4) (arg argv 3)
                          = Some (events_of Worker (trace s))).
Proof.
  intros Hr. split; [by apply joined_complete |].
  intros code [Hrest Hin]. pose proof (reachable_inv _ _ _ _ Hr) as Inv.
  apply list_elem_of_split in Hin as (t1 & t2 & Hs).
  destruct (nothing_after_return _ _ _ _ _ _ Inv Hs) as (-> & -> & _ & Hm).
  split; [done |]. split; [by rewrite Hs, last_snoc |].
  apply joined_complete; [done |]. apply elem_of_events_of. rewrite Hm.
  do 4 apply list_elem_of_further. apply list_elem_of_here.
Qed.

(** X14: the trajectories are exported from the engine after it has been
    shut down and after the whole of [ProcessImages] has run: when an
    export happens the worker has returned, having done all it does, and
    does nothing afterwards.  The camera trajectory goes to
    CameraTrajectory.txt and comes first, the keyframe trajectory to
    KeyFrameTrajectory.txt after it. *)
Theorem exports_follow_the_whole_run W argv s t1 e t2 :
  reachable W 5 argv s -> trace s = t1 ++ (Main, e) :: t2 ->
  is_save_trajectory e || is_save_keyframes e = true ->
  (Main, EShutdown) ∈ t1
  /\ (exists fuel, ProcessImages W fuel (arg argv 4) (arg argv 3)
                     = Some (events_of Worker t1))
  /\ (forall e', (Worker, e') ∉ t2)
  /\ ((e = ESaveTrajectoryTUM "CameraTrajectory.txt"
       /\ forall f, (Main, ESaveKeyFrameTrajectoryTUM f) ∉ t1)
      \/ (e = ESaveKeyFrameTrajectoryTUM "KeyFrameTrajectory.txt"
          /\ (Main, ESaveTrajectoryTUM "CameraTrajectory.txt") ∈ t1)).
Proof.
  intros Hr Hs He. pose proof (reachable_inv _ _ _ _ Hr) as Inv.
  pose proof Inv as (I1 & _).
  rewrite Hs, events_of_app, events_of_cons_same, <- app_assoc in I1.
  simpl in I1.
  apply main_prefix in I1 as (k & Hk & E1 & E2).
  assert (Hj : EJoin ∈ events_of Main t1 /\ EShutdown ∈ events_of Main t1
               /\ (k = 6 \/ k = 7)).
  { rewrite E1.
    below k 10; [.. | lia]; simpl in E2; try discriminate E2;
      injection E2 as He' E3; subst e; try discriminate He; simpl;
      (split; [do 4 apply list_elem_of_further; apply list_elem_of_here |]);
      (split; [do 5 apply list_elem_of_further; apply list_elem_of_here |]);
      auto. }
  destruct Hj as (Hj & Hsh & Hk67).
  pose proof (joined_quiet _ _ _ _ _ _ _ Inv Hs Hj) as Hq.
  assert (Hw2 : forall e', (Worker, e') ∉ t2).
  { intros e' Hin. apply (Hq e'). by apply list_elem_of_further. }
  split; [by apply elem_of_events_of |].
  split; [| split; [done |]].
  - assert (Hjoin : (Main, EJoin) ∈ trace s).
    { rewrite Hs. apply elem_of_app. left. by apply elem_of_events_of. }
    destruct (joined_complete _ _ _ Hr Hjoin) as [fuel Hp].
    exists fuel. rewrite Hp. f_equal.
    rewrite Hs, events_of_app, events_of_cons_other by done.
    by rewrite (no_worker_events t2 Hw2), app_nil_r.
  - destruct Hk67 as [-> | ->]; simpl in E1, E2; injection E2 as He' E3.
    + left. split; [done |]. intros f Hin. apply elem_of_events_of in Hin.
      rewrite E1 in Hin.
      repeat (apply elem_of_cons in Hin as [Hin|Hin]; [discriminate |]).
      by apply elem_of_nil in Hin.
    + right. split; [done |]. apply elem_of_events_of. rewrite E1.
      do 6 apply list_elem_of_further. apply list_elem_of_here.
Qed.

(** ** The whole run on a well-formed manifest *)

Lemma well_formed_loaded W a seq (fs : list frame_line) :
  Forall well_formed fs ->
  files W a = Some (unlines (List.map fl_text fs)) ->
  exists n st,
    wsteps W a seq n ProcessImages_entry = ([EOpen a], st)
    /\ w_pc st = PCheck /\ w_polls st = 0
    /\ descriptors st
         = (List.map (fun f => seq +:+ "/" +:+ fl_rgb f) fs,
            List.map (fun f => seq +:+ "/" +:+ fl_depth f) fs,
            List.map fl_time fs).
Proof.
  intros Hall Hb.
  destruct (loaded W a seq _ Hb) as (st & Hrun & Hpc & Hd & Hp).
  eexists _, st. split; [exact Hrun |]. split; [done |]. split; [done |].
  rewrite split_lines_unlines in Hd.
  2:{ apply Forall_fmap. eapply Forall_impl; [exact Hall |].
      intros f (tok1 & b1 & b2 & tok2 & b3 & v1 & _ & Hnl & _). exact Hnl. }
  rewrite load_lines_nonempty, filter_app in Hd.
  rewrite (filter_cons_False _ "") in Hd by (simpl; congruence).
  rewrite filter_nil, app_nil_r, <- load_lines_nonempty in Hd.
  by rewrite (load_lines_well_formed W seq fs [] [] [] Hall) in Hd.
Qed.

(** From the checks to the return, when nothing stops the loop. *)
Lemma frame_loop_whole W a seq st :
  w_pc st = PCheck -> vstrImageFilenamesRGB st <> [] ->
  length (vstrImageFilenamesRGB st) = length (vstrImageFilenamesD st) ->
  length (vstrImageFilenamesD st) = length (vTimestamps st) ->
  (Z.of_nat (length (vstrImageFilenamesRGB st)) < 2 ^ 31)%Z ->
  (forall r, r ∈ vstrImageFilenamesRGB st -> Mat_empty (imread W r) = false) ->
  (forall j, j < length (vstrImageFilenamesRGB st) ->
     to_char (waitKey W (w_polls st + j)) <> 27%Z) ->
  exists n st',
    wsteps W a seq n st =
      (ingest_all W (w_polls st) (vstrImageFilenamesRGB st)
         (vstrImageFilenamesD st) (vTimestamps st), st')
    /\ returned st' = true.
Proof.
  intros Hpc Hne HRD HDT Hsmall Hdec Hkey.
  assert (Hh : halted st = false) by (unfold halted; by rewrite Hpc).
  pose proof (wstep_check W a seq st Hpc Hne HRD Hsmall) as Hs0.
  match type of Hs0 with _ = (_, ?x) => set (st1 := x) in * end.
  assert (H1 : wsteps W a seq 1 st = ([], st1))
    by (by rewrite (wsteps_S _ _ _ _ _ _ _ Hh Hs0)).
  remember (length (vstrImageFilenamesRGB st)) as k eqn:Ek.
  pose proof (frame_loop_upto W a seq k 0 st1 eq_refl) as H2.
  simpl in H2. rewrite !drop_0 in H2.
  specialize (H2 ltac:(lia) ltac:(lia) ltac:(lia) ltac:(lia)).
  specialize (H2 ltac:(intros j r' Hj Hl; apply Hdec;
                       by eapply list_elem_of_lookup_2)).
  specialize (H2 ltac:(intros j Hj; unfold is_abort; apply Z.eqb_neq;
                       by apply Hkey)).
  rewrite !take_ge in H2 by lia.
  match type of H2 with _ = (_, ?x) => set (st2 := x) in * end.
  assert (Hs2 : wstep W a seq st2 = ([], at_pc PReturn st2)).
  { unfold wstep. simpl. by rewrite Z.ltb_irrefl. }
  assert (H3 : wsteps W a seq 1 st2 = ([], at_pc PReturn st2))
    by (by rewrite (wsteps_S W a seq 0 st2 _ _ eq_refl Hs2)).
  pose proof (wsteps_add _ _ _ _ _ _ _ _ _ _ H2 H3) as H23.
  pose proof (wsteps_add _ _ _ _ _ _ _ _ _ _ H1 H23) as Hall.
  rewrite app_nil_l, app_nil_r in Hall.
  eexists _, _. split; [exact Hall | done].
Qed.

(** X15: the run of the program on a well-formed manifest.  With four
    arguments, a manifest of at least one and fewer than 2^31
    well-formed lines, every colour image decoding and no abort key at
    the polls, [ProcessImages] opens the manifest and then, for each line
    in turn, reads the colour and the depth image below the sequence
    path, calls [TrackRGBD] with them and the timestamp of the line and
    polls the key, and returns.  The program has a run to exit code 0,
    and every run that exits has done this in the worker thread and the
    whole of [main] in the main thread. *)
Theorem well_formed_manifest_whole_run W argv (fs : list frame_line) :
  Forall well_formed fs -> fs <> [] ->
  files W (arg argv 4) = Some (unlines (List.map fl_text fs)) ->
  (Z.of_nat (length fs) < 2 ^ 31)%Z ->
  (forall f, f ∈ fs ->
     Mat_empty (imread W (arg argv 3 +:+ "/" +:+ fl_rgb f)) = false) ->
  (forall j, j < length fs -> to_char (waitKey W j) <> 27%Z) ->
  (exists fuel,
     ProcessImages W fuel (arg argv 4) (arg argv 3)
       = Some (whole_run W (arg argv 4) (arg argv 3) fs))
  /\ (exists s, reachable W 5 argv s /\ exited s 0
        /\ trace s = full_trace argv (whole_run W (arg argv 4) (arg argv 3) fs))
  /\ (forall s code, reachable W 5 argv s -> exited s code ->
        code = 0%Z
        /\ events_of Main (trace s) = main 5 argv
        /\ events_of Worker (trace s)
             = whole_run W (arg argv 4) (arg argv 3) fs).
Proof.
  intros Hall Hne Hb Hsmall Hdec Hkey.
  assert (Hp : exists fuel,
            ProcessImages W fuel (arg argv 4) (arg argv 3)
              = Some (whole_run W (arg argv 4) (arg argv 3) fs)).
  { destruct (well_formed_loaded W (arg argv 4) (arg argv 3) fs Hall Hb)
      as (n1 & st & Hrun1 & Hpc & Hpoll & Hd).
    unfold descriptors in Hd. injection Hd as HR HD HT.
    destruct (frame_loop_whole W (arg argv 4) (arg argv 3) st Hpc)
      as (n2 & st' & Hrun2 & Hret).
    - rewrite HR. by destruct fs.
    - by rewrite HR, HD, !length_map.
    - by rewrite HD, HT, !length_map.
    - by rewrite HR, length_map.
    - rewrite HR. intros r Hr. apply list_elem_of_fmap in Hr as (f & -> & Hf).
      by apply Hdec.
    - rewrite HR, length_map, Hpoll. intros j Hj. by apply Hkey.
    - pose proof (wsteps_add _ _ _ _ _ _ _ _ _ _ Hrun1 Hrun2) as Hrun.
      exists (n1 + n2). unfold ProcessImages. rewrite Hrun, Hret.
      by rewrite Hpoll, HR, HD, HT. }
  split; [done |]. destruct Hp as [fuel Hp].
  split; [by apply (run_completes W argv fuel) |].
  intros s code Hr Hex. pose proof Hex as [_ Hin].
  pose proof (reachable_inv _ _ _ _ Hr) as Inv.
  apply list_elem_of_split in Hin as (t1 & t2 & Hs).
  destruct (nothing_after_return _ _ _ _ _ _ Inv Hs) as (-> & _ & _ & Hm).
  split; [done |]. split; [done |].
  destruct (joined_complete W argv s Hr) as [fuel' Hp'].
  { apply elem_of_events_of. rewrite Hm.
    do 4 apply list_elem_of_further. apply list_elem_of_here. }
  pose proof (ProcessImages_stable _ _ _ _ (fuel + fuel') _ Hp ltac:(lia)) as E1.
  pose proof (ProcessImages_stable _ _ _ _ (fuel + fuel') _ Hp' ltac:(lia)) as E2.
  rewrite E1 in E2. by inversion E2.
Qed.

End Further.


(** * The properties on concrete runs *)

Import Sample Runs.

(** C3, at the input where the program misses it: the depth image of the
    first frame does not decode, yet [TrackRGBD] is called for that frame,
    with the empty depth image, and for the frame after it. *)
Theorem depth_failure_is_ingested :
  Mat_empty (imread W_depth "/seq/rgb/1.png") = false
  /\ Mat_empty (imread W_depth "/seq/depth/1.png") = true
  /\ ProcessImages W_depth 20 "assoc.txt" "/seq" =
       Some [EOpen "assoc.txt";
             EImread "/seq/rgb/1.png"; EImread "/seq/depth/1.png";
             ETrackCall [255%Z] [] (10%Z, 1); ETrackRet; EWaitKey (-1);
             EImread "/seq/rgb/2.png"; EImread "/seq/depth/2.png";
             ETrackCall [255%Z] [255%Z] (20%Z, 1); ETrackRet; EWaitKey (-1)].
Proof. repeat split. Qed.

(** ** C1 *)

(** C1 as stated does not hold on a manifest without lines: the worker
    thread is
    spawned before the file is even opened, and the run goes on through
    [join], [Shutdown] and the exports to exit code 0. *)
Lemma zero_frames_thread_already_spawned :
  files W_empty "assoc.txt" = Some ""
  /\ nonempty_lines "" = []
  /\ reachable W_empty 5 argv5 (program W_empty 5 argv5 20)
  /\ trace (program W_empty 5 argv5 20) =
       [(Main, EConstruct "ORBvoc.txt" "TUM1.yaml");
        (Main, ESpawn "assoc.txt" "/seq");
        (Main, ERunViewerCall); (Main, ERunViewerRet);
        (Worker, EOpen "assoc.txt"); (Worker, ECerr msg_no_images);
        (Main, EJoin); (Main, EShutdown);
        (Main, ESaveTrajectoryTUM "CameraTrajectory.txt");
        (Main, ESaveKeyFrameTrajectoryTUM "KeyFrameTrajectory.txt");
        (Main, EReturn 0)]
  /\ exited (program W_empty 5 argv5 20) 0.
Proof.
  split; [reflexivity |]. split; [reflexivity |].
  split; [apply schedule_reachable |]. split; [reflexivity |].
  split; [reflexivity | by apply last_Some_elem_of].
Qed.

Lemma zero_frames_met_in_worker_witness :
  files W_empty (arg argv5 4) = Some ""
  /\ nonempty_lines "" = []
  /\ (exists fuel,
        ProcessImages W_empty fuel "assoc.txt" "/seq"
          = Some [EOpen "assoc.txt"; ECerr msg_no_images])
  /\ (forall s, reachable W_empty 5 argv5 s ->
        forall code, exited s code -> code = 0%Z).
Proof.
  split; [reflexivity |]. split; [reflexivity |].
  destruct (zero_frames_met_in_worker W_empty argv5 "" eq_refl eq_refl)
    as (Hp & _ & Hall).
  split; [exact Hp |].
  intros s Hr code Hex.
  exact (proj1 (proj2 (proj2 (proj2 (Hall s Hr))) code Hex)).
Defined.

(** ** C2 *)

(** The run without a manifest under the name given: the main thread
    has come to [join] and stays there, without [Shutdown] and without
    an export. *)
Lemma unopened_manifest_no_shutdown_witness :
  files W_missing (arg argv5 4) = None
  /\ reachable W_missing 5 argv5 (program W_missing 5 argv5 30)
  /\ main_rest (program W_missing 5 argv5 30)
       = [EJoin; EShutdown; ESaveTrajectoryTUM "CameraTrajectory.txt";
          ESaveKeyFrameTrajectoryTUM "KeyFrameTrajectory.txt"; EReturn 0]
  /\ (forall n,
        ((Main, EJoin) ∉ trace (program W_missing 5 argv5 n))
        /\ occurrences is_shutdown (trace (program W_missing 5 argv5 n)) = 0
        /\ occurrences is_save_trajectory
             (trace (program W_missing 5 argv5 n)) = 0
        /\ occurrences is_save_keyframes
             (trace (program W_missing 5 argv5 n)) = 0
        /\ main_rest (program W_missing 5 argv5 n) <> []).
Proof.
  split; [reflexivity |]. split; [apply schedule_reachable |].
  split; [reflexivity |]. intros n.
  exact (proj2 (unopened_manifest_no_shutdown W_missing argv5 eq_refl)
           (program W_missing 5 argv5 n) (schedule_reachable W_missing 5 argv5 n)).
Defined.

(** ** C4 *)

(** C4 as stated does not hold on a line whose two timestamps differ:
    the first field reads 1.0, and what is stored is 2.0. *)
Lemma first_timestamp_is_not_stored :
  files W_stamps "assoc.txt" = Some (line_two_stamps +:+ nl)
  /\ num_get line_two_stamps = (Some (10%Z, 1), " rgb/1.png 2.0 depth/1.png")
  /\ w_pc (run W_stamps 4).2 = PCheck
  /\ vTimestamps (run W_stamps 4).2 = [(20%Z, 1)]
  /\ (20%Z, 1) <> (10%Z, 1).
Proof. repeat split. discriminate. Qed.

Lemma stored_timestamp_is_second_field_witness :
  w_pc (run W_stamps 1).2 = PLoad
  /\ good (fAssociation (run W_stamps 1).2) = true
  /\ read_line (rdbuf (fAssociation (run W_stamps 1).2))
       = (line_two_stamps, "", false)
  /\ exists st',
       wstep W_stamps "assoc.txt" "/seq" (run W_stamps 1).2 = ([], st')
       /\ w_pc st' = PLoad
       /\ vTimestamps st' = [(20%Z, 1)]
       /\ vstrImageFilenamesRGB st' = ["/seq/rgb/1.png"]
       /\ vstrImageFilenamesD st' = ["/seq/depth/1.png"].
Proof.
  split; [reflexivity |]. split; [reflexivity |]. split; [reflexivity |].
  apply (stored_timestamp_is_second_field W_stamps "assoc.txt" "/seq"
           (run W_stamps 1).2 line_two_stamps "" false
           "1.0" " " "rgb/1.png" " " "2.0" " " "depth/1.png"
           (10%Z, 1) (20%Z, 1)); reflexivity.
Defined.

(** ** C5 *)

(** C5 as stated does not hold on a manifest of one line with two
    fields: the line is not skipped, there is one descriptor for the one line, and its
    frame goes to [TrackRGBD], the depth image read from the path of the
    sequence directory. *)
Lemma two_field_line_is_not_skipped :
  files W_short "assoc.txt" = Some (line_two_fields +:+ nl)
  /\ nonempty_lines (line_two_fields +:+ nl) = [line_two_fields]
  /\ w_pc (run W_short 4).2 = PCheck
  /\ descriptors (run W_short 4).2
       = (["/seq/rgb/1.png"], ["/seq/"], [(10%Z, 1)])
  /\ ProcessImages W_short 10 "assoc.txt" "/seq" =
       Some [EOpen "assoc.txt"; EImread "/seq/rgb/1.png"; EImread "/seq/";
             ETrackCall [255%Z] [] (10%Z, 1); ETrackRet; EWaitKey (-1)].
Proof. repeat split. Qed.

Lemma short_line_yields_descriptor_witness :
  files W_short "assoc.txt" = Some (line_two_fields +:+ nl)
  /\ (exists st,
        run W_short 4 = ([EOpen "assoc.txt"], st)
        /\ w_pc st = PCheck
        /\ length (vstrImageFilenamesRGB st) = 1
        /\ length (vstrImageFilenamesD st) = 1
        /\ length (vTimestamps st) = 1)
  /\ (exists st',
        wstep W_short "assoc.txt" "/seq" (run W_short 1).2 = ([], st')
        /\ w_pc st' = PLoad
        /\ vTimestamps st' = [(10%Z, 1)]
        /\ vstrImageFilenamesRGB st' = ["/seq/rgb/1.png"]
        /\ vstrImageFilenamesD st' = ["/seq/"]).
Proof.
  split; [reflexivity |].
  destruct (short_line_yields_descriptor W_short "assoc.txt" "/seq"
              (line_two_fields +:+ nl) eq_refl) as [Hcount Hline].
  split; [exact Hcount |].
  apply (Hline (run W_short 1).2 line_two_fields "" false
           "1.0" " " "rgb/1.png" (10%Z, 1)); reflexivity.
Defined.

(** ** C6 *)

(** C6 as stated does not hold when there is no manifest: the thread has
    been started before the attempt to open the file, which is made in
    it. *)
Lemma unopened_manifest_thread_started :
  files W_missing "assoc.txt" = None
  /\ reachable W_missing 5 argv5 (program W_missing 5 argv5 30)
  /\ trace (program W_missing 5 argv5 30) =
       [(Main, EConstruct "ORBvoc.txt" "TUM1.yaml");
        (Main, ESpawn "assoc.txt" "/seq");
        (Main, ERunViewerCall); (Main, ERunViewerRet);
        (Worker, EOpen "assoc.txt")].
Proof.
  split; [reflexivity |]. split; [apply schedule_reachable | reflexivity].
Qed.

Lemma unopened_manifest_met_in_worker_witness :
  files W_missing (arg argv5 4) = None
  /\ (exists s, reachable W_missing 5 argv5 s
                /\ (Worker, EOpen "assoc.txt") ∈ trace s)
  /\ trace (program W_missing 5 argv5 30)
       = take 4 (trace (program W_missing 5 argv5 30))
         ++ (Worker, EOpen "assoc.txt")
            :: drop 5 (trace (program W_missing 5 argv5 30))
  /\ (forall f, (Main, EOpen f) ∉ trace (program W_missing 5 argv5 30))
  /\ ((Main, ESpawn "assoc.txt" "/seq")
        ∈ take 4 (trace (program W_missing 5 argv5 30)))
  /\ events_of Worker (take 4 (trace (program W_missing 5 argv5 30))) = [].
Proof.
  split; [reflexivity |].
  destruct (unopened_manifest_met_in_worker W_missing argv5 eq_refl)
    as [Hstart Hall].
  split; [exact Hstart |]. split; [reflexivity |].
  destruct (Hall _ (schedule_reachable W_missing 5 argv5 30)) as [Hmain Hopen].
  split; [exact Hmain |].
  destruct (Hopen (take 4 (trace (program W_missing 5 argv5 30)))
              "assoc.txt" (drop 5 (trace (program W_missing 5 argv5 30)))
              eq_refl) as (_ & Hsp & Hfirst).
  split; [exact Hsp | exact Hfirst].
Defined.

(** ** C7 *)

Lemma many_int : Z.of_nat many = (2 ^ 31)%Z.
Proof. unfold many. apply Z2Nat.id. lia. Qed.

(** C7 as stated does not hold on a manifest of 2^31 lines: every image
    decodes, no key is pressed, and [ProcessImages] returns having opened
    the file and called [TrackRGBD] not once. *)
Lemma int_count_wraps_no_ingestion :
  files W_many "assoc.txt" = Some (repeat_lines many line_one)
  /\ nonempty_lines (repeat_lines many line_one) = replicate many line_one
  /\ Z.of_nat many = (2 ^ 31)%Z
  /\ (forall p, Mat_empty (imread W_many p) = false)
  /\ (forall j, to_char (waitKey W_many j) <> 27%Z)
  /\ (exists fuel,
        ProcessImages W_many fuel "assoc.txt" "/seq" = Some [EOpen "assoc.txt"])
  /\ (forall fuel evs,
        ProcessImages W_many fuel "assoc.txt" "/seq" = Some evs ->
        length (List.filter is_call evs) = 0).
Proof.
  assert (Hlines : nonempty_lines (repeat_lines many line_one)
                   = replicate many line_one)
    by (apply nonempty_lines_repeat; reflexivity).
  split; [exact eq_refl |]. split; [exact Hlines |].
  split; [exact many_int |].
  split; [intros p; reflexivity |].
  split; [intros j H; discriminate H |].
  destruct (wrapped_count_returns_at_once W_many "assoc.txt" "/seq"
              (repeat_lines many line_one) eq_refl) as [Hret Honly].
  - rewrite Hlines. intros Hnil. apply (f_equal length) in Hnil.
    rewrite length_replicate in Hnil. pose proof many_int.
    change (length (@nil string)) with 0 in Hnil. lia.
  - rewrite Hlines, length_replicate, many_int. intros H. discriminate H.
  - split; [exact Hret |].
    intros fuel evs Hp. rewrite (Honly fuel evs Hp). exact eq_refl.
Qed.

Lemma each_descriptor_ingested_once_witness :
  w_pc (run W_two 5).2 = PCheck
  /\ (Z.of_nat (length (vstrImageFilenamesRGB (run W_two 5).2)) < 2 ^ 31)%Z
  /\ exists n evs st',
       wsteps W_two "assoc.txt" "/seq" n (run W_two 5).2 = (evs, st')
       /\ returned st' = true
       /\ List.filter is_track evs =
            [ETrackCall [255%Z] [255%Z] (10%Z, 1); ETrackRet;
             ETrackCall [255%Z] [255%Z] (20%Z, 1); ETrackRet]
       /\ length (List.filter is_call evs) = 2.
Proof.
  split; [reflexivity |]. split; [reflexivity |].
  apply (each_descriptor_ingested_once W_two "assoc.txt" "/seq" (run W_two 5).2).
  - reflexivity.
  - reflexivity.
  - reflexivity.
  - reflexivity.
  - intros p _. reflexivity.
  - intros j H. discriminate H.
Defined.

(** ** C8 *)

Lemma abort_polled_once_after_each_ingestion_witness :
  run W_abort 20 = ((run W_abort 20).1, (run W_abort 20).2)
  /\ List.filter is_call (run W_abort 20).1 =
       [ETrackCall [255%Z] [255%Z] (10%Z, 1);
        ETrackCall [255%Z] [255%Z] (20%Z, 1)]
  /\ length (List.filter is_poll (run W_abort 20).1)
       = length (List.filter is_call (run W_abort 20).1)
  /\ (forall e1 e2, (run W_abort 20).1 = e1 ++ ETrackRet :: e2 ->
        exists key e3, e2 = EWaitKey key :: e3)
  /\ (forall e1 key e2, (run W_abort 20).1 = e1 ++ EWaitKey key :: e2 ->
        exists e0 imRGB imD tframe,
          e1 = e0 ++ [ETrackCall imRGB imD tframe; ETrackRet])
  /\ (forall e1 key e2, (run W_abort 20).1 = e1 ++ EWaitKey key :: e2 ->
        to_char key = 27%Z -> e2 = []).
Proof.
  split; [reflexivity |]. split; [reflexivity |].
  apply (abort_polled_once_after_each_ingestion W_abort "assoc.txt" "/seq" 20
           (run W_abort 20).1 (run W_abort 20).2).
  reflexivity.
Defined.

(** ** C9 *)

Lemma unopened_manifest_never_exits_witness :
  files W_missing (arg argv5 4) = None
  /\ reachable W_missing 5 argv5 (program W_missing 5 argv5 30)
  /\ (forall fuel, ProcessImages W_missing fuel "assoc.txt" "/seq" = None)
  /\ (forall code, (Main, EReturn code) ∉ trace (program W_missing 5 argv5 30))
  /\ (forall code, ~ exited (program W_missing 5 argv5 30) code).
Proof.
  split; [reflexivity |]. split; [apply schedule_reachable |].
  apply (unopened_manifest_never_exits W_missing argv5
           (program W_missing 5 argv5 30) eq_refl).
  apply schedule_reachable.
Defined.

(** The sequence directory given where the manifest is expected: it is
    opened like a file, the stream is good, the first [getline] fails
    without reaching the end of a file, and [ProcessImages] does not
    return. *)
Lemma directory_for_manifest_never_returns :
  files W_two "/seq" = None
  /\ directory W_two "/seq" = true
  /\ good (fAssociation (wsteps W_two "/seq" "/seq" 1 ProcessImages_entry).2)
       = true
  /\ fAssociation (wsteps W_two "/seq" "/seq" 2 ProcessImages_entry).2
       = mk_istream "" false true true true
  /\ (forall fuel, ProcessImages W_two fuel "/seq" "/seq" = None).
Proof.
  split; [reflexivity |]. split; [reflexivity |]. split; [reflexivity |].
  split; [reflexivity |]. intros fuel. by apply ProcessImages_diverges.
Qed.

(** ** C10 *)

Lemma vectors_equal_length_and_in_bounds_witness :
  run W_two 6 = ((run W_two 6).1, (run W_two 6).2)
  /\ w_pc (run W_two 6).2 = PFrame 0
  /\ nImages (run W_two 6).2 = 2%Z
  /\ length (vstrImageFilenamesRGB (run W_two 6).2)
       = length (vstrImageFilenamesD (run W_two 6).2)
  /\ length (vstrImageFilenamesD (run W_two 6).2)
       = length (vTimestamps (run W_two 6).2)
  /\ (ECerr msg_mismatch ∉ (run W_two 6).1)
  /\ (w_pc (run W_two 6).2 <> PFault)
  /\ (forall ni, w_pc (run W_two 6).2 = PFrame ni ->
        (ni < nImages (run W_two 6).2)%Z ->
        is_Some (at_index (vstrImageFilenamesRGB (run W_two 6).2) ni)
        /\ is_Some (at_index (vstrImageFilenamesD (run W_two 6).2) ni)
        /\ is_Some (at_index (vTimestamps (run W_two 6).2) ni)).
Proof.
  split; [reflexivity |]. split; [reflexivity |]. split; [reflexivity |].
  apply (vectors_equal_length_and_in_bounds W_two "assoc.txt" "/seq" 6
           (run W_two 6).1 (run W_two 6).2).
  reflexivity.
Defined.

(** ** The further properties *)

Import Cases.

Lemma shutdown_after_join_witness :
  reachable W_two 5 argv5 (program W_two 5 argv5 40)
  /\ main_rest (program W_two 5 argv5 40) = []
  /\ occurrences is_shutdown (trace (program W_two 5 argv5 40)) = 1
  /\ occurrences is_save_trajectory (trace (program W_two 5 argv5 40)) = 1
  /\ occurrences is_save_keyframes (trace (program W_two 5 argv5 40)) = 1
  /\ (forall t1 t2 e,
        trace (program W_two 5 argv5 40) = t1 ++ (Main, EShutdown) :: t2 ->
        (Main, EJoin) ∈ t1 /\ (Worker, e) ∉ t2).
Proof.
  split; [apply schedule_reachable |]. split; [reflexivity |].
  destruct (shutdown_after_join W_two argv5 (program W_two 5 argv5 40)
              (schedule_reachable W_two 5 argv5 40))
    as (_ & Hend & Hjoin & _ & Hafter & _).
  destruct (Hend eq_refl) as (H1 & H2 & H3).
  repeat split; eauto.
Defined.

Lemma frames_two_well_formed : Forall well_formed frames_two.
Proof.
  repeat constructor.
  - exists "1.0", " ", " ", "1.0", " ", (10%Z, 1). repeat split.
  - exists "2.0", " ", " ", "2.0", " ", (20%Z, 1). repeat split.
Defined.

Lemma images_read_below_sequence_path_witness :
  run W_two 20 = ((run W_two 20).1, (run W_two 20).2)
  /\ EImread "/seq/rgb/2.png" ∈ (run W_two 20).1
  /\ under_root "/seq" "/seq/rgb/2.png".
Proof.
  assert (Hin : EImread "/seq/rgb/2.png" ∈ (run W_two 20).1)
    by (apply (list_elem_of_lookup_2 _ 6); reflexivity).
  split; [reflexivity |]. split; [exact Hin |].
  exact (proj1 (images_read_below_sequence_path W_two "assoc.txt" "/seq" 20
                  (run W_two 20).1 (run W_two 20).2 eq_refl) _ Hin).
Defined.

Lemma well_formed_manifest_loaded_in_order_witness :
  Forall well_formed frames_two
  /\ files W_two "assoc.txt" = Some (unlines (List.map fl_text frames_two))
  /\ exists n st,
       wsteps W_two "assoc.txt" "/seq" n ProcessImages_entry
         = ([EOpen "assoc.txt"], st)
       /\ w_pc st = PCheck
       /\ vstrImageFilenamesRGB st = ["/seq/rgb/1.png"; "/seq/rgb/2.png"]
       /\ vstrImageFilenamesD st = ["/seq/depth/1.png"; "/seq/depth/2.png"]
       /\ vTimestamps st = [(10%Z, 1); (20%Z, 1)].
Proof.
  split; [exact frames_two_well_formed |]. split; [reflexivity |].
  exact (well_formed_manifest_loaded_in_order W_two "assoc.txt" "/seq"
           frames_two frames_two_well_formed eq_refl).
Defined.

Lemma empty_lines_do_not_count_witness :
  files W_pair "a.txt" = Some two_frames
  /\ files W_pair "b.txt" = Some gappy_frames
  /\ two_frames <> gappy_frames
  /\ nonempty_lines two_frames = nonempty_lines gappy_frames
  /\ exists n1 n2 st1 st2,
       wsteps W_pair "a.txt" "/seq" n1 ProcessImages_entry = ([EOpen "a.txt"], st1)
       /\ wsteps W_pair "b.txt" "/seq" n2 ProcessImages_entry
            = ([EOpen "b.txt"], st2)
       /\ w_pc st1 = PCheck /\ w_pc st2 = PCheck
       /\ descriptors st1 = descriptors st2.
Proof.
  split; [reflexivity |]. split; [reflexivity |].
  split; [intros H; discriminate H |]. split; [reflexivity |].
  exact (empty_lines_do_not_count W_pair "a.txt" "b.txt" "/seq"
           two_frames gappy_frames eq_refl eq_refl eq_refl).
Defined.

Lemma blank_line_yields_descriptor_witness :
  w_pc (run W_blank 1).2 = PLoad
  /\ good (fAssociation (run W_blank 1).2) = true
  /\ read_line (rdbuf (fAssociation (run W_blank 1).2)) = ("  ", "", false)
  /\ blanks "  " = true
  /\ exists st',
       wstep W_blank "assoc.txt" "/seq" (run W_blank 1).2 = ([], st')
       /\ w_pc st' = PLoad
       /\ vTimestamps st' = [uninit_double W_blank 0]
       /\ vstrImageFilenamesRGB st' = ["/seq/"]
       /\ vstrImageFilenamesD st' = ["/seq/"].
Proof.
  split; [reflexivity |]. split; [reflexivity |]. split; [reflexivity |].
  split; [reflexivity |].
  exact (blank_line_yields_descriptor W_blank "assoc.txt" "/seq"
           (run W_blank 1).2 "  " "" false eq_refl eq_refl eq_refl eq_refl).
Defined.

Lemma text_line_yields_zero_descriptor_witness :
  w_pc (run W_text 1).2 = PLoad
  /\ good (fAssociation (run W_text 1).2) = true
  /\ read_line (rdbuf (fAssociation (run W_text 1).2)) = (comment_line, "", false)
  /\ num_get comment_line = (None, comment_line)
  /\ exists st',
       wstep W_text "assoc.txt" "/seq" (run W_text 1).2 = ([], st')
       /\ w_pc st' = PLoad
       /\ vTimestamps st' = [(0%Z, 0)]
       /\ vstrImageFilenamesRGB st' = ["/seq/"]
       /\ vstrImageFilenamesD st' = ["/seq/"].
Proof.
  split; [reflexivity |]. split; [reflexivity |]. split; [reflexivity |].
  split; [reflexivity |].
  exact (text_line_yields_zero_descriptor W_text "assoc.txt" "/seq"
           (run W_text 1).2 comment_line "" false comment_line
           eq_refl eq_refl eq_refl eq_refl eq_refl).
Defined.

Lemma frames_tracked_in_order_witness :
  run W_abort 20 = ((run W_abort 20).1, (run W_abort 20).2)
  /\ length (vstrImageFilenamesRGB (run W_abort 20).2) = 3
  /\ exists m,
       List.filter is_track (run W_abort 20).1 =
         expected_calls W_abort
           (take m (vstrImageFilenamesRGB (run W_abort 20).2))
           (take m (vstrImageFilenamesD (run W_abort 20).2))
           (take m (vTimestamps (run W_abort 20).2))
       /\ length (List.filter is_call (run W_abort 20).1) <= 3.
Proof.
  split; [reflexivity |]. split; [reflexivity |].
  exact (frames_tracked_in_order W_abort "assoc.txt" "/seq" 20
           (run W_abort 20).1 (run W_abort 20).2 eq_refl).
Defined.

Lemma colour_failure_stops_at_frame_witness :
  w_pc (run W_colour 6).2 = PCheck
  /\ vstrImageFilenamesRGB (run W_colour 6).2 !! 1 = Some "/seq/rgb/2.png"
  /\ Mat_empty (imread W_colour "/seq/rgb/2.png") = true
  /\ exists n evs st',
       wsteps W_colour "assoc.txt" "/seq" n (run W_colour 6).2 = (evs, st')
       /\ returned st' = true
       /\ evs = [EImread "/seq/rgb/1.png"; EImread "/seq/depth/1.png";
                 ETrackCall [255%Z] [255%Z] (10%Z, 1); ETrackRet; EWaitKey (-1);
                 EImread "/seq/rgb/2.png"; EImread "/seq/depth/2.png";
                 ECerr (msg_failed_load "/seq/rgb/2.png")]
       /\ length (List.filter is_call evs) = 1.
Proof.
  split; [reflexivity |]. split; [reflexivity |]. split; [reflexivity |].
  apply (colour_failure_stops_at_frame W_colour "assoc.txt" "/seq"
           (run W_colour 6).2 1 "/seq/rgb/2.png" "/seq/depth/2.png").
  - reflexivity.
  - reflexivity.
  - reflexivity.
  - reflexivity.
  - reflexivity.
  - reflexivity.
  - reflexivity.
  - intros [|j] r' Hj Hl; [| lia]. injection Hl as <-. reflexivity.
  - intros j _ H. discriminate H.
Defined.

Lemma abort_stops_after_frame_witness :
  w_pc (run W_abort 6).2 = PCheck
  /\ length (vstrImageFilenamesRGB (run W_abort 6).2) = 3
  /\ to_char (waitKey W_abort 1) = 27%Z
  /\ exists n evs st',
       wsteps W_abort "assoc.txt" "/seq" n (run W_abort 6).2 = (evs, st')
       /\ returned st' = true
       /\ evs = [EImread "/seq/rgb/1.png"; EImread "/seq/depth/1.png";
                 ETrackCall [255%Z] [255%Z] (10%Z, 1); ETrackRet; EWaitKey (-1);
                 EImread "/seq/rgb/2.png"; EImread "/seq/depth/2.png";
                 ETrackCall [255%Z] [255%Z] (20%Z, 1); ETrackRet; EWaitKey 27]
       /\ length (List.filter is_call evs) = 2.
Proof.
  split; [reflexivity |]. split; [reflexivity |]. split; [reflexivity |].
  apply (abort_stops_after_frame W_abort "assoc.txt" "/seq"
           (run W_abort 6).2 1 "/seq/rgb/2.png" "/seq/depth/2.png" (20%Z, 1)).
  - reflexivity.
  - reflexivity.
  - reflexivity.
  - reflexivity.
  - reflexivity.
  - reflexivity.
  - reflexivity.
  - intros j r' _ _. reflexivity.
  - intros [|j] Hj H; [discriminate H | lia].
  - reflexivity.
Defined.

Lemma abort_on_low_byte_witness :
  w_pc (run W_high 6).2 = PFrame 0
  /\ waitKey W_high 0 = 283%Z
  /\ exists st',
       wstep W_high "assoc.txt" "/seq" (run W_high 6).2
         = ([EImread "/seq/rgb/1.png"; EImread "/seq/depth/1.png";
             ETrackCall [255%Z] [255%Z] (10%Z, 1); ETrackRet; EWaitKey 283],
            st')
       /\ w_pc st' = PReturn.
Proof.
  split; [reflexivity |]. split; [reflexivity |].
  destruct (abort_on_low_byte W_high "assoc.txt" "/seq" (run W_high 6).2 0
              "/seq/rgb/1.png" "/seq/depth/1.png" (10%Z, 1)
              eq_refl eq_refl eq_refl eq_refl eq_refl eq_refl)
    as (st' & Hstep & Hesc & _).
  exists st'. split; [exact Hstep |]. apply Hesc. reflexivity.
Defined.

Lemma wrong_argc_only_usage_witness :
  2%Z <> 5%Z
  /\ reachable W_two 2 ["./rgbd_tum"; "ORBvoc.txt"]
       (program W_two 2 ["./rgbd_tum"; "ORBvoc.txt"] 1)
  /\ trace (program W_two 2 ["./rgbd_tum"; "ORBvoc.txt"] 1)
       = [(Main, ECerr usage)]
  /\ processingThread (program W_two 2 ["./rgbd_tum"; "ORBvoc.txt"] 1)
       = NotStarted
  /\ (forall code,
        exited (program W_two 2 ["./rgbd_tum"; "ORBvoc.txt"] 1) code ->
        code = 1%Z)
  /\ (exists s',
        rtc (step W_two) (program W_two 2 ["./rgbd_tum"; "ORBvoc.txt"] 1) s'
        /\ exited s' 1
        /\ trace s' = [(Main, ECerr usage); (Main, EReturn 1%Z)]).
Proof.
  split; [lia |]. split; [apply schedule_reachable |]. split; [reflexivity |].
  destruct (wrong_argc_only_usage W_two 2 ["./rgbd_tum"; "ORBvoc.txt"]
              (program W_two 2 ["./rgbd_tum"; "ORBvoc.txt"] 1)
              ltac:(lia) (schedule_reachable W_two 2 _ 1))
    as (Hth & _ & Hcode & Hend).
  split; [exact Hth |]. split; [exact Hcode | exact Hend].
Defined.

Lemma worker_acts_between_spawn_and_join_witness :
  reachable W_two 5 argv5 (program W_two 5 argv5 40)
  /\ trace (program W_two 5 argv5 40)
       = take 4 (trace (program W_two 5 argv5 40))
         ++ (Worker, EOpen "assoc.txt")
            :: drop 5 (trace (program W_two 5 argv5 40))
  /\ exists k,
       2 <= k <= 4
       /\ events_of Main (take 4 (trace (program W_two 5 argv5 40)))
            = take k (main 5 argv5).
Proof.
  split; [apply schedule_reachable |]. split; [reflexivity |].
  exact (worker_acts_between_spawn_and_join W_two argv5
           (program W_two 5 argv5 40)
           (take 4 (trace (program W_two 5 argv5 40)))
           (EOpen "assoc.txt")
           (drop 5 (trace (program W_two 5 argv5 40)))
           (schedule_reachable W_two 5 argv5 40) eq_refl).
Defined.

Lemma exited_run_is_whole_witness :
  reachable W_two 5 argv5 (program W_two 5 argv5 40)
  /\ exited (program W_two 5 argv5 40) 0
  /\ events_of Main (trace (program W_two 5 argv5 40)) = main 5 argv5
  /\ last (trace (program W_two 5 argv5 40)) = Some (Main, EReturn 0%Z)
  /\ exists fuel,
       ProcessImages W_two fuel "assoc.txt" "/seq"
         = Some (events_of Worker (trace (program W_two 5 argv5 40))).
Proof.
  assert (Hex : exited (program W_two 5 argv5 40) 0)
    by (split; [reflexivity | by apply last_Some_elem_of]).
  split; [apply schedule_reachable |]. split; [exact Hex |].
  exact (proj2 (exited_run_is_whole W_two argv5 (program W_two 5 argv5 40)
                  (schedule_reachable W_two 5 argv5 40)) 0%Z Hex).
Defined.

Lemma exports_follow_the_whole_run_witness :
  reachable W_empty 5 argv5 (program W_empty 5 argv5 20)
  /\ trace (program W_empty 5 argv5 20)
       = take 8 (trace (program W_empty 5 argv5 20))
         ++ (Main, ESaveTrajectoryTUM "CameraTrajectory.txt")
            :: drop 9 (trace (program W_empty 5 argv5 20))
  /\ (Main, EShutdown) ∈ take 8 (trace (program W_empty 5 argv5 20))
  /\ (exists fuel,
        ProcessImages W_empty fuel "assoc.txt" "/seq"
          = Some [EOpen "assoc.txt"; ECerr msg_no_images])
  /\ (forall e', (Worker, e') ∉ drop 9 (trace (program W_empty 5 argv5 20))).
Proof.
  split; [apply schedule_reachable |]. split; [reflexivity |].
  destruct (exports_follow_the_whole_run W_empty argv5
              (program W_empty 5 argv5 20)
              (take 8 (trace (program W_empty 5 argv5 20)))
              (ESaveTrajectoryTUM "CameraTrajectory.txt")
              (drop 9 (trace (program W_empty 5 argv5 20)))
              (schedule_reachable W_empty 5 argv5 20) eq_refl eq_refl)
    as (Hsh & Hp & Hq & _).
  split; [exact Hsh |]. split; [exact Hp | exact Hq].
Defined.

Lemma well_formed_manifest_whole_run_witness :
  Forall well_formed frames_two
  /\ files W_two (arg argv5 4) = Some (unlines (List.map fl_text frames_two))
  /\ (exists fuel,
        ProcessImages W_two fuel "assoc.txt" "/seq" =
          Some [EOpen "assoc.txt";
                EImread "/seq/rgb/1.png"; EImread "/seq/depth/1.png";
                ETrackCall [255%Z] [255%Z] (10%Z, 1); ETrackRet; EWaitKey (-1);
                EImread "/seq/rgb/2.png"; EImread "/seq/depth/2.png";
                ETrackCall [255%Z] [255%Z] (20%Z, 1); ETrackRet; EWaitKey (-1)])
  /\ (forall s code, reachable W_two 5 argv5 s -> exited s code ->
        code = 0%Z
        /\ events_of Main (trace s) = main 5 argv5
        /\ events_of Worker (trace s) = whole_run W_two "assoc.txt" "/seq" frames_two).
Proof.
  split; [exact frames_two_well_formed |]. split; [reflexivity |].
  destruct (well_formed_manifest_whole_run W_two argv5 frames_two
              frames_two_well_formed) as (Hp & _ & Hall).
  - intros H. discriminate H.
  - reflexivity.
  - reflexivity.
  - intros f _. reflexivity.
  - intros j _ H. discriminate H.
  - split; [exact Hp | exact Hall].
Defined.
